(** * serverMonitor: backup orchestration, retention, scheduling,
      container attribution and resource statistics

    A shallow embedding of the parts of the serverMonitor service that its
    specification describes:

    - [src/services/backupService.js]  (module [BackupService])
    - [src/services/scheduler.js]      (module [Scheduler])
    - [src/monitors/dockerMonitor.js]  (module [DockerMonitor])
    - the network monitor              (module [NetworkMonitor])

    JavaScript numbers are IEEE-754 binary64 values and are embedded as
    Rocq's primitive floats; [Date] time values (integral milliseconds) are
    embedded as [Z], an invalid [Date] as [None], and the host's time zone
    is an oracle; JavaScript objects used as dictionaries are [gmap]s, with
    the prototype written out where a lookup can reach it; paths are
    joined as Node's [path.join] does; [async] code that touches the file
    system, the clock or a child process is written in a
    state-and-exception monad over an explicit world. *)

From Stdlib Require Import ZArith String Ascii List Bool Floats Lia.
From stdpp Require Import base gmap strings list fin_maps pretty sorting.

(** ** JavaScript string primitives used by the sources *)

Module JS.

(** [s.includes(needle)]: [needle] occurs in [s] as a contiguous run. *)
Fixpoint includes (s needle : string) : bool :=
  String.prefix needle s ||
  match s with
  | EmptyString => false
  | String _ s' => includes s' needle
  end.

(** [s.replace(pat, '')] with a one-character string pattern: only the
    first occurrence is removed. *)
Fixpoint remove_first (pat : ascii) (s : string) : string :=
  match s with
  | EmptyString => EmptyString
  | String c s' => if Ascii.eqb c pat then s' else String c (remove_first pat s')
  end.

(** [s.replace(/[:.]/g, '-')]: every colon and every dot becomes a dash. *)
Fixpoint dash_colons_and_dots (s : string) : string :=
  match s with
  | EmptyString => EmptyString
  | String c s' =>
      String (if Ascii.eqb c ":" || Ascii.eqb c "." then "-"%char else c)
             (dash_colons_and_dots s')
  end.

Definition lower_ascii (c : ascii) : ascii :=
  let n := nat_of_ascii c in
  if (65 <=? n)%nat && (n <=? 90)%nat then ascii_of_nat (n + 32) else c.

(** [s.toLowerCase()] on the ASCII range (the engine kinds the sources
    compare against are ASCII words without a [k], so no character outside
    that range lower-cases into them). *)
Fixpoint toLowerCase (s : string) : string :=
  match s with
  | EmptyString => EmptyString
  | String c s' => String (lower_ascii c) (toLowerCase s')
  end.

(** Truthiness of a string: only the empty string is falsy. *)
Definition truthy_string (s : string) : bool :=
  negb (String.eqb s "").

(** [o || d] where [o] is an optional string property. *)
Definition string_or (o : option string) (d : string) : string :=
  match o with
  | Some s => if truthy_string s then s else d
  | None => d
  end.

End JS.

(** ** Node's [path] module, POSIX flavour *)

Module Posix.

(** The maximal runs between separators: [path.split('/')]. *)
Fixpoint segments (path : string) : list string :=
  match path with
  | EmptyString => [EmptyString]
  | String c rest =>
      if Ascii.eqb c "/" then EmptyString :: segments rest
      else match segments rest with
           | seg :: segs => String c seg :: segs
           | [] => [String c EmptyString]
           end
  end.

(** One round of [normalizeString]: [res] holds the segments kept so far,
    the last one first.  Empty segments and [.] are dropped; [..] removes
    the segment before it, unless there is none or it is [..] itself, in
    which case it is kept when the path is relative and dropped when it is
    absolute. *)
Definition keep (allowAboveRoot : bool) (res : list string) (segment : string)
  : list string :=
  if String.eqb segment "" || String.eqb segment "." then res
  else if String.eqb segment ".." then
    match res with
    | last :: before =>
        if String.eqb last ".." then (if allowAboveRoot then ".." :: res else res)
        else before
    | [] => if allowAboveRoot then [".."] else []
    end
  else segment :: res.

Fixpoint ends_with_slash (path : string) : bool :=
  match path with
  | EmptyString => false
  | String c EmptyString => Ascii.eqb c "/"
  | String _ rest => ends_with_slash rest
  end.

(** [path.normalize(p)] *)
Definition normalize (path : string) : string :=
  if String.eqb path "" then "."
  else
    let isAbsolute := String.prefix "/" path in
    let trailingSeparator := ends_with_slash path in
    let kept := String.concat "/"
                  (rev (fold_left (keep (negb isAbsolute)) (segments path) [])) in
    if String.eqb kept "" then
      (if isAbsolute then "/" else if trailingSeparator then "./" else ".")
    else
      (if isAbsolute then "/" else "") +:+ kept
      +:+ (if trailingSeparator then "/" else "").

(** [path.join(...paths)]: the non-empty arguments, joined by a separator
    and normalized. *)
Definition join (paths : list string) : string :=
  match List.filter JS.truthy_string paths with
  | [] => "."
  | joined => normalize (String.concat "/" joined)
  end.

(** A plain path segment: [path.join] of a directory and [s] names the
    entry called [s] of that directory.  The empty string, [.], [..] and
    anything that holds a separator or a null byte are not plain. *)
Definition plain (s : string) : bool :=
  negb (String.eqb s "") && negb (String.eqb s ".") && negb (String.eqb s "..")
  && negb (JS.includes s "/") && negb (JS.includes s (String Ascii.zero EmptyString)).

End Posix.

(** ** The application roster ([config/applications.json]) *)

Module Database.
Record t := {
  type : string;
  container : string;
  database : string;
  username : string;
  password : string;
  backupSchedule : option string;
  retentionDays : option Z
}.
End Database.

Module Application.
Record t := {
  name : string;
  containers : list string;
  database : option Database.t
}.
End Application.

(** [config.backup] and [config.applications]. *)
Module Config.
Record t := {
  applications : list Application.t;
  dir : string;
  defaultSchedule : string;
  defaultRetentionDays : Z
}.
End Config.

(** ** JavaScript numbers: binary64 floats *)

Module Num.

(** Falsy numbers are [0], [-0] and [NaN]; an absent (undefined) numeric
    property behaves like [NaN] both in arithmetic and under [||]. *)
Definition truthy (x : float) : bool :=
  negb (PrimFloat.eqb x 0 || PrimFloat.is_nan x).

(** [x || d] on numbers. *)
Definition or (x d : float) : float := if truthy x then x else d.

(** The float with the integral value [n]. *)
Definition of_Z (n : Z) : float :=
  SF2Prim (binary_normalize prec emax n 0 false).

(** [Math.round(x)]: the integer nearest to [x], ties towards +∞; a result
    of zero keeps the sign of [x]. *)
Definition Math_round (x : float) : float :=
  match Prim2SF x with
  | S754_finite s m e =>
      if (0 <=? e)%Z then x
      else
        let k := (- e)%Z in
        let v := if s then Z.neg m else Z.pos m in
        let n := ((2 * v + 2 ^ k) / 2 ^ (k + 1))%Z in
        if (n =? 0)%Z then (if s then (-0)%float else 0%float) else of_Z n
  | _ => x
  end.

(** The decimal digits of [n] with a point before the last [f] of them,
    zero-padded on the left so that at least one digit precedes the point. *)
Fixpoint pad_zeros (k : nat) (s : string) : string :=
  match k with
  | O => s
  | S k' => pad_zeros k' ("0" +:+ s)
  end.

Definition fixed_digits (f : nat) (n : Z) : string :=
  let d := pretty (Z.to_N n) in
  let d := pad_zeros (S f - String.length d) d in
  let k := (String.length d - f)%nat in
  if Nat.eqb f 0 then d
  else String.substring 0 k d +:+ "." +:+ String.substring k f d.

(** [x.toFixed(f)].  For magnitudes of 10^21 and above JavaScript defers to
    its shortest-round-trip number printer, which is not modelled: the
    result is [None] there. *)
Definition toFixed (f : nat) (x : float) : option string :=
  match Prim2SF x with
  | S754_nan => Some "NaN"
  | S754_infinity s => Some (if s then "-Infinity" else "Infinity")
  | S754_zero _ => Some (fixed_digits f 0)
  | S754_finite s m e =>
      if (0 <=? e)%Z && (10 ^ 21 <=? Z.pos m * 2 ^ e)%Z then None
      else
        let scaled := (Z.pos m * 10 ^ Z.of_nat f)%Z in
        let n := if (0 <=? e)%Z then (scaled * 2 ^ e)%Z
                 else ((2 * scaled + 2 ^ (- e)) / 2 ^ (- e + 1))%Z in
        Some ((if s then "-" else "") +:+ fixed_digits f n)
  end.

End Num.

(** ** [src/monitors/dockerMonitor.js] *)

Module DockerMonitor.

(** The counters of one [containerObj.stats({ stream: false })] snapshot that
    [getContainers] reads.  A property the runtime leaves out is [nan]. *)
Record Stats := {
  cpu_total_usage : float;        (* stats.cpu_stats.cpu_usage.total_usage *)
  precpu_total_usage : float;     (* stats.precpu_stats.cpu_usage.total_usage *)
  system_cpu_usage : float;       (* stats.cpu_stats.system_cpu_usage *)
  presystem_cpu_usage : float;    (* stats.precpu_stats.system_cpu_usage *)
  online_cpus : float;            (* stats.cpu_stats.online_cpus *)
  memory_usage : float;           (* stats.memory_stats.usage *)
  memory_limit : float            (* stats.memory_stats.limit *)
}.

Definition cpuDelta (st : Stats) : float :=
  (cpu_total_usage st - precpu_total_usage st)%float.

Definition systemDelta (st : Stats) : float :=
  (system_cpu_usage st - presystem_cpu_usage st)%float.

Definition cpuPercent (st : Stats) : float :=
  if (0 <? systemDelta st)%float
  then (cpuDelta st / systemDelta st * online_cpus st * 100)%float
  else 0%float.

Definition memoryUsage (st : Stats) : float := Num.or (memory_usage st) 0.
Definition memoryLimit (st : Stats) : float := Num.or (memory_limit st) 0.

Definition memoryPercent (st : Stats) : float :=
  if (0 <? memoryLimit st)%float
  then (memoryUsage st / memoryLimit st * 100)%float
  else 0%float.

(** The [stats] object of a container record, as it leaves the service. *)
Record Rendered := {
  r_cpuPercent : option string;      (* cpuPercent.toFixed(2) *)
  r_memoryUsage : float;
  r_memoryLimit : float;
  r_memoryPercent : option string    (* memoryPercent.toFixed(2) *)
}.

Definition render (st : Stats) : Rendered :=
  {| r_cpuPercent := Num.toFixed 2 (cpuPercent st);
     r_memoryUsage := memoryUsage st;
     r_memoryLimit := memoryLimit st;
     r_memoryPercent := Num.toFixed 2 (memoryPercent st) |}.

(** [containerName.replace('/', '')] *)
Definition cleanName (containerName : string) : string :=
  JS.remove_first "/" containerName.

(** [app.containers.some(c => cleanName.includes(c) || c.includes(cleanName))] *)
Definition fragment_matches (clean : string) (app : Application.t) : bool :=
  existsb (fun c => JS.includes clean c || JS.includes c clean)
          (Application.containers app).

(** [app.database && cleanName.includes(app.database.container)] *)
Definition database_matches (clean : string) (app : Application.t) : bool :=
  match Application.database app with
  | Some db => JS.includes clean (Database.container db)
  | None => false
  end.

(** The [for (const app of config.applications)] loop; [null] is [None]. *)
Fixpoint findApplicationIn (apps : list Application.t) (clean : string)
  : option string :=
  match apps with
  | [] => None
  | app :: rest =>
      if fragment_matches clean app then Some (Application.name app)
      else if database_matches clean app then Some (Application.name app)
      else findApplicationIn rest clean
  end.

Definition findApplicationForContainer (cfg : Config.t) (containerName : string)
  : option string :=
  findApplicationIn (Config.applications cfg) (cleanName containerName).

(** The [application] field of a container record:
    [application || 'unknown'], where [null] and the empty string are falsy. *)
Definition application (cfg : Config.t) (containerName : string) : string :=
  JS.string_or (findApplicationForContainer cfg containerName) "unknown".

End DockerMonitor.

(** ** The network monitor *)

Module NetworkMonitor.

(** One element of [si.networkStats()], restricted to the properties that
    enter the rate computation. *)
Record Iface := {
  iface : string;
  rx_bytes : float;
  tx_bytes : float
}.

(** A value of the [previousStats] dictionary. *)
Record Prev := {
  prev_rx_bytes : float;
  prev_tx_bytes : float;
  timestamp : float
}.

(** The monitor's mutable state.  [this.previousStats] starts as [{}], a
    plain object: [previousStats] holds its own properties, keyed by
    interface name, and [prototype] is the sample that became its prototype
    when a poll assigned to the name [__proto__] (none at first, when the
    prototype is [Object.prototype]).  [reads] is the number of clock reads
    made so far. *)
Record State := {
  previousStats : gmap string Prev;
  prototype : option Prev;
  reads : nat
}.

(** The names every plain object inherits from [Object.prototype]. *)
Definition inherited_names : list string :=
  ["constructor"; "__defineGetter__"; "__defineSetter__"; "hasOwnProperty";
   "__lookupGetter__"; "__lookupSetter__"; "isPrototypeOf";
   "propertyIsEnumerable"; "toString"; "valueOf"; "__proto__"; "toLocaleString"].

(** What [this.previousStats[name]] evaluates to. *)
Inductive Lookup :=
| Stored (p : Prev)     (* a sample a poll stored *)
| Member                (* a member of [Object.prototype]: truthy, and its
                           [rx_bytes], [tx_bytes] and [timestamp] are undefined *)
| Counter (x : float)   (* a number inherited from the sample that is the
                           prototype; its properties are undefined *)
| Missing.              (* undefined *)

(** [this.previousStats[name]] *)
Definition lookup (s : State) (name : string) : Lookup :=
  if String.eqb name "__proto__" then
    match prototype s with
    | Some p => Stored p
    | None => Member
    end
  else
    match previousStats s !! name with
    | Some p => Stored p
    | None =>
        match prototype s with
        | Some p =>
            if String.eqb name "rx_bytes" then Counter (prev_rx_bytes p)
            else if String.eqb name "tx_bytes" then Counter (prev_tx_bytes p)
            else if String.eqb name "timestamp" then Counter (timestamp p)
            else if bool_decide (name ∈ inherited_names) then Member else Missing
        | None =>
            if bool_decide (name ∈ inherited_names) then Member else Missing
        end
    end.

(** [this.previousStats[name] = entry], after [n] clock reads: an
    assignment to [__proto__] replaces the prototype, any other name becomes
    an own property. *)
Definition store (s : State) (name : string) (entry : Prev) (n : nat) : State :=
  if String.eqb name "__proto__" then
    {| previousStats := previousStats s; prototype := Some entry; reads := n |}
  else
    {| previousStats := <[name := entry]> (previousStats s);
       prototype := prototype s; reads := n |}.

(** The per-interface record of the result (rate-related properties). *)
Record Report := {
  interface : string;
  rxBytes : float;
  txBytes : float;
  rxSpeed : float;
  txSpeed : float
}.

Section WithClock.

(** [Date.now()]: the [n]-th read of the clock returns [clock n]. *)
Variable clock : nat → float.

(** The rates before rounding: the local variables [rxSpeed] and [txSpeed]
    of the callback given to [networkStats.map] once the [if] has run, and
    the number of clock reads that took.  Arithmetic on an undefined
    property gives NaN. *)
Definition rates (s : State) (i : Iface) : float * float * nat :=
  match lookup s (iface i) with
  | Stored p =>
      let timeDiff := ((clock (reads s) - timestamp p) / 1000)%float in
      ((rx_bytes i - prev_rx_bytes p) / timeDiff,
       (tx_bytes i - prev_tx_bytes p) / timeDiff,
       S (reads s))%float
  | Member => (nan, nan, S (reads s))
  | Counter x =>
      if Num.truthy x then (nan, nan, S (reads s)) else (0%float, 0%float, reads s)
  | Missing => (0%float, 0%float, reads s)
  end.

(** The body of the callback given to [networkStats.map]. *)
Definition observe (s : State) (i : Iface) : Report * State :=
  let '(rx, tx, n) := rates s i in
  let entry := {| prev_rx_bytes := rx_bytes i;
                  prev_tx_bytes := tx_bytes i;
                  timestamp := clock n |} in
  ({| interface := iface i;
      rxBytes := rx_bytes i;
      txBytes := tx_bytes i;
      rxSpeed := Num.Math_round rx;
      txSpeed := Num.Math_round tx |},
   store s (iface i) entry (S n)).

(** [networkStats.map(...)]: the interfaces are visited in order, each
    seeing the cache left by the ones before it. *)
Fixpoint getNetworkStats (s : State) (l : list Iface) : list Report * State :=
  match l with
  | [] => ([], s)
  | i :: rest =>
      let '(r, s1) := observe s i in
      let '(rs, s2) := getNetworkStats s1 rest in
      (r :: rs, s2)
  end.

End WithClock.

(** A freshly constructed monitor: [this.previousStats = {}]. *)
Definition init : State := {| previousStats := ∅; prototype := None; reads := 0 |}.

End NetworkMonitor.

(** ** [Date] values: milliseconds since the epoch, UTC *)

Module Date.

Definition msPerDay : Z := 86400000.

(** Year, month and day of the day number [z] (days since 1970-01-01) in the
    proleptic Gregorian calendar. *)
Definition civil_from_days (z : Z) : Z * Z * Z :=
  let z := (z + 719468)%Z in
  let era := (z / 146097)%Z in
  let doe := (z - era * 146097)%Z in
  let yoe := ((doe - doe / 1460 + doe / 36524 - doe / 146096) / 365)%Z in
  let doy := (doe - (365 * yoe + yoe / 4 - yoe / 100))%Z in
  let mp := ((5 * doy + 2) / 153)%Z in
  let d := (doy - (153 * mp + 2) / 5 + 1)%Z in
  let m := if (mp <? 10)%Z then (mp + 3)%Z else (mp - 9)%Z in
  let y := (yoe + era * 400 + (if (m <=? 2)%Z then 1 else 0))%Z in
  (y, m, d).

Definition digits (width : nat) (n : Z) : string :=
  let d := pretty (Z.to_N n) in
  Num.pad_zeros (width - String.length d) d.

(** [new Date(t).toISOString()] for a time value [t] in the valid range. *)
Definition toISOString (t : Z) : string :=
  let day := (t / msPerDay)%Z in
  let ms := (t mod msPerDay)%Z in
  let '(y, m, d) := civil_from_days day in
  let year := if (0 <=? y)%Z && (y <=? 9999)%Z then digits 4 y
              else (if (y <? 0)%Z then "-" else "+") +:+ digits 6 (Z.abs y) in
  year +:+ "-" +:+ digits 2 m +:+ "-" +:+ digits 2 d +:+ "T" +:+
  digits 2 (ms / 3600000) +:+ ":" +:+ digits 2 (ms / 60000 mod 60) +:+ ":" +:+
  digits 2 (ms / 1000 mod 60) +:+ "." +:+ digits 3 (ms mod 1000) +:+ "Z".

(** *** Local time

    [getDate] and [setDate] work on the calendar of the host's time zone.
    A zone is what ECMA-262 calls LocalTZA: the offset of local time from
    UTC, in milliseconds, at a UTC time value ([offset_at]) and at a local
    time value ([offset_of_local]; where a local time is skipped or repeated
    by a change of offset the zone picks one reading). *)
Record Zone := {
  offset_at : Z → Z;
  offset_of_local : Z → Z
}.

(** A zone that keeps one offset all year. *)
Definition fixed (offset : Z) : Zone :=
  {| offset_at := λ _, offset; offset_of_local := λ _, offset |}.

Definition utc : Zone := fixed 0.

(** The zone keeps one offset from UTC at all times. *)
Definition steady (zone : Zone) : Prop :=
  ∃ offset, ∀ t, offset_at zone t = offset ∧ offset_of_local zone t = offset.

Definition Day (t : Z) : Z := (t / msPerDay)%Z.
Definition TimeWithinDay (t : Z) : Z := (t mod msPerDay)%Z.
Definition LocalTime (zone : Zone) (t : Z) : Z := (t + offset_at zone t)%Z.
Definition UTC (zone : Zone) (t : Z) : Z := (t - offset_of_local zone t)%Z.

(** The day of the month, 1 to 31. *)
Definition DateFromTime (t : Z) : Z := (civil_from_days (Day t)).2.

(** The largest time value of a [Date]: 100,000,000 days from the epoch. *)
Definition maxTime : Z := 8640000000000000.

(** [TimeClip]: outside the range the [Date] is invalid (its time value is
    NaN), here [None]. *)
Definition TimeClip (t : Z) : option Z :=
  if (Z.abs t <=? maxTime)%Z then Some t else None.

(** [d.getDate()] for a valid [Date] with time value [t]. *)
Definition getDate (zone : Zone) (t : Z) : Z := DateFromTime (LocalTime zone t).

(** [d.setDate(date)] for a valid [Date] with time value [t] and an integral
    [date]; the result is [d]'s new time value.  MakeDay(year, month, date)
    is the day number of the first day of the month plus [date - 1], and the
    first day of the month local time [t] falls in is
    [Day t - (DateFromTime t - 1)]; MakeDate puts the time within the day
    back, and the local time value so obtained is read in the zone and
    clipped. *)
Definition setDate (zone : Zone) (t date : Z) : option Z :=
  let t := LocalTime zone t in
  let day := (Day t - (DateFromTime t - 1) + (date - 1))%Z in
  let newDate := (day * msPerDay + TimeWithinDay t)%Z in
  TimeClip (UTC zone newDate).

(** [a < d] for a valid [Date] with time value [a] and a [Date] [d]: an
    invalid [Date] compares false with everything. *)
Definition before (a : Z) (d : option Z) : bool :=
  match d with
  | Some b => (a <? b)%Z
  | None => false
  end.

End Date.

(** ** [src/services/backupService.js] *)

Module BackupService.

(** *** The backup tree on disk

    Everything the service stores lives under [config.backup.dir]: one
    directory per application, holding that application's artifacts.  The
    model keeps exactly this two-level tree.  A file-system call fails in
    it by naming something that is not there, and an unlink also when the
    host refuses it. *)

Record FileStat := {
  size : Z;
  birthtime : Z
}.

(** The three places the service's paths point to: [this.backupDir], the
    directory of an application in it, and an artifact in that directory.
    Application and file names are taken to be plain path segments
    ([Posix.plain]), for which [path.join(this.backupDir, app, file)] points
    to [Artifact app file]; the theorems about names that reach the service
    from a request state this as a hypothesis. *)
Inductive Path :=
| Root
| AppDir (app : string)
| Artifact (app file : string).

(** What [fs.stat] resolves to. *)
Record Stats := {
  st_size : Z;
  st_birthtime : Z;
  isDirectory : bool
}.

(** The error numbers the file system answers with. *)
Inductive Errno := ENOENT | EISDIR | ENOTDIR | EACCES | EPERM | EBUSY | EROFS | EIO.

(** [error.code] *)
Definition code (e : Errno) : string :=
  match e with
  | ENOENT => "ENOENT" | EISDIR => "EISDIR" | ENOTDIR => "ENOTDIR"
  | EACCES => "EACCES" | EPERM => "EPERM" | EBUSY => "EBUSY"
  | EROFS => "EROFS" | EIO => "EIO"
  end.

(** The description libuv gives for an error number. *)
Definition strerror (e : Errno) : string :=
  match e with
  | ENOENT => "no such file or directory"
  | EISDIR => "illegal operation on a directory"
  | ENOTDIR => "not a directory"
  | EACCES => "permission denied"
  | EPERM => "operation not permitted"
  | EBUSY => "resource busy or locked"
  | EROFS => "read-only file system"
  | EIO => "i/o error"
  end.

(** What the service throws, one constructor per [throw] site or rejecting
    collaborator. *)
Inductive Error :=
| ApplicationNotFound (appName : string)
| NoDatabaseConfigured (appName : string)
| UnsupportedEngineKind (type : string)
| EmptyArtifact
| ProcessExecutionFailure (message : string)
| FilesystemFailure (errno : Errno) (syscall path : string)
| TypeError (message : string).

(** [error.message] *)
Definition message (e : Error) : string :=
  match e with
  | ApplicationNotFound a => "Application " +:+ a +:+ " not found in configuration"
  | NoDatabaseConfigured a => "No database configured for application " +:+ a
  | UnsupportedEngineKind t => "Unsupported database type: " +:+ t
  | EmptyArtifact => "Backup file is empty"
  | ProcessExecutionFailure m => m
  | FilesystemFailure e syscall p =>
      code e +:+ ": " +:+ strerror e +:+ ", " +:+ syscall +:+ " '" +:+ p +:+ "'"
  | TypeError m => m
  end.

Inductive Result (A : Type) :=
| Ok (a : A)
| Throw (e : Error).
Arguments Ok {A} a.
Arguments Throw {A} e.

(** What a finished child process hands to [execAsync]: the two output
    streams on exit status zero, a rejection otherwise. *)
Inductive ExecResult :=
| Exited (stdout stderr : string)
| Rejected (message : string).

(** What the host contributes and no call of the service changes: the
    rules of its local time zone, and the artifacts it refuses to unlink
    (the directory is read-only, the entry is itself a directory, ...),
    with the error it answers. *)
Record Host := {
  zone : Date.Zone;
  unlink_refused : string → string → option Errno
}.

(** The world the service runs in: the backup tree, the number of clock
    reads made so far, the command lines handed to the process executor
    (most recent first), and the host. *)
Record World := {
  fs : gmap string (gmap string FileStat);
  reads : nat;
  started : list string;
  host : Host
}.

(** Computations that read and change the world and may throw. *)
Definition M (A : Type) : Type := World → Result A * World.

Definition ret {A} (a : A) : M A := fun w => (Ok a, w).
Definition throw {A} (e : Error) : M A := fun w => (Throw e, w).
Definition bind {A B} (m : M A) (k : A → M B) : M B :=
  fun w => match m w with
           | (Ok a, w') => k a w'
           | (Throw e, w') => (Throw e, w')
           end.
(** [try { m } catch (error) { h error }] *)
Definition catch {A} (m : M A) (h : Error → M A) : M A :=
  fun w => match m w with
           | (Ok a, w') => (Ok a, w')
           | (Throw e, w') => h e w'
           end.

Notation "'do' x <- m ; k" := (bind m (fun x => k))
  (at level 10, x pattern, m at level 100, k at level 200).
Notation "m ;; k" := (bind m (fun _ => k))
  (at level 100, k at level 200, right associativity).

Record Backup := {
  b_application : string;
  filename : string;
  path : Path;
  b_size : Z;
  created : Z
}.

(** The value [createBackup] resolves to. *)
Record BackupResult := {
  application : string;
  file : string;
  r_size : Z;
  timestamp : string
}.

(** One element of the array [createAllBackups] resolves to. *)
Inductive Entry :=
| Succeeded (r : BackupResult)                 (* success: true *)
| Failed (application error : string).         (* success: false *)

Definition entry_success (e : Entry) : bool :=
  match e with Succeeded _ => true | Failed _ _ => false end.

Definition entry_application (e : Entry) : string :=
  match e with Succeeded r => application r | Failed a _ => a end.

(** The value [restoreBackup] resolves to. *)
Record RestoreResult := {
  rr_application : string;
  backup : string;
  rr_timestamp : string
}.

(** [backups.sort((a, b) => b.created - a.created)]: stable, most recent
    first. *)
Fixpoint insert_by_created (b : Backup) (l : list Backup) : list Backup :=
  match l with
  | [] => [b]
  | c :: rest =>
      if (created c <=? created b)%Z then b :: l
      else c :: insert_by_created b rest
  end.

Definition sort_by_created (l : list Backup) : list Backup :=
  foldr insert_by_created [] l.

(** [o || d] for the optional numeric property [retentionDays]. *)
Definition days_or (o : option Z) (d : Z) : Z :=
  match o with
  | Some n => if (n =? 0)%Z then d else n
  | None => d
  end.

Section Service.

(** The loaded configuration, the clock ([new Date()]: the [n]-th read
    returns [clock n]) and the process executor, which sees the command line
    and may rewrite the backup tree. *)
Variable cfg : Config.t.
Variable clock : nat → Z.
Variable exec : string → gmap string (gmap string FileStat)
                → ExecResult * gmap string (gmap string FileStat).

(** The strings the service builds for the three shapes of path:
    [this.backupDir], [path.join(this.backupDir, app)] and
    [path.join(appBackupDir, file)]. *)
Definition path_string (p : Path) : string :=
  match p with
  | Root => Config.dir cfg
  | AppDir a => Posix.join [Config.dir cfg; a]
  | Artifact a f => Posix.join [Posix.join [Config.dir cfg; a]; f]
  end.

(** The rejection of a file-system call that found nothing at [text]. *)
Definition enoent {A} (syscall text : string) : M A :=
  throw (FilesystemFailure ENOENT syscall text).

(** [new Date()] *)
Definition new_Date : M Z :=
  fun w => (Ok (clock (reads w)),
            {| fs := fs w; reads := S (reads w); started := started w;
               host := host w |}).

Definition lookup_file (t : gmap string (gmap string FileStat)) (a f : string)
  : option FileStat :=
  match t !! a with
  | Some d => d !! f
  | None => None
  end.

(** The tree with a directory for [a]: created empty unless it is there. *)
Definition ensure_dir (a : string) (t : gmap string (gmap string FileStat))
  : gmap string (gmap string FileStat) :=
  match t !! a with
  | Some _ => t
  | None => <[a := ∅]> t
  end.

(** [fs.mkdir(p, { recursive: true })] *)
Definition fs_mkdir (p : Path) : M unit :=
  match p with
  | AppDir a =>
      fun w => (Ok tt, {| fs := ensure_dir a (fs w);
                          reads := reads w; started := started w;
                          host := host w |})
  | Root => ret tt
  | Artifact a f => enoent "mkdir" (path_string p)
  end.

(** [fs.stat(p)] *)
Definition fs_stat (p : Path) : M Stats :=
  fun w =>
    match p with
    | Root => (Ok {| st_size := 0; st_birthtime := 0; isDirectory := true |}, w)
    | AppDir a =>
        match fs w !! a with
        | Some _ => (Ok {| st_size := 0; st_birthtime := 0; isDirectory := true |}, w)
        | None => enoent "stat" (path_string p) w
        end
    | Artifact a f =>
        match lookup_file (fs w) a f with
        | Some st => (Ok {| st_size := size st; st_birthtime := birthtime st;
                            isDirectory := false |}, w)
        | None => enoent "stat" (path_string p) w
        end
    end.

(** [fs.readdir(p)] *)
Definition fs_readdir (p : Path) : M (list string) :=
  fun w =>
    match p with
    | Root => (Ok (map_to_list (fs w)).*1, w)
    | AppDir a =>
        match fs w !! a with
        | Some d => (Ok (map_to_list d).*1, w)
        | None => enoent "scandir" (path_string p) w
        end
    | Artifact a f => throw (FilesystemFailure ENOTDIR "scandir" (path_string p)) w
    end.

(** [fs.unlink(text)], where the string [text] names the place [p]: an
    artifact that is there is removed unless the host refuses. *)
Definition fs_unlink_as (text : string) (p : Path) : M unit :=
  fun w =>
    match p with
    | Artifact a f =>
        match fs w !! a with
        | Some d =>
            match d !! f with
            | Some _ =>
                match unlink_refused (host w) a f with
                | Some e => throw (FilesystemFailure e "unlink" text) w
                | None =>
                    (Ok tt, {| fs := <[a := delete f d]> (fs w);
                               reads := reads w; started := started w;
                               host := host w |})
                end
            | None => enoent "unlink" text w
            end
        | None => enoent "unlink" text w
        end
    | _ => throw (FilesystemFailure EISDIR "unlink" text) w
    end.

(** [fs.unlink(backup.path)] *)
Definition fs_unlink (p : Path) : M unit := fs_unlink_as (path_string p) p.

(** [fs.access(text)], where the string [text] names the place [p]. *)
Definition fs_access (text : string) (p : Path) : M unit :=
  fun w =>
    match p with
    | Root => (Ok tt, w)
    | AppDir a =>
        match fs w !! a with
        | Some _ => (Ok tt, w)
        | None => enoent "access" text w
        end
    | Artifact a f =>
        match lookup_file (fs w) a f with
        | Some _ => (Ok tt, w)
        | None => enoent "access" text w
        end
    end.

(** [execAsync(command)]: the command is handed to the executor; a non-zero
    exit status rejects. *)
Definition execAsync (command : string) : M (string * string) :=
  fun w =>
    let '(r, t) := exec command (fs w) in
    let w' := {| fs := t; reads := reads w; started := command :: started w;
                 host := host w |} in
    match r with
    | Exited out err => (Ok (out, err), w')
    | Rejected m => (Throw (ProcessExecutionFailure m), w')
    end.

(** [config.applications.find((a) => a.name === appName)] *)
Definition find_application (appName : string) : option Application.t :=
  List.find (fun a => String.eqb (Application.name a) appName)
            (Config.applications cfg).

Definition getPostgreSQLBackupCommand (db : Database.t) (backupFile : string) : string :=
  "docker exec " +:+ Database.container db +:+ " pg_dump -U " +:+
  Database.username db +:+ " " +:+ Database.database db +:+
  " | gzip > " +:+ backupFile.

Definition getMySQLBackupCommand (db : Database.t) (backupFile : string) : string :=
  "docker exec " +:+ Database.container db +:+ " mysqldump -u " +:+
  Database.username db +:+ " -p" +:+ Database.password db +:+ " " +:+
  Database.database db +:+ " | gzip > " +:+ backupFile.

Definition getMongoDBBackupCommand (db : Database.t) (backupFile : string) : string :=
  "docker exec " +:+ Database.container db +:+ " mongodump --db " +:+
  Database.database db +:+ " --archive | gzip > " +:+ backupFile.

(** The [switch (app.database.type.toLowerCase())] of [createBackup]: the
    destination and the command line, or the [default:] throw. *)
Definition backup_plan (appName : string) (db : Database.t) (timestamp : string)
  : Result (Path * string) :=
  let kind := JS.toLowerCase (Database.type db) in
  if String.eqb kind "postgresql" then
    let backupFile := Artifact appName ("backup-" +:+ timestamp +:+ ".sql.gz") in
    Ok (backupFile, getPostgreSQLBackupCommand db (path_string backupFile))
  else if String.eqb kind "mysql" then
    let backupFile := Artifact appName ("backup-" +:+ timestamp +:+ ".sql.gz") in
    Ok (backupFile, getMySQLBackupCommand db (path_string backupFile))
  else if String.eqb kind "mongodb" then
    let backupFile := Artifact appName ("backup-" +:+ timestamp +:+ ".archive.gz") in
    Ok (backupFile, getMongoDBBackupCommand db (path_string backupFile))
  else Throw (UnsupportedEngineKind (Database.type db)).

Definition lift {A} (r : Result A) : M A := fun w => (r, w).

(** The [for (const file of files)] loops of [listBackups]: stat each entry
    of a directory and push its record. *)
Fixpoint stat_all (app : string) (files : list string) : M (list Backup) :=
  match files with
  | [] => ret []
  | file :: rest =>
      let filePath := Artifact app file in
      do stats <- fs_stat filePath;
      do more <- stat_all app rest;
      ret ({| b_application := app; filename := file; path := filePath;
              b_size := st_size stats; created := st_birthtime stats |} :: more)
  end.

(** The [for (const app of apps)] loop of [listBackups]. *)
Fixpoint stat_apps (apps : list string) : M (list Backup) :=
  match apps with
  | [] => ret []
  | app :: rest =>
      let appBackupDir := AppDir app in
      do stat <- fs_stat appBackupDir;
      do these <-
        (if isDirectory stat
         then do files <- fs_readdir appBackupDir; stat_all app files
         else ret []);
      do more <- stat_apps rest;
      ret (these ++ more)%list
  end.

(** [listBackups(appName = null)].  An [appName] that is [null] or the
    empty string is falsy and selects the all-applications branch.  The
    inner [catch] returns the empty list, which sorting leaves empty. *)
Definition listBackups (appName : option string) : M (list Backup) :=
  let every := (do apps <- fs_readdir Root; stat_apps apps) in
  catch
    (do backups <-
       match appName with
       | Some app =>
           if JS.truthy_string app
           then catch (do files <- fs_readdir (AppDir app); stat_all app files)
                      (fun _ => ret [])
           else every
       | None => every
       end;
     ret (sort_by_created backups))
    (fun _ => ret []).

(** The [for (const backup of backups)] loop of [cleanupOldBackups];
    [cutoffDate] is [None] when the [Date] is invalid. *)
Fixpoint delete_before (cutoffDate : option Z) (backups : list Backup)
    (deletedCount : nat) : M nat :=
  match backups with
  | [] => ret deletedCount
  | backup :: rest =>
      if Date.before (created backup) cutoffDate
      then fs_unlink (path backup);; delete_before cutoffDate rest (S deletedCount)
      else delete_before cutoffDate rest deletedCount
  end.

(** The time zone [Date]'s local-time methods work in. *)
Definition local_zone : M Date.Zone := fun w => (Ok (zone (host w)), w).

(** [cleanupOldBackups(appName, retentionDays)]; its [catch] logs and
    rethrows.  [retentionDays] is a whole number of days, as the roster and
    the configured default give it; the cutoff is computed on the local
    calendar of the host. *)
Definition cleanupOldBackups (appName : string) (retentionDays : Z) : M nat :=
  do backups <- listBackups (Some appName);
  do cutoffDate <- new_Date;
  do zone <- local_zone;
  let cutoffDate :=
    Date.setDate zone cutoffDate (Date.getDate zone cutoffDate - retentionDays) in
  delete_before cutoffDate backups 0.

(** [createBackup(appName)]; its [catch] logs and rethrows. *)
Definition createBackup (appName : string) : M BackupResult :=
  match find_application appName with
  | None => throw (ApplicationNotFound appName)
  | Some app =>
      match Application.database app with
      | None => throw (NoDatabaseConfigured appName)
      | Some db =>
          do now <- new_Date;
          let timestamp := JS.dash_colons_and_dots (Date.toISOString now) in
          let appBackupDir := AppDir appName in
          fs_mkdir appBackupDir;;
          do plan <- lift (backup_plan appName db timestamp);
          let '(backupFile, backupCommand) := plan in
          do _ <- execAsync backupCommand;
          do stats <- fs_stat backupFile;
          if (st_size stats =? 0)%Z then throw EmptyArtifact
          else
            cleanupOldBackups appName
              (days_or (Database.retentionDays db) (Config.defaultRetentionDays cfg));;
            do done <- new_Date;
            ret {| application := appName;
                   file := path_string backupFile;
                   r_size := st_size stats;
                   timestamp := Date.toISOString done |}
      end
  end.

(** The [for (const app of config.applications)] loop of
    [createAllBackups]. *)
Fixpoint backup_each (apps : list Application.t) : M (list Entry) :=
  match apps with
  | [] => ret []
  | app :: rest =>
      match Application.database app with
      | Some _ =>
          do entry <-
            catch (do result <- createBackup (Application.name app);
                   ret (Succeeded result))
                  (fun error => ret (Failed (Application.name app) (message error)));
          do more <- backup_each rest;
          ret (entry :: more)
      | None => backup_each rest
      end
  end.

Definition createAllBackups : M (list Entry) :=
  backup_each (Config.applications cfg).

(** [deleteBackup(appName, filename)] *)
Definition deleteBackup (appName filename : string) : M bool :=
  let backupPath := Posix.join [Config.dir cfg; appName; filename] in
  fs_unlink_as backupPath (Artifact appName filename);; ret true.

(** The [switch (app.database.type.toLowerCase())] of [restoreBackup]. *)
Definition restore_plan (db : Database.t) (backupPath : string) : Result string :=
  let kind := JS.toLowerCase (Database.type db) in
  if String.eqb kind "postgresql" then
    Ok ("gunzip < " +:+ backupPath +:+ " | docker exec -i " +:+
        Database.container db +:+ " psql -U " +:+ Database.username db +:+
        " " +:+ Database.database db)
  else if String.eqb kind "mysql" then
    Ok ("gunzip < " +:+ backupPath +:+ " | docker exec -i " +:+
        Database.container db +:+ " mysql -u " +:+ Database.username db +:+
        " -p" +:+ Database.password db +:+ " " +:+ Database.database db)
  else if String.eqb kind "mongodb" then
    Ok ("gunzip < " +:+ backupPath +:+ " | docker exec -i " +:+
        Database.container db +:+ " mongorestore --archive --db " +:+
        Database.database db)
  else Throw (UnsupportedEngineKind (Database.type db)).

(** [restoreBackup(appName, filename)].  Reading [app.database.type] when
    [app.database] is undefined throws a [TypeError]. *)
Definition restoreBackup (appName filename : string) : M RestoreResult :=
  match find_application appName with
  | None => throw (ApplicationNotFound appName)
  | Some app =>
      let backupPath := Posix.join [Config.dir cfg; appName; filename] in
      fs_access backupPath (Artifact appName filename);;
      do restoreCommand <-
        match Application.database app with
        | None => throw (TypeError "Cannot read properties of undefined (reading 'type')")
        | Some db => lift (restore_plan db backupPath)
        end;
      do _ <- execAsync restoreCommand;
      do done <- new_Date;
      ret {| rr_application := appName;
             backup := filename;
             rr_timestamp := Date.toISOString done |}
  end.

End Service.

End BackupService.

(** ** [src/services/scheduler.js] *)

Module Scheduler.

(** An element of [this.jobs].  The [job] property, the handle of the cron
    task whose callback calls [backupService.createBackup(app.name)], is
    determined by the other three and is left out. *)
Record Job := {
  application : string;
  type : string;
  schedule : string
}.

Section Scheduler.

Variable cfg : Config.t.

(** [cron.validate] *)
Variable validate : string → bool.

(** [scheduleBackup(app)], where [db] is [app.database]. *)
Definition scheduleBackup (jobs : list Job) (app : Application.t) (db : Database.t)
  : list Job :=
  let schedule := JS.string_or (Database.backupSchedule db) (Config.defaultSchedule cfg) in
  if negb (validate schedule) then jobs
  else jobs ++ [ {| application := Application.name app;
                    type := "backup";
                    schedule := schedule |} ].

(** The callback of [config.applications.forEach] in [init]:
    [if (app.database && app.database.backupSchedule)]. *)
Definition init_step (jobs : list Job) (app : Application.t) : list Job :=
  match Application.database app with
  | Some db =>
      match Database.backupSchedule db with
      | Some s => if JS.truthy_string s then scheduleBackup jobs app db else jobs
      | None => jobs
      end
  | None => jobs
  end.

(** [init()] on a scheduler whose job table is [jobs]. *)
Definition init (jobs : list Job) : list Job :=
  fold_left init_step (Config.applications cfg) jobs.

(** [stopAll()] *)
Definition stopAll (jobs : list Job) : list Job := [].

(** [getJobs()] *)
Definition getJobs (jobs : list Job) : list (string * string * string) :=
  map (fun j => (application j, type j, schedule j)) jobs.

End Scheduler.

End Scheduler.

(** ** A concrete deployment, for running the model *)

Module Sample.

Import BackupService.

Definition shop_db : Database.t :=
  {| Database.type := "postgresql"; Database.container := "shop-db";
     Database.database := "shop"; Database.username := "postgres";
     Database.password := "secret";
     Database.backupSchedule := Some "0 2 * * *";
     Database.retentionDays := Some 7%Z |}.

Definition shop : Application.t :=
  {| Application.name := "shop";
     Application.containers := ["shop-web"; "shop-api"];
     Application.database := Some shop_db |}.

(** An application whose engine kind the service does not know, and which
    declares no cadence. *)
Definition blog : Application.t :=
  {| Application.name := "blog";
     Application.containers := ["blog"; "web"];
     Application.database :=
       Some {| Database.type := "sqlite"; Database.container := "blog-db";
               Database.database := "blog"; Database.username := "blog";
               Database.password := "";
               Database.backupSchedule := None;
               Database.retentionDays := None |} |}.

(** A monitoring-only application. *)
Definition wiki : Application.t :=
  {| Application.name := "wiki";
     Application.containers := ["wiki"];
     Application.database := None |}.

(** An application whose cadence is not a cron expression. *)
Definition docs : Application.t :=
  {| Application.name := "docs";
     Application.containers := ["docs"];
     Application.database :=
       Some {| Database.type := "MySQL"; Database.container := "docs-db";
               Database.database := "docs"; Database.username := "root";
               Database.password := "pw";
               Database.backupSchedule := Some "nightly";
               Database.retentionDays := Some 14%Z |} |}.

Definition cfg : Config.t :=
  {| Config.applications := [shop; blog; wiki; docs];
     Config.dir := "./backups";
     Config.defaultSchedule := "0 2 * * *";
     Config.defaultRetentionDays := 7 |}.

(** A clock that advances one second per read, starting at
    2023-11-14T22:13:20.000Z. *)
Definition start : Z := 1700000000000.
Definition clock (n : nat) : Z := (start + 1000 * Z.of_nat n)%Z.

(** The text after the first occurrence of [sep] in [s]. *)
Fixpoint after (sep s : string) : option string :=
  if String.prefix sep s
  then Some (String.substring (String.length sep) (String.length s) s)
  else match s with
       | EmptyString => None
       | String _ s' => after sep s'
       end.

(** [s] cut at its first [c]. *)
Fixpoint cut (c : ascii) (s : string) : option (string * string) :=
  match s with
  | EmptyString => None
  | String d s' =>
      if Ascii.eqb c d then Some (EmptyString, s')
      else match cut c s' with
           | Some (a, b) => Some (String d a, b)
           | None => None
           end
  end.

Definition write (t : gmap string (gmap string FileStat)) (a f : string)
  (st : FileStat) : gmap string (gmap string FileStat) :=
  <[a := <[f := st]> (default ∅ (t !! a))]> t.

(** A stand-in for the shell: a command that redirects into
    [dir/app/file] leaves a file of [bytes app] bytes there, born at [born],
    and exits with status zero; any other command changes nothing. *)
Definition shell (dir : string) (bytes : string → Z) (born : Z)
  (command : string) (t : gmap string (gmap string FileStat))
  : ExecResult * gmap string (gmap string FileStat) :=
  match after " > " command with
  | Some target =>
      match after (dir +:+ "/") target with
      | Some rel =>
          match cut "/" rel with
          | Some (a, f) =>
              (Exited "" "", write t a f {| size := bytes a; birthtime := born |})
          | None => (Rejected "cannot create file", t)
          end
      | None => (Rejected "cannot create file", t)
      end
  | None => (Exited "" "", t)
  end.

(** A stand-in for [cron.validate]: five or six blank-separated fields. *)
Fixpoint fields (s : string) : nat :=
  match s with
  | EmptyString => 1
  | String c s' => if Ascii.eqb c " " then S (fields s') else fields s'
  end.

Definition validate (s : string) : bool :=
  Nat.eqb (fields s) 5 || Nat.eqb (fields s) 6.

Definition day : Z := Date.msPerDay.

(** Three artifacts of [shop], one, eight and thirty days old at [start]. *)
Definition aged : gmap string (gmap string FileStat) :=
  {[ "shop" := {[ "d1.sql.gz" := {| size := 10; birthtime := start - 1 * day |};
                  "d8.sql.gz" := {| size := 10; birthtime := start - 8 * day |};
                  "d30.sql.gz" := {| size := 10; birthtime := start - 30 * day |} ]} ]}.

(** A host on UTC that refuses no unlink. *)
Definition machine : Host :=
  {| zone := Date.utc; unlink_refused := λ _ _, None |}.

Definition world (t : gmap string (gmap string FileStat)) : World :=
  {| fs := t; reads := 0; started := []; host := machine |}.

(** The same world on a host that refuses every unlink with EACCES. *)
Definition locked (t : gmap string (gmap string FileStat)) : World :=
  {| fs := t; reads := 0; started := [];
     host := {| zone := Date.utc; unlink_refused := λ _ _, Some EACCES |} |}.

(** US Eastern time around the end of daylight saving time on 2023-11-05:
    four hours behind UTC before 06:00 UTC of that day, five hours
    afterwards. *)
Definition eastern : Date.Zone :=
  {| Date.offset_at := λ t, (if t <? 1699164000000 then -14400000 else -18000000)%Z;
     Date.offset_of_local :=
       λ t, (if t <? 1699149600000 then -14400000 else -18000000)%Z |}.

(** An artifact of [shop] created thirty days and half an hour before
    [start]. *)
Definition edge : gmap string (gmap string FileStat) :=
  {[ "shop" := {[ "edge.sql.gz" :=
                    {| size := 10; birthtime := start - 30 * day - 1800000 |} ]} ]}.

(** The world of a host on US Eastern time. *)
Definition abroad (t : gmap string (gmap string FileStat)) : World :=
  {| fs := t; reads := 0; started := [];
     host := {| zone := eastern; unlink_refused := λ _ _, None |} |}.

(** A network clock: the interface is first seen at 10 s; every later read
    returns 12 s. *)
Definition two_polls (n : nat) : float :=
  match n with
  | O => 10000%float
  | _ => 12000%float
  end.

Definition eth0 (rx tx : float) : NetworkMonitor.Iface :=
  {| NetworkMonitor.iface := "eth0";
     NetworkMonitor.rx_bytes := rx;
     NetworkMonitor.tx_bytes := tx |}.

End Sample.

(** ** Vocabulary of the specification *)

Module Spec.

(** [n] is a substring of [s]. *)
Definition substring (n s : string) : Prop := ∃ a b, s = a +:+ n +:+ b.

(** The application [app] claims the container called [name]: one of its
    declared fragments is a substring of the name or the name is a
    substring of the fragment, or its database container name is a
    substring of the name. *)
Definition owns (app : Application.t) (name : string) : Prop :=
  (∃ c, c ∈ Application.containers app ∧ (substring c name ∨ substring name c))
  ∨ (∃ db, Application.database app = Some db
           ∧ substring (Database.container db) name).

(** The last sample of the interface called [n] in a poll. *)
Fixpoint latest (l : list NetworkMonitor.Iface) (n : string)
  : option NetworkMonitor.Iface :=
  match l with
  | [] => None
  | i :: rest =>
      match latest rest n with
      | Some j => Some j
      | None => if String.eqb (NetworkMonitor.iface i) n then Some i else None
      end
  end.

(** The cadence expression an application declares: present when it has a
    database descriptor with a non-empty [backupSchedule]. *)
Definition cadence (app : Application.t) : option string :=
  match Application.database app with
  | Some db =>
      match Database.backupSchedule db with
      | Some s => if JS.truthy_string s then Some s else None
      | None => None
      end
  | None => None
  end.

(** The backup job of [app] running on the cadence [s]. *)
Definition backup_job (app : Application.t) (s : string) : Scheduler.Job :=
  {| Scheduler.application := Application.name app;
     Scheduler.type := "backup";
     Scheduler.schedule := s |}.

(** What one application adds to the job table when [init] visits it. *)
Definition contributes (validate : string → bool) (app : Application.t)
  : list Scheduler.Job :=
  match cadence app with
  | Some s => if validate s then [backup_job app s] else []
  | None => []
  end.

(** The record [listBackups] builds for the directory entry [kv] of [app]. *)
Definition backup_of (app : string) (kv : string * BackupService.FileStat)
  : BackupService.Backup :=
  {| BackupService.b_application := app;
     BackupService.filename := kv.1;
     BackupService.path := BackupService.Artifact app kv.1;
     BackupService.b_size := BackupService.size kv.2;
     BackupService.created := BackupService.birthtime kv.2 |}.

(** The artifacts stored for [app]. *)
Definition artifacts (t : gmap string (gmap string BackupService.FileStat))
  (app : string) : gmap string BackupService.FileStat :=
  default ∅ (t !! app).


(** The tree after every artifact of [app] created before the cutoff was
    unlinked; an invalid cutoff ([None]) has nothing before it. *)
Definition swept (cutoff : option Z) (app : string)
  (t : gmap string (gmap string BackupService.FileStat))
  : gmap string (gmap string BackupService.FileStat) :=
  match t !! app with
  | Some d =>
      <[app := filter (λ kv, Date.before (BackupService.birthtime kv.2) cutoff ≠ true) d]> t
  | None => t
  end.

(** [days] calendar days before [now] at the same local wall-clock time, as
    a time value; [None] when that is outside the range of [Date]. *)
Definition cutoff (zone : Date.Zone) (now days : Z) : option Z :=
  Date.TimeClip (Date.UTC zone (Date.LocalTime zone now - days * Date.msPerDay)).

(** A directory after the files called [names] were unlinked one by one. *)
Definition remove_all (names : list string)
  (d : gmap string BackupService.FileStat) : gmap string BackupService.FileStat :=
  fold_left (λ d f, delete f d) names d.

(** [attempts apps w entries w']: visiting [apps] in order from the world
    [w], skipping the applications without a database descriptor and running
    createBackup for each of the others from the world its predecessor left,
    yields [entries] and the world [w'].  A backup that throws yields a
    failure entry with the error's message, and the visit goes on. *)
Inductive attempts (cfg : Config.t) (clock : nat → Z)
    (exec : string → gmap string (gmap string BackupService.FileStat)
            → BackupService.ExecResult * gmap string (gmap string BackupService.FileStat))
  : list Application.t → BackupService.World
    → list BackupService.Entry → BackupService.World → Prop :=
| attempts_done w : attempts cfg clock exec [] w [] w
| attempts_skip app rest w entries w' :
    Application.database app = None →
    attempts cfg clock exec rest w entries w' →
    attempts cfg clock exec (app :: rest) w entries w'
| attempts_success app rest w r w1 entries w' :
    is_Some (Application.database app) →
    BackupService.createBackup cfg clock exec (Application.name app) w
    = (BackupService.Ok r, w1) →
    attempts cfg clock exec rest w1 entries w' →
    attempts cfg clock exec (app :: rest) w
             (BackupService.Succeeded r :: entries) w'
| attempts_failure app rest w e w1 entries w' :
    is_Some (Application.database app) →
    BackupService.createBackup cfg clock exec (Application.name app) w
    = (BackupService.Throw e, w1) →
    attempts cfg clock exec rest w1 entries w' →
    attempts cfg clock exec (app :: rest) w
             (BackupService.Failed (Application.name app) (BackupService.message e)
              :: entries) w'.

(** The engine kinds the command builder knows. *)
Definition supported (db : Database.t) : Prop :=
  JS.toLowerCase (Database.type db) ∈ ["postgresql"; "mysql"; "mongodb"].

(** The dump tool and the restore tool of a supported engine kind. *)
Definition tools (kind : string) : string * string :=
  if String.eqb kind "postgresql" then ("pg_dump", "psql")
  else if String.eqb kind "mysql" then ("mysqldump", "mysql")
  else ("mongodump", "mongorestore").

(** The descriptor [db] with another password. *)
Definition with_password (db : Database.t) (pw : string) : Database.t :=
  {| Database.type := Database.type db;
     Database.container := Database.container db;
     Database.database := Database.database db;
     Database.username := Database.username db;
     Database.password := pw;
     Database.backupSchedule := Database.backupSchedule db;
     Database.retentionDays := Database.retentionDays db |}.

(** The sample the cache holds under the name [n], if it holds one. *)
Definition cached (s : NetworkMonitor.State) (n : string) : option NetworkMonitor.Prev :=
  match NetworkMonitor.lookup s n with
  | NetworkMonitor.Stored p => Some p
  | _ => None
  end.

(** The byte counters held in a cache entry. *)
Definition counters (p : NetworkMonitor.Prev) : float * float :=
  (NetworkMonitor.prev_rx_bytes p, NetworkMonitor.prev_tx_bytes p).

End Spec.

(** ** More vocabulary: listings and schedules *)

Module Views.

(** Most recent first: every record is created no earlier than the records
    behind it. *)
Definition newest_first (l : list BackupService.Backup) : Prop :=
  StronglySorted (λ a b, (BackupService.created b <= BackupService.created a)%Z) l.

(** One record for every file of every directory of the backup tree. *)
Definition all_backups (t : gmap string (gmap string BackupService.FileStat))
  : list BackupService.Backup :=
  flat_map (λ ad, Spec.backup_of ad.1 <$> map_to_list ad.2) (map_to_list t).

(** [app] declares a cadence expression that [validate] accepts. *)
Definition schedulable (validate : string → bool) (app : Application.t) : bool :=
  match Spec.cadence app with
  | Some s => validate s
  | None => false
  end.

(** The cadence [app] declares, or the empty string. *)
Definition declared (app : Application.t) : string :=
  default "" (Spec.cadence app).

End Views.

(** ** [src/monitors/dockerMonitor.js]: the container poll and its views *)

Module Containers.

(** One element of [docker.listContainers({ all: true })], restricted to the
    properties [getContainers] copies or attributes by; [Name] is
    [container.Names[0]].  Ports and mounts are copied property by property
    and are left out. *)
Record Summary := {
  Id : string;
  Name : string;
  Image : string;
  State : string;
  Status : string;
  Created : float
}.

(** What the two per-container calls, [stats({ stream: false })] and
    [inspect()], come back with: the counters and the [eth0] byte counters
    ([nan] when absent), or the message of whichever call threw. *)
Inductive Probe :=
| Probed (st : DockerMonitor.Stats) (rx_bytes tx_bytes : float)
| Failed (message : string).

(** The properties only a fully probed container record has. *)
Record Details := {
  created : float;
  application : string;
  stats : DockerMonitor.Rendered;
  networkRx : float;
  networkTx : float
}.

Inductive Outcome :=
| Detailed (d : Details)
| Errored (error : string).

(** A container record as [getContainers] returns it. *)
Record Container := {
  id : string;
  name : string;
  image : string;
  state : string;
  status : string;
  outcome : Outcome
}.

(** [c.application]: undefined on a record that carries an error. *)
Definition application_of (c : Container) : option string :=
  match outcome c with
  | Detailed d => Some (application d)
  | Errored _ => None
  end.

(** What [docker.listContainers] comes back with. *)
Inductive Listing :=
| Listed (containers : list Summary)
| Unreachable (message : string).

(** The monitor's [cachedData] and the number of clock reads so far. *)
Record Cache := {
  cachedContainers : option (list Container);
  lastUpdate : option float;
  reads : nat
}.

(** A freshly constructed monitor. *)
Definition init : Cache :=
  {| cachedContainers := None; lastUpdate := None; reads := 0 |}.

Section Monitor.

Variable cfg : Config.t.
Variable clock : nat → float.
Variable probe : Summary → Probe.

(** The callback given to [containers.map] in [getContainers]: the [try]
    branch for a container whose probe succeeds, the [catch] branch
    otherwise. *)
Definition describe (container : Summary) : Container :=
  match probe container with
  | Probed st rx tx =>
      {| id := String.substring 0 12 (Id container);
         name := JS.remove_first "/" (Name container);
         image := Image container;
         state := State container;
         status := Status container;
         outcome :=
           Detailed
             {| created := Created container;
                application := DockerMonitor.application cfg (Name container);
                stats := DockerMonitor.render st;
                networkRx := Num.or rx 0;
                networkTx := Num.or tx 0 |} |}
  | Failed _ =>
      {| id := String.substring 0 12 (Id container);
         name := JS.remove_first "/" (Name container);
         image := Image container;
         state := State container;
         status := Status container;
         outcome := Errored "Could not fetch detailed stats" |}
  end.

(** [getContainers()]: the records, or the rethrown error of
    [listContainers]; a successful poll replaces the cache. *)
Definition getContainers (listing : Listing) (s : Cache)
  : (list Container + string) * Cache :=
  match listing with
  | Listed containers =>
      let containerDetails := describe <$> containers in
      (inl containerDetails,
       {| cachedContainers := Some containerDetails;
          lastUpdate := Some (clock (reads s));
          reads := S (reads s) |})
  | Unreachable m => (inr m, s)
  end.

(** [getContainersByApplication(appName)] *)
Definition getContainersByApplication (appName : string) (listing : Listing) (s : Cache)
  : (list Container + string) * Cache :=
  match getContainers listing s with
  | (inl allContainers, s') =>
      (inl (List.filter
              (λ c, match application_of c with
                    | Some a => String.eqb a appName
                    | None => false
                    end) allContainers), s')
  | (inr m, s') => (inr m, s')
  end.

(** [getContainerByName(name)]; [undefined] is [None]. *)
Definition getContainerByName (n : string) (listing : Listing) (s : Cache)
  : (option Container + string) * Cache :=
  match getContainers listing s with
  | (inl containers, s') =>
      (inl (List.find (λ c, String.eqb (name c) n || JS.includes (name c) n)
                      containers), s')
  | (inr m, s') => (inr m, s')
  end.

(** [getCachedContainers(maxAge = 10000)]: the clock is read only when
    [lastUpdate] is truthy. *)
Definition getCachedContainers (maxAge : float) (s : Cache)
  : option (list Container) * Cache :=
  match lastUpdate s with
  | Some t =>
      if Num.truthy t
      then (if (clock (reads s) - t <? maxAge)%float then cachedContainers s else None,
            {| cachedContainers := cachedContainers s;
               lastUpdate := lastUpdate s;
               reads := S (reads s) |})
      else (None, s)
  | None => (None, s)
  end.

End Monitor.

End Containers.

(** ** The network monitor: totals *)

Module NetworkTotals.

(** The accumulator of [getTotalTraffic]'s [reduce]. *)
Record Totals := {
  rxBytes : float;
  txBytes : float;
  rxSpeed : float;
  txSpeed : float
}.

Definition zero : Totals :=
  {| rxBytes := 0; txBytes := 0; rxSpeed := 0; txSpeed := 0 |}.

(** The callback given to [reduce]. *)
Definition add (acc : Totals) (i : NetworkMonitor.Report) : Totals :=
  {| rxBytes := (rxBytes acc + NetworkMonitor.rxBytes i)%float;
     txBytes := (txBytes acc + NetworkMonitor.txBytes i)%float;
     rxSpeed := (rxSpeed acc + NetworkMonitor.rxSpeed i)%float;
     txSpeed := (txSpeed acc + NetworkMonitor.txSpeed i)%float |}.

(** [getTotalTraffic()]: a poll of its own, reduced to the four totals. *)
Definition getTotalTraffic (clock : nat → float) (s : NetworkMonitor.State)
    (l : list NetworkMonitor.Iface) : Totals * NetworkMonitor.State :=
  let '(interfaces, s') := NetworkMonitor.getNetworkStats clock s l in
  (fold_left add interfaces zero, s').

End NetworkTotals.

(** ** [src/middleware/auth.js] and the configured key *)

Module Auth.

(** [process.env.API_KEY || 'default-insecure-key'] *)
Definition apiKey (API_KEY : option string) : string :=
  JS.string_or API_KEY "default-insecure-key".

Inductive Verdict :=
| Next
| Rejected (status : nat) (error : string).

(** [authenticate(req, res, next)], where [header] is
    [req.headers['x-api-key']]. *)
Definition authenticate (configured : string) (header : option string) : Verdict :=
  let unauthorized :=
    Rejected 401 "Unauthorized. Please provide a valid API key in X-API-Key header." in
  match header with
  | Some apiKey =>
      if negb (JS.truthy_string apiKey) || negb (String.eqb apiKey configured)
      then unauthorized
      else Next
  | None => unauthorized
  end.

End Auth.

(** ** The backup routes and the error handler *)

Module Routes.

(** What a handler answers: [res.json({ success: true, ... })] with the
    default status 200, or a failure body under an explicit status. *)
Inductive Response (A : Type) :=
| Replied (data : A)
| Refused (status : nat) (error : string).
Arguments Replied {A} data.
Arguments Refused {A} status error.

(** [errorHandler(err, req, res, next)]: [err.statusCode || 500] and
    [err.message || 'Internal Server Error'].  No error the backup service
    throws carries a [statusCode]. *)
Definition errorHandler {A} (err : BackupService.Error) : Response A :=
  Refused 500 (JS.string_or (Some (BackupService.message err)) "Internal Server Error").

(** One element of the [applications] array of [GET /status]. *)
Record AppStatus := {
  application : string;
  hasDatabase : bool;
  backupSchedule : option string;
  totalBackups : nat;
  latestBackup : option (string * Z * Z)      (* filename, size, created *)
}.

(** The [data] of [GET /status/:appName]. *)
Record AppReport := {
  summary : AppStatus;
  retentionDays : option Z;
  allBackups : list BackupService.Backup
}.

(** [latestBackup ? { filename, size, created } : null] for
    [backups.length > 0 ? backups[0] : null]. *)
Definition latest (backups : list BackupService.Backup) : option (string * Z * Z) :=
  match backups with
  | b :: _ => Some (BackupService.filename b, BackupService.b_size b,
                    BackupService.created b)
  | [] => None
  end.

(** The callback given to [config.applications.map] in [GET /status]. *)
Definition status_of (backups : list BackupService.Backup) (app : Application.t)
  : AppStatus :=
  let appBackups :=
    List.filter (λ b, String.eqb (BackupService.b_application b) (Application.name app))
                backups in
  {| application := Application.name app;
     hasDatabase := bool_decide (is_Some (Application.database app));
     backupSchedule := Application.database app ≫= Database.backupSchedule;
     totalBackups := length appBackups;
     latestBackup := latest appBackups |}.

Section Handlers.

Variable cfg : Config.t.
Variable clock : nat → Z.
Variable exec : string → gmap string (gmap string BackupService.FileStat)
                → BackupService.ExecResult
                  * gmap string (gmap string BackupService.FileStat).

(** [try { data = await action; res.json(...) } catch (error) { next(error) }],
    with the error handler behind [next]. *)
Definition respond {A} (action : BackupService.M A)
  : BackupService.World → Response A * BackupService.World :=
  fun w => match action w with
           | (BackupService.Ok a, w') => (Replied a, w')
           | (BackupService.Throw e, w') => (errorHandler e, w')
           end.

(** [POST /create/:appName] *)
Definition create (appName : string) :=
  respond (BackupService.createBackup cfg clock exec appName).

(** [POST /create-all]: the message and the results. *)
Definition create_all :=
  respond
    (BackupService.bind (BackupService.createAllBackups cfg clock exec)
       (fun results =>
          let successCount :=
            length (List.filter BackupService.entry_success results) in
          let failCount :=
            length (List.filter (λ r, negb (BackupService.entry_success r)) results) in
          BackupService.ret
            ("Backup completed: " +:+ pretty successCount +:+ " succeeded, "
             +:+ pretty failCount +:+ " failed",
             results))).

(** [GET /list] and [GET /list/:appName] *)
Definition list_backups (appName : option string) :=
  respond (BackupService.listBackups cfg appName).

(** [GET /status], given the scheduler's job table. *)
Definition status (jobs : list Scheduler.Job) :=
  respond
    (BackupService.bind (BackupService.listBackups cfg None)
       (fun backups =>
          BackupService.ret
            (map (status_of backups) (Config.applications cfg),
             Scheduler.getJobs jobs))).

(** [GET /status/:appName]: the listing is taken first, then the
    application is looked up. *)
Definition status_app (appName : string)
  : BackupService.World → Response AppReport * BackupService.World :=
  fun w =>
    match BackupService.listBackups cfg (Some appName) w with
    | (BackupService.Ok backups, w') =>
        match BackupService.find_application cfg appName with
        | None => (Refused 404 ("Application " +:+ appName +:+ " not found"), w')
        | Some app =>
            (Replied
               {| summary :=
                    {| application := appName;
                       hasDatabase := bool_decide (is_Some (Application.database app));
                       backupSchedule :=
                         Application.database app ≫= Database.backupSchedule;
                       totalBackups := length backups;
                       latestBackup := latest backups |};
                  retentionDays := Application.database app ≫= Database.retentionDays;
                  allBackups := backups |}, w')
        end
    | (BackupService.Throw e, w') => (errorHandler e, w')
    end.

(** [POST /restore/:appName/:filename] *)
Definition restore (appName filename : string) :=
  respond (BackupService.restoreBackup cfg clock exec appName filename).

(** [DELETE /:appName/:filename] *)
Definition delete_backup (appName filename : string) :=
  respond (BackupService.deleteBackup cfg appName filename).

End Handlers.

End Routes.

(** ** More vocabulary: answers *)

Module Answers.

(** The response reports the service's outcome: the result itself, or
    status 500 with the error's message (with a stock text when the message
    is empty). *)
Definition reports {A} (response : Routes.Response A) (outcome : BackupService.Result A)
  : Prop :=
  match outcome with
  | BackupService.Ok a => response = Routes.Replied a
  | BackupService.Throw e =>
      response
      = Routes.Refused 500
          (if decide (BackupService.message e = "") then "Internal Server Error"
           else BackupService.message e)
  end.

End Answers.

(** ** Facts about the string primitives *)

Section StringFacts.

Lemma app_cons (c : ascii) (a b : string) :
  String c a +:+ b = String c (a +:+ b).
Proof. reflexivity. Qed.

Lemma app_empty_l (s : string) : "" +:+ s = s.
Proof. reflexivity. Qed.

Lemma app_empty_r (s : string) : s +:+ "" = s.
Proof. induction s as [|c s IH]; [done|]. by rewrite app_cons, IH. Qed.

Lemma string_app_assoc (a b c : string) : (a +:+ b) +:+ c = a +:+ (b +:+ c).
Proof. induction a as [|x a IH]; [done|]. by rewrite !app_cons, IH. Qed.

Lemma prefix_app (p s : string) : String.prefix p (p +:+ s) = true.
Proof.
  induction p as [|c p IH].
  - by destruct s.
  - rewrite app_cons. simpl. by destruct (ascii_dec c c).
Qed.

Lemma prefix_split (p s : string) :
  String.prefix p s = true → ∃ r, s = p +:+ r.
Proof.
  revert s. induction p as [|c p IH]; intros s H.
  - by exists s.
  - destruct s as [|d s]; simpl in H; [done|].
    destruct (ascii_dec c d) as [->|]; [|done].
    destruct (IH _ H) as [r ->]. by exists r.
Qed.

(** [includes] is exactly the substring relation. *)
Lemma includes_spec (s n : string) :
  JS.includes s n = true ↔ ∃ a b, s = a +:+ n +:+ b.
Proof.
  split.
  - induction s as [|c s IH]; cbn [JS.includes]; intros H.
    + rewrite orb_false_r in H. destruct (prefix_split _ _ H) as [r Hr].
      by exists "", r.
    + apply orb_true_iff in H as [H|H].
      * destruct (prefix_split _ _ H) as [r Hr]. by exists "", r.
      * destruct (IH H) as (a & b & ->). by exists (String c a), b.
  - intros (a & b & ->). induction a as [|c a IH].
    + rewrite app_empty_l.
      assert (E : String.prefix n (n +:+ b) = true) by apply prefix_app.
      destruct (n +:+ b); cbn [JS.includes]; by rewrite E.
    + rewrite app_cons. cbn [JS.includes]. rewrite IH. apply orb_true_r.
Qed.

Lemma includes_middle (a n b : string) : JS.includes (a +:+ n +:+ b) n = true.
Proof. apply includes_spec. by exists a, b. Qed.

Lemma includes_self (s : string) : JS.includes s s = true.
Proof. apply includes_spec. exists "", "". by rewrite app_empty_l, app_empty_r. Qed.

Lemma includes_empty (s : string) : JS.includes s "" = true.
Proof. apply includes_spec. by exists "", s. Qed.

Lemma remove_first_leading (c : ascii) (s : string) :
  JS.remove_first c (String c s) = s.
Proof. simpl. by rewrite Ascii.eqb_refl. Qed.

End StringFacts.

(** ** The JavaScript library functions, run *)

Section LibraryChecks.

Example toISOString_epoch : Date.toISOString 0 = "1970-01-01T00:00:00.000Z".
Proof. vm_compute. reflexivity. Qed.

Example toISOString_2023 :
  Date.toISOString 1700000000123 = "2023-11-14T22:13:20.123Z".
Proof. vm_compute. reflexivity. Qed.

Example toISOString_leap_day :
  Date.toISOString 1709251199999 = "2024-02-29T23:59:59.999Z".
Proof. vm_compute. reflexivity. Qed.

Example toISOString_before_epoch :
  Date.toISOString (-1) = "1969-12-31T23:59:59.999Z".
Proof. vm_compute. reflexivity. Qed.

Example timestamp_in_file_name :
  JS.dash_colons_and_dots (Date.toISOString 1700000000123)
  = "2023-11-14T22-13-20-123Z".
Proof. vm_compute. reflexivity. Qed.

Example toFixed_pads : Num.toFixed 2 200 = Some "200.00".
Proof. vm_compute. reflexivity. Qed.

Example toFixed_ties_up : Num.toFixed 2 0.125 = Some "0.13".
Proof. vm_compute. reflexivity. Qed.

Example toFixed_negative_zero : Num.toFixed 2 (-0) = Some "0.00".
Proof. vm_compute. reflexivity. Qed.

Example toFixed_nan : Num.toFixed 2 nan = Some "NaN".
Proof. vm_compute. reflexivity. Qed.

Example round_half_up : Num.Math_round 2.5 = 3%float.
Proof. vm_compute. reflexivity. Qed.

Example round_negative_half : Num.Math_round (-2.5) = (-2)%float.
Proof. vm_compute. reflexivity. Qed.

Example round_to_negative_zero : Num.Math_round (-0.25) = (-0)%float.
Proof. vm_compute. reflexivity. Qed.

Example round_third : Num.Math_round (1000 / 3) = 333%float.
Proof. vm_compute. reflexivity. Qed.

Example or_absent : Num.or nan 0 = 0%float.
Proof. vm_compute. reflexivity. Qed.

Example lower_case_kind : JS.toLowerCase "PostgreSQL" = "postgresql".
Proof. vm_compute. reflexivity. Qed.

Example replace_first_slash_only : JS.remove_first "/" "/a/b" = "a/b".
Proof. vm_compute. reflexivity. Qed.

(** [path.join] normalizes: the default backup root [./backups] loses its
    leading dot segment. *)
Example join_normalizes :
  Posix.join ["./backups"; "shop"] = "backups/shop"
  ∧ Posix.join [Posix.join ["./backups"; "shop"]; "d1.sql.gz"] = "backups/shop/d1.sql.gz"
  ∧ Posix.join ["./backups"; "shop"; "d1.sql.gz"] = "backups/shop/d1.sql.gz"
  ∧ Posix.join ["/var/backups/"; "shop"] = "/var/backups/shop"
  ∧ Posix.join [""; ""] = ".".
Proof. vm_compute. by repeat split. Qed.

(** A segment that is not plain does not name an entry of the directory it
    is joined to: [..] climbs out of it. *)
Example join_resolves_dots :
  Posix.join ["./backups"; "shop"; "../blog/b5.sql.gz"] = "backups/blog/b5.sql.gz"
  ∧ Posix.join ["./backups"; ".."] = "."
  ∧ Posix.plain "../blog/b5.sql.gz" = false
  ∧ Posix.plain ".." = false
  ∧ Posix.plain "shop" = true.
Proof. vm_compute. by repeat split. Qed.

Example unlink_message :
  BackupService.message
    (BackupService.FilesystemFailure BackupService.ENOENT "unlink" "backups/shop/d9.sql.gz")
  = "ENOENT: no such file or directory, unlink 'backups/shop/d9.sql.gz'".
Proof. vm_compute. reflexivity. Qed.

(** 2023-11-14T22:13:20Z is 17:13:20 on the 14th in US Eastern time; the
    same wall-clock time thirty calendar days earlier, on 2023-10-15, is
    daylight saving time: thirty days and one hour before.  On UTC it is
    thirty days before. *)
Example cutoff_across_dst :
  Date.getDate Sample.eastern Sample.start = 14%Z
  ∧ Date.setDate Sample.eastern Sample.start (14 - 30)
    = Some (Sample.start - 30 * Date.msPerDay - 3600000)%Z
  ∧ Date.setDate Date.utc Sample.start (14 - 30)
    = Some (Sample.start - 30 * Date.msPerDay)%Z.
Proof. vm_compute. by repeat split. Qed.

(** 200,000,000 days from now is outside the range of [Date]. *)
Example cutoff_out_of_range :
  Date.setDate Date.utc Sample.start (14 - -200000000) = None.
Proof. vm_compute. reflexivity. Qed.

End LibraryChecks.

(** ** Container attribution *)

Section Attribution.

Import DockerMonitor.

Lemma fragment_matches_spec (clean : string) (app : Application.t) :
  fragment_matches clean app = true ↔
  ∃ c, c ∈ Application.containers app
       ∧ (Spec.substring c clean ∨ Spec.substring clean c).
Proof.
  unfold fragment_matches. rewrite existsb_exists. split.
  - intros (c & Hin & H). exists c. split; [by apply list_elem_of_In|].
    apply orb_true_iff in H as [H|H]; [left|right]; by apply includes_spec.
  - intros (c & Hin & H). exists c. split; [by apply list_elem_of_In|].
    apply orb_true_iff. destruct H as [H|H]; [left|right]; by apply includes_spec.
Qed.

Lemma database_matches_spec (clean : string) (app : Application.t) :
  database_matches clean app = true ↔
  ∃ db, Application.database app = Some db
        ∧ Spec.substring (Database.container db) clean.
Proof.
  unfold database_matches. destruct (Application.database app) as [db|].
  - rewrite includes_spec. split.
    + intros H. by exists db.
    + by intros (? & [= <-] & H).
  - split; [done|]. by intros (? & ? & _).
Qed.

Lemma owns_dec (app : Application.t) (clean : string) :
  Spec.owns app clean ↔
  fragment_matches clean app || database_matches clean app = true.
Proof.
  unfold Spec.owns.
  by rewrite orb_true_iff, fragment_matches_spec, database_matches_spec.
Qed.

Lemma findApplicationIn_first (pre post : list Application.t)
    (app : Application.t) (clean : string) :
  (∀ a, a ∈ pre → ¬ Spec.owns a clean) →
  Spec.owns app clean →
  findApplicationIn (pre ++ app :: post) clean = Some (Application.name app).
Proof.
  intros Hpre Happ. induction pre as [|a pre IH]; simpl.
  - apply owns_dec, orb_true_iff in Happ as [->|H]; [done|].
    rewrite H. by destruct (fragment_matches clean app).
  - assert (Ha : ¬ Spec.owns a clean) by (apply Hpre; left).
    rewrite owns_dec in Ha. apply not_true_is_false, orb_false_iff in Ha as [-> ->].
    apply IH. intros b Hb. apply Hpre. by right.
Qed.

Lemma findApplicationIn_none (apps : list Application.t) (clean : string) :
  (∀ a, a ∈ apps → ¬ Spec.owns a clean) →
  findApplicationIn apps clean = None.
Proof.
  induction apps as [|a apps IH]; intros H; [done|]. simpl.
  assert (Ha : ¬ Spec.owns a clean) by (apply H; left).
  rewrite owns_dec in Ha. apply not_true_is_false, orb_false_iff in Ha as [-> ->].
  apply IH. intros b Hb. apply H. by right.
Qed.

Lemma string_or_nonempty (s d : string) : s ≠ "" → JS.string_or (Some s) d = s.
Proof.
  intros H. unfold JS.string_or, JS.truthy_string.
  destruct (String.eqb_spec s ""); [done|done].
Qed.

(** C5.  The name a container is attributed by is its raw name without the
    leading slash.  The application found for it is the first one of the
    roster, in declaration order, that owns the name: one of its fragments is
    a substring of the name or the name is a substring of the fragment, or its
    database container name is a substring of the name.  The container record
    carries that application's name (application names being non-empty), and
    carries "unknown" when no application of the roster owns the name. *)
Theorem attribution_first_match (cfg : Config.t) (raw : string) :
  (∀ name, raw = String "/" name → cleanName raw = name)
  ∧ (∀ pre app post,
       Config.applications cfg = pre ++ app :: post →
       (∀ a, a ∈ pre → ¬ Spec.owns a (cleanName raw)) →
       Spec.owns app (cleanName raw) →
       findApplicationForContainer cfg raw = Some (Application.name app)
       ∧ (Application.name app ≠ "" →
          application cfg raw = Application.name app))
  ∧ ((∀ a, a ∈ Config.applications cfg → ¬ Spec.owns a (cleanName raw)) →
     findApplicationForContainer cfg raw = None
     ∧ application cfg raw = "unknown").
Proof.
  split; [|split].
  - intros name ->. apply remove_first_leading.
  - intros pre app post Hroster Hpre Happ.
    assert (E : findApplicationForContainer cfg raw = Some (Application.name app)).
    { unfold findApplicationForContainer. rewrite Hroster.
      by apply findApplicationIn_first. }
    split; [done|]. intros Hname. unfold application. rewrite E.
    by apply string_or_nonempty.
  - intros Hnone.
    assert (E : findApplicationForContainer cfg raw = None).
    { unfold findApplicationForContainer. by apply findApplicationIn_none. }
    split; [done|]. unfold application. by rewrite E.
Qed.

(** [attribution_first_match] on the sample roster: "/web" is claimed both
    by [shop] (the name is a substring of its fragment "shop-web") and by
    [blog] (fragment "web"); the first-declared [shop] wins.  "/redis" is
    claimed by nobody. *)
Lemma attribution_first_match_witness :
  application Sample.cfg "/web" = "shop"
  ∧ application Sample.cfg "/redis" = "unknown".
Proof.
  split.
  - destruct (attribution_first_match Sample.cfg "/web") as (_ & Hfirst & _).
    refine (proj2 (Hfirst [] Sample.shop [Sample.blog; Sample.wiki; Sample.docs]
                     eq_refl _ _) _).
    + intros a Ha. inversion Ha.
    + apply owns_dec. reflexivity.
    + discriminate.
  - destruct (attribution_first_match Sample.cfg "/redis") as (_ & _ & Hnone).
    refine (proj2 (Hnone _)).
    intros a Ha. rewrite owns_dec.
    repeat (apply elem_of_cons in Ha as [->|Ha]); [done..|inversion Ha].
Defined.

End Attribution.

(** ** Container statistics *)

Section Statistics.

Import DockerMonitor.

Lemma SFcompare_zero_l (y : spec_float) :
  SFcompare (S754_zero false) y =
  match y with
  | S754_zero _ => Some Eq
  | S754_infinity s | S754_finite s _ _ => Some (if s then Gt else Lt)
  | S754_nan => None
  end.
Proof. by destruct y as [| [] | | [] ? ?]. Qed.

Lemma SFcompare_zero_r (y : spec_float) :
  SFcompare y (S754_zero false) =
  match y with
  | S754_zero _ => Some Eq
  | S754_infinity s | S754_finite s _ _ => Some (if s then Lt else Gt)
  | S754_nan => None
  end.
Proof. by destruct y as [| [] | | [] ? ?]. Qed.

Lemma Prim2SF_zero : Prim2SF 0 = S754_zero false.
Proof. reflexivity. Qed.

(** A number that is at most zero is not above zero. *)
Lemma not_positive (x : float) : (x <=? 0)%float = true → (0 <? x)%float = false.
Proof.
  rewrite FloatAxioms.leb_spec, FloatAxioms.ltb_spec, Prim2SF_zero. unfold SFleb, SFltb.
  rewrite SFcompare_zero_l, SFcompare_zero_r.
  by destruct (Prim2SF x) as [| [] | | [] ? ?].
Qed.

Lemma SFcompare_finite_refl (s : bool) (m : positive) (e : Z) :
  SFcompare (S754_finite s m e) (S754_finite s m e) = Some Eq.
Proof.
  destruct s; simpl; rewrite Z.compare_refl;
    change (PosDef.Pos.compare_cont Eq m m) with (Pos.compare m m);
    by rewrite Pos.compare_refl.
Qed.

(** A number above zero is truthy. *)
Lemma positive_truthy (x : float) : (0 <? x)%float = true → Num.truthy x = true.
Proof.
  unfold Num.truthy, is_nan.
  rewrite FloatAxioms.ltb_spec, !FloatAxioms.eqb_spec, Prim2SF_zero. unfold SFltb, SFeqb.
  rewrite SFcompare_zero_l, SFcompare_zero_r.
  destruct (Prim2SF x) as [| [] | | [] m e] eqn:E; try done.
  by rewrite SFcompare_finite_refl.
Qed.

Lemma or_positive (x d : float) : (0 <? x)%float = true → Num.or x d = x.
Proof. intros H. unfold Num.or. by rewrite positive_truthy. Qed.

Lemma or_zero_not_positive (x : float) :
  (0 <? x)%float = false → (0 <? Num.or x 0)%float = false.
Proof. intros H. unfold Num.or. by destruct (Num.truthy x). Qed.

(** C7.  When the system-usage delta is positive, cpuPercent is the CPU
    delta divided by the system delta, times the online CPU count, times
    100; the sample 200/100/1200/1000 with 4 CPUs gives 200, rendered
    "200.00".  When the system delta is zero or negative the result is
    exactly 0: not negative, not NaN, rendered "0.00".  memoryPercent is
    usage over limit times 100 when the limit is positive, and 0 otherwise. *)
Theorem percentages (st : Stats) :
  ((0 <? system_cpu_usage st - presystem_cpu_usage st)%float = true →
   cpuPercent st =
     ((cpu_total_usage st - precpu_total_usage st)
      / (system_cpu_usage st - presystem_cpu_usage st)
      * online_cpus st * 100)%float)
  ∧ (∀ mu ml,
       let sample := {| cpu_total_usage := 200; precpu_total_usage := 100;
                        system_cpu_usage := 1200; presystem_cpu_usage := 1000;
                        online_cpus := 4; memory_usage := mu; memory_limit := ml |} in
       cpuPercent sample = 200%float
       ∧ r_cpuPercent (render sample) = Some "200.00")
  ∧ ((system_cpu_usage st - presystem_cpu_usage st <=? 0)%float = true →
     cpuPercent st = 0%float
     ∧ (cpuPercent st <? 0)%float = false
     ∧ is_nan (cpuPercent st) = false
     ∧ r_cpuPercent (render st) = Some "0.00")
  ∧ ((0 <? memory_limit st)%float = true →
     memoryPercent st = (memoryUsage st / memory_limit st * 100)%float
     ∧ (Num.truthy (memory_usage st) = true →
        memoryPercent st = (memory_usage st / memory_limit st * 100)%float))
  ∧ ((0 <? memory_limit st)%float = false → memoryPercent st = 0%float).
Proof.
  split; [|split; [|split; [|split]]].
  - intros H. unfold cpuPercent, systemDelta, cpuDelta. by rewrite H.
  - intros mu ml sample. split; vm_compute; reflexivity.
  - intros H. apply not_positive in H.
    assert (E : cpuPercent st = 0%float).
    { unfold cpuPercent, systemDelta. by rewrite H. }
    unfold render. cbn [r_cpuPercent]. rewrite E. by repeat split.
  - intros H.
    assert (E : memoryPercent st = (memoryUsage st / memory_limit st * 100)%float).
    { unfold memoryPercent, memoryLimit. rewrite (or_positive _ _ H). by rewrite H. }
    split; [done|]. intros Hu. rewrite E. unfold memoryUsage, Num.or. by rewrite Hu.
  - intros H. unfold memoryPercent, memoryLimit.
    by rewrite (or_zero_not_positive _ H).
Qed.

(** The clauses of [percentages] at concrete samples: a busy container, and
    one whose system counter went backwards. *)
Lemma percentages_witness :
  cpuPercent {| cpu_total_usage := 200; precpu_total_usage := 100;
                system_cpu_usage := 1200; presystem_cpu_usage := 1000;
                online_cpus := 4; memory_usage := 512; memory_limit := 2048 |}
  = (100 / 200 * 4 * 100)%float
  ∧ memoryPercent {| cpu_total_usage := 200; precpu_total_usage := 100;
                     system_cpu_usage := 1200; presystem_cpu_usage := 1000;
                     online_cpus := 4; memory_usage := 512; memory_limit := 2048 |}
    = 25%float
  ∧ r_cpuPercent (render {| cpu_total_usage := 50; precpu_total_usage := 100;
                            system_cpu_usage := 900; presystem_cpu_usage := 1000;
                            online_cpus := 4; memory_usage := 512; memory_limit := 0 |})
    = Some "0.00"
  ∧ memoryPercent {| cpu_total_usage := 50; precpu_total_usage := 100;
                     system_cpu_usage := 900; presystem_cpu_usage := 1000;
                     online_cpus := 4; memory_usage := 512; memory_limit := 0 |}
    = 0%float.
Proof.
  destruct (percentages
              {| cpu_total_usage := 200; precpu_total_usage := 100;
                 system_cpu_usage := 1200; presystem_cpu_usage := 1000;
                 online_cpus := 4; memory_usage := 512; memory_limit := 2048 |})
    as (Hcpu & _ & _ & Hmem & _).
  destruct (percentages
              {| cpu_total_usage := 50; precpu_total_usage := 100;
                 system_cpu_usage := 900; presystem_cpu_usage := 1000;
                 online_cpus := 4; memory_usage := 512; memory_limit := 0 |})
    as (_ & _ & Hclamp & _ & Hzero).
  split; [|split; [|split]].
  - exact (Hcpu eq_refl).
  - exact (proj2 (Hmem eq_refl) eq_refl).
  - exact (proj2 (proj2 (proj2 (Hclamp eq_refl)))).
  - exact (Hzero eq_refl).
Defined.

End Statistics.

(** ** Network rates *)

Section Rates.

Import NetworkMonitor.

Variable clock : nat → float.

Lemma observe_cached (s : State) (i : Iface) (n : string) :
  Spec.cached (observe clock s i).2 n =
  if String.eqb (iface i) n
  then Some {| prev_rx_bytes := rx_bytes i; prev_tx_bytes := tx_bytes i;
               timestamp := clock (rates clock s i).2 |}
  else Spec.cached s n.
Proof.
  unfold observe. destruct (rates clock s i) as [[rx tx] k]. cbn [snd].
  unfold Spec.cached, lookup, store.
  destruct (String.eqb_spec (iface i) n) as [<-|Hne];
    destruct (String.eqb_spec (iface i) "__proto__") as [Ei|Ei];
    cbn [previousStats prototype].
  - done.
  - by rewrite lookup_insert_eq.
  - destruct (String.eqb_spec n "__proto__") as [->|En]; [congruence|].
    destruct (previousStats s !! n); [done|]. by repeat case_match.
  - by rewrite lookup_insert_ne.
Qed.

Lemma observe_cache (s : State) (i : Iface) (n : string) :
  Spec.counters <$> Spec.cached (observe clock s i).2 n =
  if String.eqb (iface i) n then Some (rx_bytes i, tx_bytes i)
  else Spec.counters <$> Spec.cached s n.
Proof. rewrite observe_cached. by destruct (String.eqb (iface i) n). Qed.

(** After a poll the cache holds, for every interface the poll saw, the byte
    counters of its last sample; other entries keep theirs. *)
Lemma getNetworkStats_cache (l : list Iface) (s : State) (n : string) :
  Spec.counters <$> Spec.cached (getNetworkStats clock s l).2 n =
  match Spec.latest l n with
  | Some i => Some (rx_bytes i, tx_bytes i)
  | None => Spec.counters <$> Spec.cached s n
  end.
Proof.
  revert s. induction l as [|i l IH]; intros s; [done|].
  cbn [getNetworkStats Spec.latest].
  destruct (observe clock s i) as [r s1] eqn:E1.
  specialize (IH s1).
  destruct (getNetworkStats clock s1 l) as [rs s2]. cbn [snd] in *.
  rewrite IH. destruct (Spec.latest l n); [done|].
  replace s1 with (observe clock s i).2 by by rewrite E1.
  rewrite observe_cache. by destruct (String.eqb (iface i) n).
Qed.

(** A fresh monitor holds nothing under a name, unless [Object.prototype]
    has a member of that name. *)
Lemma fresh_lookup (n : string) :
  lookup init n = if bool_decide (n ∈ inherited_names) then Member else Missing.
Proof.
  unfold lookup, init. cbn [previousStats prototype]. rewrite lookup_empty.
  destruct (String.eqb_spec n "__proto__") as [->|]; [|done].
  by rewrite bool_decide_eq_true_2 by (unfold inherited_names; set_solver).
Qed.

(** C8 (amended).  The first observation of an interface, under whose name
    the cache object holds nothing, own or inherited, reports rx and tx
    rates of 0 and seeds the cache with the interface's byte counters and
    the time of the observation; on a fresh monitor that is every interface
    whose name is not the name of a member of [Object.prototype].  Every
    later observation reports, for each direction, the byte-counter
    difference to the cached sample divided by the elapsed seconds, rounded
    to the nearest integer, and replaces the cached sample.  After a poll the
    cache holds the counters of the last sample of every interface the poll
    saw. *)
Theorem rates_rounded (s : State) (i : Iface) :
  (lookup s (iface i) = Missing →
   rxSpeed (observe clock s i).1 = 0%float
   ∧ txSpeed (observe clock s i).1 = 0%float
   ∧ lookup (observe clock s i).2 (iface i) =
       Stored {| prev_rx_bytes := rx_bytes i; prev_tx_bytes := tx_bytes i;
                 timestamp := clock (reads s) |})
  ∧ (iface i ∉ inherited_names → lookup init (iface i) = Missing)
  ∧ (∀ p, lookup s (iface i) = Stored p →
     let elapsed := ((clock (reads s) - timestamp p) / 1000)%float in
     rxSpeed (observe clock s i).1 =
       Num.Math_round ((rx_bytes i - prev_rx_bytes p) / elapsed)
     ∧ txSpeed (observe clock s i).1 =
       Num.Math_round ((tx_bytes i - prev_tx_bytes p) / elapsed)
     ∧ lookup (observe clock s i).2 (iface i) =
         Stored {| prev_rx_bytes := rx_bytes i; prev_tx_bytes := tx_bytes i;
                   timestamp := clock (S (reads s)) |})
  ∧ (∀ l n j, Spec.latest l n = Some j →
     Spec.counters <$> Spec.cached (getNetworkStats clock s l).2 n =
       Some (rx_bytes j, tx_bytes j)).
Proof.
  assert (Hstored : ∀ e, Spec.cached (observe clock s i).2 (iface i) = Some e →
                         lookup (observe clock s i).2 (iface i) = Stored e).
  { unfold Spec.cached. intros e. by destruct (lookup _ _); intros [= ->]. }
  split; [|split; [|split]].
  - intros H. split; [|split].
    + unfold observe, rates. by rewrite H.
    + unfold observe, rates. by rewrite H.
    + apply Hstored. rewrite observe_cached, String.eqb_refl.
      unfold rates. by rewrite H.
  - intros Hout. rewrite fresh_lookup. by rewrite bool_decide_eq_false_2.
  - intros p H elapsed. split; [|split].
    + unfold observe, rates. by rewrite H.
    + unfold observe, rates. by rewrite H.
    + apply Hstored. rewrite observe_cached, String.eqb_refl.
      unfold rates. by rewrite H.
  - intros l n j H. by rewrite getNetworkStats_cache, H.
Qed.

End Rates.

Section RatesExamples.

Import NetworkMonitor.

(** [rates_rounded] on two consecutive polls of one interface: the first
    reports 0 and seeds the cache; the second, 1000 received bytes and two
    seconds later, reports an rxSpeed of 500. *)
Lemma rates_rounded_witness :
  let first := observe Sample.two_polls init (Sample.eth0 5000 700) in
  let second := observe Sample.two_polls first.2 (Sample.eth0 6000 700) in
  rxSpeed first.1 = 0%float
  ∧ lookup first.2 "eth0" =
      Stored {| prev_rx_bytes := 5000; prev_tx_bytes := 700; timestamp := 10000 |}
  ∧ rxSpeed second.1 = 500%float
  ∧ txSpeed second.1 = 0%float.
Proof.
  intros first second.
  destruct (rates_rounded Sample.two_polls init (Sample.eth0 5000 700))
    as (Hfirst & Hfresh & _ & _).
  assert (Hout : "eth0" ∉ inherited_names)
    by (apply (bool_decide_unpack _); vm_compute; exact I).
  destruct (Hfirst (Hfresh Hout)) as (Hrx & _ & Hcache).
  destruct (rates_rounded Sample.two_polls first.2 (Sample.eth0 6000 700))
    as (_ & _ & Hlater & _).
  destruct (Hlater _ Hcache) as (Hrx2 & Htx2 & _).
  split; [exact Hrx|]. split; [exact Hcache|]. split; [exact Hrx2|exact Htx2].
Defined.

(** C8 as stated fails: the reported rate is not the quotient itself.  With
    1000 bytes received over three seconds the quotient is 333.33... and the
    reported rxSpeed is 333. *)
Lemma rate_is_not_the_quotient :
  ¬ (∀ (clock : nat → float) (s : State) (i : Iface) (p : Prev),
       lookup s (iface i) = Stored p →
       rxSpeed (observe clock s i).1 =
         ((rx_bytes i - prev_rx_bytes p)
          / ((clock (reads s) - timestamp p) / 1000))%float).
Proof.
  intros H.
  specialize (H (fun _ => 3000%float)
                {| previousStats :=
                     {[ "eth0" := {| prev_rx_bytes := 0; prev_tx_bytes := 0;
                                     timestamp := 0 |} ]};
                   prototype := None;
                   reads := 0 |}
                (Sample.eth0 1000 0) _ eq_refl).
  apply (f_equal (fun x => PrimFloat.eqb x 333)) in H.
  vm_compute in H. discriminate.
Qed.

(** An interface that bears the name of a member of [Object.prototype] is
    not taken for new, not even by a fresh monitor: its rates are NaN on
    the first poll.  From the second poll on it is served like any other
    (1000 bytes in the two seconds between two clock reads give 500), also
    when its name is [__proto__] and its sample became the prototype of the
    cache object. *)
Example inherited_name_is_not_new :
  let clock n := Num.of_Z (2000 * Z.of_nat n) in
  let named n := {| iface := n; rx_bytes := 5000; tx_bytes := 700 |} in
  let first := observe clock init (named "constructor") in
  let again := observe clock first.2
                 {| iface := "constructor"; rx_bytes := 6000; tx_bytes := 700 |} in
  let proto := observe clock init (named "__proto__") in
  let later := observe clock proto.2
                 {| iface := "__proto__"; rx_bytes := 6000; tx_bytes := 700 |} in
  PrimFloat.is_nan (rxSpeed first.1) = true
  ∧ rxSpeed again.1 = 500%float
  ∧ PrimFloat.is_nan (rxSpeed proto.1) = true
  ∧ previousStats proto.2 = ∅
  ∧ rxSpeed later.1 = 500%float.
Proof. vm_compute. by repeat split. Qed.

End RatesExamples.

(** ** The scheduler *)

Section SchedulerFacts.

Import Scheduler.

Variable cfg : Config.t.
Variable validate : string → bool.

Lemma init_step_contributes (jobs : list Job) (app : Application.t) :
  init_step cfg validate jobs app = jobs ++ Spec.contributes validate app.
Proof.
  unfold init_step, Spec.contributes, Spec.cadence, scheduleBackup.
  destruct (Application.database app) as [db|]; [|by rewrite app_nil_r].
  destruct (Database.backupSchedule db) as [s|] eqn:E; [|by rewrite app_nil_r].
  cbn [JS.string_or]. destruct (JS.truthy_string s); [|by rewrite app_nil_r].
  destruct (validate s); [done|by rewrite app_nil_r].
Qed.

Lemma fold_init_step (apps : list Application.t) (jobs : list Job) :
  fold_left (init_step cfg validate) apps jobs = jobs ++ flat_map (Spec.contributes validate) apps.
Proof.
  revert jobs. induction apps as [|a apps IH]; intros jobs; simpl.
  - by rewrite app_nil_r.
  - by rewrite IH, init_step_contributes, <- app_assoc.
Qed.

Lemma init_contributes (jobs : list Job) :
  init cfg validate jobs = jobs ++ flat_map (Spec.contributes validate) (Config.applications cfg).
Proof. apply fold_init_step. Qed.

Lemma contributes_named (app : Application.t) (j : Job) :
  j ∈ Spec.contributes validate app →
  application j = Application.name app ∧ is_Some (Application.database app).
Proof.
  unfold Spec.contributes, Spec.cadence.
  destruct (Application.database app) as [db|]; [|by intros ?%elem_of_nil].
  destruct (Database.backupSchedule db) as [s|]; [|by intros ?%elem_of_nil].
  destruct (JS.truthy_string s); [|by intros ?%elem_of_nil].
  destruct (validate s); [|by intros ?%elem_of_nil].
  intros ->%list_elem_of_singleton. by split.
Qed.

Lemma filter_contributes_other (a : Application.t) (n : string) :
  Application.name a ≠ n →
  filter (λ j, application j = n) (Spec.contributes validate a) = [].
Proof.
  intros Hne. unfold Spec.contributes.
  destruct (Spec.cadence a) as [s|]; [|done]. destruct (validate s); [|done].
  by rewrite filter_cons_False.
Qed.

Lemma filter_contributes_self (a : Application.t) :
  filter (λ j, application j = Application.name a) (Spec.contributes validate a) = Spec.contributes validate a.
Proof.
  unfold Spec.contributes.
  destruct (Spec.cadence a) as [s|]; [|done]. destruct (validate s); [|done].
  by rewrite filter_cons_True.
Qed.

Lemma no_jobs_for_other_names (apps : list Application.t) (n : string) :
  (∀ a, a ∈ apps → Application.name a ≠ n) →
  filter (λ j, application j = n) (flat_map (Spec.contributes validate) apps) = [].
Proof.
  induction apps as [|a apps IH]; intros H; [done|]. simpl.
  rewrite filter_app, IH by (intros b Hb; apply H; by right).
  rewrite filter_contributes_other; [done|]. apply H. by left.
Qed.

Lemma jobs_of_unique_name (apps : list Application.t) (app : Application.t) :
  NoDup (Application.name <$> apps) → app ∈ apps →
  filter (λ j, application j = Application.name app) (flat_map (Spec.contributes validate) apps)
  = Spec.contributes validate app.
Proof.
  induction apps as [|a apps IH]; intros Hnd Hin; [by apply elem_of_nil in Hin|].
  rewrite fmap_cons in Hnd. apply NoDup_cons in Hnd as [Hfresh Hnd].
  simpl. rewrite filter_app. apply elem_of_cons in Hin as [->|Hin].
  - rewrite filter_contributes_self, no_jobs_for_other_names; [by rewrite app_nil_r|].
    intros b Hb Heq. apply Hfresh. rewrite <- Heq. by apply list_elem_of_fmap_2.
  - rewrite filter_contributes_other, IH; [done..|].
    intros Heq. apply Hfresh. rewrite Heq. by apply list_elem_of_fmap_2.
Qed.

(** [init], run on an empty job table over a roster with
    unique names, creates exactly one job for every application whose
    database descriptor declares a cadence expression that passes validation,
    and that job carries the application's own cadence expression.  Every
    job it creates belongs to an application that carries a database
    descriptor: applications without one get no job. *)
Theorem init_schedules_declared_cadences :
  (∀ app db s,
     NoDup (Application.name <$> Config.applications cfg) →
     app ∈ Config.applications cfg →
     Application.database app = Some db →
     Database.backupSchedule db = Some s → s ≠ "" →
     validate s = true →
     filter (λ j, application j = Application.name app) (init cfg validate [])
     = [ {| application := Application.name app;
            type := "backup";
            schedule := s |} ])
  ∧ (∀ j, j ∈ init cfg validate [] →
     ∃ app db, app ∈ Config.applications cfg
               ∧ Application.database app = Some db
               ∧ application j = Application.name app).
Proof.
  split.
  - intros app db s Hnd Hin Hdb Hs Hne Hv.
    rewrite init_contributes, app_nil_l, jobs_of_unique_name by done.
    unfold Spec.contributes, Spec.cadence. rewrite Hdb, Hs.
    unfold JS.truthy_string. destruct (String.eqb_spec s ""); [done|].
    cbn. by rewrite Hv.
  - intros j Hj. rewrite init_contributes, app_nil_l in Hj.
    apply list_elem_of_In, in_flat_map in Hj as (app & Hin & Hj).
    apply list_elem_of_In in Hin, Hj.
    destruct (contributes_named _ _ Hj) as [Hname [db Hdb]].
    by exists app, db.
Qed.

End SchedulerFacts.

Section SchedulerExamples.

Import Scheduler.

(** The job table of the sample roster: only [shop] is scheduled. *)
Lemma sample_jobs :
  init Sample.cfg Sample.validate [] =
  [ {| application := "shop"; type := "backup"; schedule := "0 2 * * *" |} ].
Proof. reflexivity. Qed.

(** [init_schedules_declared_cadences] on the sample roster. *)
Lemma init_schedules_declared_cadences_witness :
  filter (λ j, application j = "shop") (init Sample.cfg Sample.validate [])
  = [ {| application := "shop"; type := "backup"; schedule := "0 2 * * *" |} ].
Proof.
  refine (proj1 (init_schedules_declared_cadences Sample.cfg Sample.validate)
            Sample.shop Sample.shop_db "0 2 * * *" _ _ eq_refl eq_refl _ eq_refl).
  - apply (bool_decide_unpack _). vm_compute. exact I.
  - by left.
  - discriminate.
Defined.

(** An application that carries a database descriptor does not always get a
    job.  In the sample roster [docs] declares a cadence that is not a valid
    expression and [blog] declares none; neither is scheduled. *)
Lemma database_without_job :
  ¬ (∀ (cfg : Config.t) (validate : string → bool) app db,
       app ∈ Config.applications cfg →
       Application.database app = Some db →
       ∃ j, j ∈ init cfg validate []
            ∧ application j = Application.name app
            ∧ schedule j = JS.string_or (Database.backupSchedule db)
                                        (Config.defaultSchedule cfg)).
Proof.
  intros H.
  destruct (H Sample.cfg Sample.validate Sample.docs _
              ltac:(by do 3 right; left) eq_refl) as (j & Hj & Hname & _).
  rewrite sample_jobs in Hj. apply list_elem_of_singleton in Hj as ->.
  discriminate.
Qed.

(** The application that declares no cadence is not scheduled on the
    default cadence either. *)
Lemma omitted_cadence_without_job :
  ∀ j, j ∈ init Sample.cfg Sample.validate [] → application j ≠ "blog".
Proof.
  intros j Hj. rewrite sample_jobs in Hj.
  apply list_elem_of_singleton in Hj as ->. discriminate.
Qed.

(** C4.  [init] on a roster of one application whose postgresql database
    descriptor omits the cadence expression, with a process-wide default
    cadence.  Whatever cron.validate accepts, init leaves the job table
    empty: the application gets no job, on the default cadence or any
    other.  A call of scheduleBackup for that application, which init never
    makes, schedules it on the default cadence as soon as that cadence is
    valid. *)
Theorem init_ignores_default_cadence (validate : string → bool) :
  let db := {| Database.type := "postgresql"; Database.container := "ledger-db";
               Database.database := "ledger"; Database.username := "postgres";
               Database.password := "";
               Database.backupSchedule := None;
               Database.retentionDays := Some 7%Z |} in
  let app := {| Application.name := "ledger";
                Application.containers := ["ledger"];
                Application.database := Some db |} in
  let cfg := {| Config.applications := [app]; Config.dir := "./backups";
                Config.defaultSchedule := "0 2 * * *";
                Config.defaultRetentionDays := 7 |} in
  init cfg validate [] = []
  ∧ getJobs (init cfg validate []) = []
  ∧ (validate "0 2 * * *" = true →
     scheduleBackup cfg validate [] app db
     = [ {| application := "ledger"; type := "backup"; schedule := "0 2 * * *" |} ]).
Proof.
  intros db app cfg. split; [done|]. split; [done|].
  intros Hvalid. unfold scheduleBackup. cbn. by rewrite Hvalid.
Qed.

End SchedulerExamples.

(** ** The backup service: resolution, guards and command lines *)

Section ServiceFacts.

Import BackupService.

Variable cfg : Config.t.
Variable clock : nat → Z.
Variable exec : string → gmap string (gmap string FileStat)
                → ExecResult * gmap string (gmap string FileStat).

(** In a roster with unique names every application is the one its name
    resolves to. *)
Lemma find_in_roster (apps : list Application.t) (app : Application.t) :
  NoDup (Application.name <$> apps) → app ∈ apps →
  List.find (λ a, String.eqb (Application.name a) (Application.name app)) apps
  = Some app.
Proof.
  induction apps as [|a apps IH]; intros Hnd Hin; [by apply elem_of_nil in Hin|].
  rewrite fmap_cons in Hnd. apply NoDup_cons in Hnd as [Hfresh Hnd]. simpl.
  apply elem_of_cons in Hin as [->|Hin].
  - by rewrite String.eqb_refl.
  - destruct (String.eqb_spec (Application.name a) (Application.name app)) as [E|_].
    + exfalso. apply Hfresh. rewrite E. by apply list_elem_of_fmap_2.
    + by apply IH.
Qed.

Lemma find_application_in_roster (app : Application.t) :
  NoDup (Application.name <$> Config.applications cfg) →
  app ∈ Config.applications cfg →
  find_application cfg (Application.name app) = Some app.
Proof. apply find_in_roster. Qed.

Lemma createBackup_no_database (app : Application.t) (w : World) :
  NoDup (Application.name <$> Config.applications cfg) →
  app ∈ Config.applications cfg →
  Application.database app = None →
  createBackup cfg clock exec (Application.name app) w
  = (Throw (NoDatabaseConfigured (Application.name app)), w).
Proof.
  intros Hnd Hin Hdb. unfold createBackup.
  by rewrite (find_application_in_roster _ Hnd Hin), Hdb.
Qed.

(** C9.  For an application of the roster that has no database descriptor,
    createBackup fails with NoDatabaseConfigured and leaves the world as it
    found it: no directory is created, no artifact is written, no process is
    started. *)
Theorem createBackup_without_database (app : Application.t) (w : World) :
  NoDup (Application.name <$> Config.applications cfg) →
  app ∈ Config.applications cfg →
  Application.database app = None →
  createBackup cfg clock exec (Application.name app) w
  = (Throw (NoDatabaseConfigured (Application.name app)), w).
Proof.
  intros Hnd Hin Hdb. unfold createBackup.
  rewrite (find_application_in_roster _ Hnd Hin).
  rewrite Hdb. reflexivity.
Qed.

Lemma restoreBackup_no_database
    (app : Application.t) (filename : string) (w : World) :
  NoDup (Application.name <$> Config.applications cfg) →
  app ∈ Config.applications cfg →
  Application.database app = None →
  restoreBackup cfg clock exec (Application.name app) filename w =
  match lookup_file (fs w) (Application.name app) filename with
  | Some _ =>
      (Throw (TypeError "Cannot read properties of undefined (reading 'type')"), w)
  | None =>
      (Throw (FilesystemFailure ENOENT "access"
                (Posix.join [Config.dir cfg; Application.name app; filename])), w)
  end.
Proof.
  intros Hnd Hin Hdb. unfold restoreBackup.
  rewrite (find_application_in_roster _ Hnd Hin), Hdb.
  unfold bind, fs_access.
  by destruct (lookup_file (fs w) (Application.name app) filename).
Qed.

(** C10.  For an application of the roster that has no database descriptor,
    restoreBackup fails whatever the state of the backup tree, without
    handing any command to the process executor and without changing the
    tree, and never with NoDatabaseConfigured.  When the named artifact
    exists the failure is the TypeError raised by reading the engine kind of
    the absent descriptor; createBackup on the same application fails with
    NoDatabaseConfigured instead. *)
Theorem restoreBackup_without_database
    (app : Application.t) (filename : string) (w : World) :
  NoDup (Application.name <$> Config.applications cfg) →
  app ∈ Config.applications cfg →
  Application.database app = None →
  (∃ e, restoreBackup cfg clock exec (Application.name app) filename w = (Throw e, w)
        ∧ ∀ a, e ≠ NoDatabaseConfigured a)
  ∧ (is_Some (lookup_file (fs w) (Application.name app) filename) →
     restoreBackup cfg clock exec (Application.name app) filename w
     = (Throw (TypeError "Cannot read properties of undefined (reading 'type')"), w))
  ∧ createBackup cfg clock exec (Application.name app) w
    = (Throw (NoDatabaseConfigured (Application.name app)), w).
Proof.
  intros Hnd Hin Hdb. rewrite (restoreBackup_no_database _ _ _ Hnd Hin Hdb).
  split; [|split].
  - destruct (lookup_file (fs w) (Application.name app) filename);
      eexists; (split; [reflexivity|done]).
  - by intros [st ->].
  - by apply createBackup_no_database.
Qed.

(** *** Command lines *)

Ltac between a b :=
  apply includes_spec; exists a, b;
  rewrite ?string_app_assoc, ?app_empty_r; reflexivity.

Lemma postgresql_backup_command (db : Database.t) (f : string) :
  let cmd := getPostgreSQLBackupCommand db f in
  JS.includes cmd "pg_dump" = true
  ∧ JS.includes cmd (Database.container db) = true
  ∧ JS.includes cmd (Database.database db) = true
  ∧ JS.includes cmd (Database.username db) = true.
Proof.
  unfold getPostgreSQLBackupCommand. repeat split.
  - between ("docker exec " +:+ Database.container db +:+ " ")
            (" -U " +:+ Database.username db +:+ " " +:+ Database.database db
             +:+ " | gzip > " +:+ f).
  - between "docker exec "
            (" pg_dump -U " +:+ Database.username db +:+ " " +:+ Database.database db
             +:+ " | gzip > " +:+ f).
  - between ("docker exec " +:+ Database.container db +:+ " pg_dump -U "
             +:+ Database.username db +:+ " ")
            (" | gzip > " +:+ f).
  - between ("docker exec " +:+ Database.container db +:+ " pg_dump -U ")
            (" " +:+ Database.database db +:+ " | gzip > " +:+ f).
Qed.

Lemma mysql_backup_command (db : Database.t) (f : string) :
  let cmd := getMySQLBackupCommand db f in
  JS.includes cmd "mysqldump" = true
  ∧ JS.includes cmd (Database.container db) = true
  ∧ JS.includes cmd (Database.database db) = true.
Proof.
  unfold getMySQLBackupCommand. repeat split.
  - between ("docker exec " +:+ Database.container db +:+ " ")
            (" -u " +:+ Database.username db +:+ " -p" +:+ Database.password db
             +:+ " " +:+ Database.database db +:+ " | gzip > " +:+ f).
  - between "docker exec "
            (" mysqldump -u " +:+ Database.username db +:+ " -p"
             +:+ Database.password db +:+ " " +:+ Database.database db
             +:+ " | gzip > " +:+ f).
  - between ("docker exec " +:+ Database.container db +:+ " mysqldump -u "
             +:+ Database.username db +:+ " -p" +:+ Database.password db +:+ " ")
            (" | gzip > " +:+ f).
Qed.

Lemma mongodb_backup_command (db : Database.t) (f : string) :
  let cmd := getMongoDBBackupCommand db f in
  JS.includes cmd "mongodump" = true
  ∧ JS.includes cmd (Database.container db) = true
  ∧ JS.includes cmd (Database.database db) = true.
Proof.
  unfold getMongoDBBackupCommand. repeat split.
  - between ("docker exec " +:+ Database.container db +:+ " ")
            (" --db " +:+ Database.database db +:+ " --archive | gzip > " +:+ f).
  - between "docker exec "
            (" mongodump --db " +:+ Database.database db
             +:+ " --archive | gzip > " +:+ f).
  - between ("docker exec " +:+ Database.container db +:+ " mongodump --db ")
            (" --archive | gzip > " +:+ f).
Qed.

Lemma postgresql_restore_command (db : Database.t) (f : string) (cmd : string) :
  JS.toLowerCase (Database.type db) = "postgresql" →
  restore_plan db f = Ok cmd →
  JS.includes cmd "psql" = true
  ∧ JS.includes cmd (Database.container db) = true
  ∧ JS.includes cmd (Database.database db) = true
  ∧ JS.includes cmd (Database.username db) = true.
Proof.
  unfold restore_plan. intros ->. cbn. intros [= <-]. repeat split.
  - between ("gunzip < " +:+ f +:+ " | docker exec -i " +:+ Database.container db +:+ " ")
            (" -U " +:+ Database.username db +:+ " " +:+ Database.database db).
  - between ("gunzip < " +:+ f +:+ " | docker exec -i ")
            (" psql -U " +:+ Database.username db +:+ " " +:+ Database.database db).
  - between ("gunzip < " +:+ f +:+ " | docker exec -i " +:+ Database.container db
             +:+ " psql -U " +:+ Database.username db +:+ " ") "".
  - between ("gunzip < " +:+ f +:+ " | docker exec -i " +:+ Database.container db
             +:+ " psql -U ") (" " +:+ Database.database db).
Qed.

Lemma mysql_restore_command (db : Database.t) (f : string) (cmd : string) :
  JS.toLowerCase (Database.type db) = "mysql" →
  restore_plan db f = Ok cmd →
  JS.includes cmd "mysql" = true
  ∧ JS.includes cmd (Database.container db) = true
  ∧ JS.includes cmd (Database.database db) = true.
Proof.
  unfold restore_plan. intros ->. cbn. intros [= <-]. repeat split.
  - between ("gunzip < " +:+ f +:+ " | docker exec -i " +:+ Database.container db +:+ " ")
            (" -u " +:+ Database.username db +:+ " -p" +:+ Database.password db
             +:+ " " +:+ Database.database db).
  - between ("gunzip < " +:+ f +:+ " | docker exec -i ")
            (" mysql -u " +:+ Database.username db +:+ " -p" +:+ Database.password db
             +:+ " " +:+ Database.database db).
  - between ("gunzip < " +:+ f +:+ " | docker exec -i " +:+ Database.container db
             +:+ " mysql -u " +:+ Database.username db +:+ " -p"
             +:+ Database.password db +:+ " ") "".
Qed.

Lemma mongodb_restore_command (db : Database.t) (f : string) (cmd : string) :
  JS.toLowerCase (Database.type db) = "mongodb" →
  restore_plan db f = Ok cmd →
  JS.includes cmd "mongorestore" = true
  ∧ JS.includes cmd (Database.container db) = true
  ∧ JS.includes cmd (Database.database db) = true.
Proof.
  unfold restore_plan. intros ->. cbn. intros [= <-]. repeat split.
  - between ("gunzip < " +:+ f +:+ " | docker exec -i " +:+ Database.container db +:+ " ")
            (" --archive --db " +:+ Database.database db).
  - between ("gunzip < " +:+ f +:+ " | docker exec -i ")
            (" mongorestore --archive --db " +:+ Database.database db).
  - between ("gunzip < " +:+ f +:+ " | docker exec -i " +:+ Database.container db
             +:+ " mongorestore --archive --db ") "".
Qed.

Lemma supported_cases (db : Database.t) :
  Spec.supported db →
  JS.toLowerCase (Database.type db) = "postgresql"
  ∨ JS.toLowerCase (Database.type db) = "mysql"
  ∨ JS.toLowerCase (Database.type db) = "mongodb".
Proof.
  unfold Spec.supported. rewrite !elem_of_cons, elem_of_nil. tauto.
Qed.

Lemma unsupported_plans (db : Database.t) (appName ts path : string) :
  ¬ Spec.supported db →
  backup_plan cfg appName db ts = Throw (UnsupportedEngineKind (Database.type db))
  ∧ restore_plan db path = Throw (UnsupportedEngineKind (Database.type db)).
Proof.
  unfold Spec.supported, backup_plan, restore_plan. intros H.
  rewrite !elem_of_cons, elem_of_nil in H.
  destruct (String.eqb_spec (JS.toLowerCase (Database.type db)) "postgresql") as [E|_];
    [tauto|].
  destruct (String.eqb_spec (JS.toLowerCase (Database.type db)) "mysql") as [E|_];
    [tauto|].
  destruct (String.eqb_spec (JS.toLowerCase (Database.type db)) "mongodb") as [E|_];
    [tauto|].
  done.
Qed.

(** The commands of a supported engine kind. *)
Lemma supported_plans (db : Database.t) (appName ts path : string) :
  Spec.supported db →
  ∃ file backupCommand restoreCommand,
    backup_plan cfg appName db ts = Ok (Artifact appName file, backupCommand)
    ∧ restore_plan db path = Ok restoreCommand
    ∧ JS.includes backupCommand (Spec.tools (JS.toLowerCase (Database.type db))).1 = true
    ∧ JS.includes backupCommand (Database.container db) = true
    ∧ JS.includes backupCommand (Database.database db) = true
    ∧ JS.includes restoreCommand (Spec.tools (JS.toLowerCase (Database.type db))).2 = true
    ∧ JS.includes restoreCommand (Database.container db) = true
    ∧ JS.includes restoreCommand (Database.database db) = true.
Proof.
  intros [E|[E|E]]%supported_cases.
  - destruct (postgresql_backup_command db
                (path_string cfg (Artifact appName ("backup-" +:+ ts +:+ ".sql.gz"))))
      as (? & ? & ? & _).
    assert (R : ∃ c, restore_plan db path = Ok c)
      by (unfold restore_plan; rewrite E; by eexists).
    destruct R as [c R]. destruct (postgresql_restore_command db path c E R) as (? & ? & ? & _).
    exists ("backup-" +:+ ts +:+ ".sql.gz"),
      (getPostgreSQLBackupCommand db
         (path_string cfg (Artifact appName ("backup-" +:+ ts +:+ ".sql.gz")))), c.
    unfold backup_plan. rewrite E. cbn. by repeat split.
  - destruct (mysql_backup_command db
                (path_string cfg (Artifact appName ("backup-" +:+ ts +:+ ".sql.gz"))))
      as (? & ? & ?).
    assert (R : ∃ c, restore_plan db path = Ok c)
      by (unfold restore_plan; rewrite E; by eexists).
    destruct R as [c R]. destruct (mysql_restore_command db path c E R) as (? & ? & ?).
    exists ("backup-" +:+ ts +:+ ".sql.gz"),
      (getMySQLBackupCommand db
         (path_string cfg (Artifact appName ("backup-" +:+ ts +:+ ".sql.gz")))), c.
    unfold backup_plan. rewrite E. cbn. by repeat split.
  - destruct (mongodb_backup_command db
                (path_string cfg (Artifact appName ("backup-" +:+ ts +:+ ".archive.gz"))))
      as (? & ? & ?).
    assert (R : ∃ c, restore_plan db path = Ok c)
      by (unfold restore_plan; rewrite E; by eexists).
    destruct R as [c R]. destruct (mongodb_restore_command db path c E R) as (? & ? & ?).
    exists ("backup-" +:+ ts +:+ ".archive.gz"),
      (getMongoDBBackupCommand db
         (path_string cfg (Artifact appName ("backup-" +:+ ts +:+ ".archive.gz")))), c.
    unfold backup_plan. rewrite E. cbn. by repeat split.
Qed.

Lemma createBackup_unsupported (app : Application.t) (db : Database.t) (w : World) :
  NoDup (Application.name <$> Config.applications cfg) →
  app ∈ Config.applications cfg →
  Application.database app = Some db →
  ¬ Spec.supported db →
  createBackup cfg clock exec (Application.name app) w
  = (Throw (UnsupportedEngineKind (Database.type db)),
     {| fs := ensure_dir (Application.name app) (fs w);
        reads := S (reads w);
        started := started w; host := host w |}).
Proof.
  intros Hnd Hin Hdb Hun. unfold createBackup.
  rewrite (find_application_in_roster _ Hnd Hin), Hdb.
  unfold bind, new_Date, fs_mkdir, lift.
  by rewrite (proj1 (unsupported_plans db _ _ "" Hun)).
Qed.

Lemma restoreBackup_unsupported
    (app : Application.t) (db : Database.t) (filename : string) (w : World) :
  NoDup (Application.name <$> Config.applications cfg) →
  app ∈ Config.applications cfg →
  Application.database app = Some db →
  ¬ Spec.supported db →
  is_Some (lookup_file (fs w) (Application.name app) filename) →
  restoreBackup cfg clock exec (Application.name app) filename w
  = (Throw (UnsupportedEngineKind (Database.type db)), w).
Proof.
  intros Hnd Hin Hdb Hun [st Hst]. unfold restoreBackup.
  rewrite (find_application_in_roster _ Hnd Hin), Hdb.
  unfold bind, fs_access, bind, fs_stat, lift. rewrite Hst.
  by rewrite (proj2 (unsupported_plans db "" "" _ Hun)).
Qed.

(** C6.  For a supported engine kind the backup command and the restore
    command contain the engine's dump tool, respectively restore tool, the
    configured container name and the configured database name.  The
    postgresql commands contain the username and do not depend on the
    password.  For an unsupported engine kind createBackup and restoreBackup
    fail with UnsupportedEngineKind and no command reaches the process
    executor. *)
Theorem command_builder (db : Database.t) (appName ts path : string) :
  (Spec.supported db →
   ∃ file backupCommand restoreCommand,
     backup_plan cfg appName db ts = Ok (Artifact appName file, backupCommand)
     ∧ restore_plan db path = Ok restoreCommand
     ∧ JS.includes backupCommand (Spec.tools (JS.toLowerCase (Database.type db))).1 = true
     ∧ JS.includes backupCommand (Database.container db) = true
     ∧ JS.includes backupCommand (Database.database db) = true
     ∧ JS.includes restoreCommand (Spec.tools (JS.toLowerCase (Database.type db))).2 = true
     ∧ JS.includes restoreCommand (Database.container db) = true
     ∧ JS.includes restoreCommand (Database.database db) = true)
  ∧ (JS.toLowerCase (Database.type db) = "postgresql" →
     ∃ file backupCommand restoreCommand,
       backup_plan cfg appName db ts = Ok (Artifact appName file, backupCommand)
       ∧ restore_plan db path = Ok restoreCommand
       ∧ JS.includes backupCommand (Database.username db) = true
       ∧ JS.includes restoreCommand (Database.username db) = true
       ∧ ∀ pw,
           backup_plan cfg appName (Spec.with_password db pw) ts
           = Ok (Artifact appName file, backupCommand)
           ∧ restore_plan (Spec.with_password db pw) path = Ok restoreCommand)
  ∧ (¬ Spec.supported db →
     ∀ app w,
       NoDup (Application.name <$> Config.applications cfg) →
       app ∈ Config.applications cfg →
       Application.database app = Some db →
       (∃ w', createBackup cfg clock exec (Application.name app) w
              = (Throw (UnsupportedEngineKind (Database.type db)), w')
              ∧ started w' = started w)
       ∧ (is_Some (lookup_file (fs w) (Application.name app) path) →
          ∃ w', restoreBackup cfg clock exec (Application.name app) path w
                = (Throw (UnsupportedEngineKind (Database.type db)), w')
                ∧ started w' = started w)).
Proof.
  split; [|split].
  - apply supported_plans.
  - intros E.
    assert (R : ∃ c, restore_plan db path = Ok c)
      by (unfold restore_plan; rewrite E; by eexists).
    destruct R as [c R].
    destruct (postgresql_restore_command db path c E R) as (_ & _ & _ & Hu).
    destruct (postgresql_backup_command db
                (path_string cfg (Artifact appName ("backup-" +:+ ts +:+ ".sql.gz"))))
      as (_ & _ & _ & Hu').
    exists ("backup-" +:+ ts +:+ ".sql.gz"),
      (getPostgreSQLBackupCommand db
         (path_string cfg (Artifact appName ("backup-" +:+ ts +:+ ".sql.gz")))), c.
    split; [unfold backup_plan; by rewrite E|].
    split; [done|]. split; [done|]. split; [done|].
    intros pw. split.
    + unfold backup_plan. cbn [Spec.with_password Database.type]. by rewrite E.
    + rewrite <- R. unfold restore_plan. cbn [Spec.with_password Database.type].
      by rewrite E.
  - intros Hun app w Hnd Hin Hdb. split.
    + eexists. split; [by apply createBackup_unsupported|done].
    + intros Hfile. eexists. split; [by apply restoreBackup_unsupported|done].
Qed.

End ServiceFacts.

(** ** Calendar arithmetic *)

Section DateFacts.

(** Moving the day of the month back by [n] moves the local time back by
    [n] days of 24 hours; what that is in UTC is up to the zone. *)
Lemma setDate_getDate (zone : Date.Zone) (t n : Z) :
  Date.setDate zone t (Date.getDate zone t - n)
  = Date.TimeClip (Date.UTC zone (Date.LocalTime zone t - n * Date.msPerDay)).
Proof.
  unfold Date.setDate, Date.getDate. do 2 f_equal.
  generalize (Date.DateFromTime (Date.LocalTime zone t)). intros g.
  unfold Date.Day, Date.TimeWithinDay, Date.msPerDay.
  pose proof (Z.div_mod (Date.LocalTime zone t) 86400000 ltac:(lia)). lia.
Qed.

(** The cutoff [cleanupOldBackups] computes. *)
Lemma setDate_cutoff (zone : Date.Zone) (t n : Z) :
  Date.setDate zone t (Date.getDate zone t - n) = Spec.cutoff zone t n.
Proof. apply setDate_getDate. Qed.

(** In a zone that keeps one offset, calendar days last 24 hours. *)
Lemma cutoff_steady (zone : Date.Zone) (t n : Z) :
  Date.steady zone →
  (Z.abs (t - n * Date.msPerDay) <= Date.maxTime)%Z →
  Spec.cutoff zone t n = Some (t - n * Date.msPerDay)%Z.
Proof.
  intros [offset Hzone] Hrange.
  unfold Spec.cutoff, Date.UTC, Date.LocalTime.
  rewrite (proj1 (Hzone t)), (proj2 (Hzone _)).
  replace (t + offset - n * Date.msPerDay - offset)%Z
    with (t - n * Date.msPerDay)%Z by lia.
  unfold Date.TimeClip. by rewrite (proj2 (Z.leb_le _ _) Hrange).
Qed.


Lemma steady_fixed (offset : Z) : Date.steady (Date.fixed offset).
Proof. by exists offset. Qed.

Lemma plain_nonempty (s : string) : Posix.plain s = true → s ≠ "".
Proof. by intros H ->. Qed.

End DateFacts.

(** ** Listing and retention *)

Section RetentionFacts.

Import BackupService.

Variable cfg : Config.t.
Variable clock : nat → Z.

Lemma stat_all_entries (app : string) (d : gmap string FileStat)
    (l : list (string * FileStat)) (w : World) :
  fs w !! app = Some d →
  (∀ kv, kv ∈ l → d !! kv.1 = Some kv.2) →
  stat_all cfg app l.*1 w = (Ok (Spec.backup_of app <$> l), w).
Proof.
  intros Hd. induction l as [|[k v] l IH]; intros Hl; [done|].
  assert (Hk : d !! k = Some v) by (apply (Hl (k, v)); left).
  rewrite !fmap_cons. cbn [stat_all fst]. unfold bind at 1.
  unfold fs_stat, lookup_file. rewrite Hd, Hk. unfold bind at 1.
  rewrite IH by (intros kv Hkv; apply Hl; by right). done.
Qed.

Lemma insert_by_created_perm (b : Backup) (l : list Backup) :
  insert_by_created b l ≡ₚ b :: l.
Proof.
  induction l as [|c l IH]; [done|]. simpl.
  destruct (created c <=? created b)%Z; [done|].
  rewrite IH. apply Permutation_swap.
Qed.

Lemma sort_by_created_perm (l : list Backup) : sort_by_created l ≡ₚ l.
Proof.
  induction l as [|b l IH]; [done|].
  cbn [sort_by_created foldr]. rewrite insert_by_created_perm.
  by constructor.
Qed.

(** What [listBackups(appName)] resolves to for a non-empty name. *)
Lemma listBackups_app (app : string) (w : World) :
  app ≠ "" →
  listBackups cfg (Some app) w =
  (Ok (match fs w !! app with
       | Some d => sort_by_created (Spec.backup_of app <$> map_to_list d)
       | None => []
       end), w).
Proof.
  intros Hne. unfold listBackups, JS.truthy_string.
  destruct (String.eqb_spec app ""); [done|]. cbn [negb].
  unfold catch at 1, bind at 1, catch at 1, bind at 1.
  unfold fs_readdir at 1.
  destruct (fs w !! app) as [d|] eqn:Hd; [|done].
  rewrite (stat_all_entries app d (map_to_list d) w Hd); [done|].
  intros [k v] Hkv. by apply elem_of_map_to_list.
Qed.

Lemma lookup_remove_all (names : list string) (d : gmap string FileStat) (k : string) :
  Spec.remove_all names d !! k = if decide (k ∈ names) then None else d !! k.
Proof.
  revert d. induction names as [|f names IH]; intros d.
  - by rewrite decide_False by apply not_elem_of_nil.
  - unfold Spec.remove_all in *. cbn [fold_left]. rewrite IH.
    destruct (decide (k ∈ names)) as [Hin|Hout].
    + by rewrite decide_True by (by right).
    + destruct (decide (k = f)) as [->|Hne].
      * rewrite lookup_delete_eq. by rewrite decide_True by left.
      * rewrite lookup_delete_ne by done.
        rewrite decide_False; [done|]. by intros [?|?]%elem_of_cons.
Qed.

Lemma filter_fmap_length {A B} (f : A → B) (P : B → Prop) `{!∀ x, Decision (P x)}
    (l : list A) :
  length (filter P (f <$> l)) = length (filter (λ x, P (f x)) l).
Proof.
  induction l as [|x l IH]; [done|]. rewrite fmap_cons, !filter_cons.
  destruct (decide (P (f x))); simpl; by rewrite IH.
Qed.

Lemma fs_unlink_ok_inv (text a f : string) (w w1 : World) :
  fs_unlink_as text (Artifact a f) w = (Ok tt, w1) →
  unlink_refused (host w) a f = None ∧ host w1 = host w.
Proof.
  unfold fs_unlink_as, enoent, throw. intros E.
  repeat case_match; by simplify_eq.
Qed.

Lemma fs_unlink_throws (text : string) (p : Path) (w w1 : World) (e : Error) :
  fs_unlink_as text p w = (Throw e, w1) →
  ∃ errno, e = FilesystemFailure errno "unlink" text.
Proof.
  unfold fs_unlink_as, enoent, throw. intros E.
  repeat case_match; simplify_eq; by eexists.
Qed.

(** The loop of [cleanupOldBackups] over records that name distinct files of
    one application directory, all present: every record created before the
    cutoff is unlinked and counted, as long as the host refuses none of
    them. *)
Lemma delete_before_run (app : string) (cut : option Z) (bs : list Backup) :
  ∀ (c : nat) (w : World) (d : gmap string FileStat),
  fs w !! app = Some d →
  NoDup (filename <$> bs) →
  (∀ b, b ∈ bs → path b = Artifact app (filename b) ∧ is_Some (d !! filename b)) →
  (∀ b, b ∈ bs → Date.before (created b) cut = true →
        unlink_refused (host w) app (filename b) = None) →
  delete_before cfg cut bs c w =
  (Ok (c + length (filter (λ b, Date.before (created b) cut = true) bs)),
   {| fs := <[app := Spec.remove_all
                        (filename <$> filter (λ b, Date.before (created b) cut = true) bs)
                        d]> (fs w);
      reads := reads w; started := started w; host := host w |}).
Proof.
  induction bs as [|b bs IH]; intros c w d Hd Hnd Hbs Hok.
  - cbn. unfold ret. rewrite Nat.add_0_r, insert_id by done. by destruct w.
  - rewrite fmap_cons in Hnd. apply NoDup_cons in Hnd as [Hfresh Hnd].
    destruct (Hbs b) as [Hpath [st Hst]]; [by left|].
    cbn [delete_before]. destruct (Date.before (created b) cut) eqn:Hlt.
    + rewrite filter_cons_True by done. rewrite Hpath.
      unfold bind at 1, fs_unlink, fs_unlink_as.
      rewrite Hd, Hst, (Hok b) by (by left || done).
      rewrite (IH _ _ (delete (filename b) d)); cbn [fs reads started host].
      * rewrite insert_insert_eq, fmap_cons. cbn [length].
        by rewrite Nat.add_succ_comm.
      * by rewrite lookup_insert_eq.
      * done.
      * intros b' Hb'. destruct (Hbs b') as [? [st' Hst']]; [by right|].
        split; [done|]. exists st'. rewrite lookup_delete_ne; [done|].
        intros E. apply Hfresh. rewrite E. by apply list_elem_of_fmap_2.
      * intros b' Hb'. apply Hok. by right.
    + rewrite filter_cons_False by (by rewrite Hlt).
      apply IH; [done..| |].
      * intros b' Hb'. apply Hbs. by right.
      * intros b' Hb'. apply Hok. by right.
Qed.

(** A loop that completes was refused nothing. *)
Lemma delete_before_allowed (app : string) (cut : option Z) (bs : list Backup) :
  ∀ (c n : nat) (w w' : World),
  (∀ b, b ∈ bs → path b = Artifact app (filename b)) →
  delete_before cfg cut bs c w = (Ok n, w') →
  ∀ b, b ∈ bs → Date.before (created b) cut = true →
       unlink_refused (host w) app (filename b) = None.
Proof.
  induction bs as [|b bs IH]; intros c n w w' Hbs E b' Hb' Hold;
    [by apply elem_of_nil in Hb'|].
  cbn [delete_before] in E.
  assert (Hrest : ∀ x, x ∈ bs → path x = Artifact app (filename x))
    by (intros x Hx; apply Hbs; by right).
  destruct (Date.before (created b) cut) eqn:Hlt.
  - unfold bind at 1 in E. unfold fs_unlink in E. rewrite (Hbs b) in E by left.
    destruct (fs_unlink_as _ _ w) as [[[]|e] w1] eqn:Eu; [|done].
    apply fs_unlink_ok_inv in Eu as [Hfree Hhost].
    apply elem_of_cons in Hb' as [->|Hb']; [done|].
    rewrite <- Hhost. by eapply IH.
  - apply elem_of_cons in Hb' as [->|Hb']; [congruence|]. by eapply IH.
Qed.

(** The only way the loop fails is a failing unlink. *)
Lemma delete_before_throws (cut : option Z) (bs : list Backup) :
  ∀ (c : nat) (w w' : World) (e : Error),
  delete_before cfg cut bs c w = (Throw e, w') →
  ∃ errno text, e = FilesystemFailure errno "unlink" text.
Proof.
  induction bs as [|b bs IH]; intros c w w' e E; [done|].
  cbn [delete_before] in E.
  destruct (Date.before (created b) cut); [|by eapply IH].
  unfold bind at 1 in E. unfold fs_unlink in E.
  destruct (fs_unlink_as _ _ w) as [[[]|e1] w1] eqn:Eu.
  - by eapply IH.
  - simplify_eq. apply fs_unlink_throws in Eu as [errno ->]. by eexists _, _.
Qed.

(** The names [listBackups] reports for a directory are its entries. *)
Lemma listed_names (app : string) (d : gmap string FileStat) :
  filename <$> sort_by_created (Spec.backup_of app <$> map_to_list d)
  ≡ₚ (map_to_list d).*1.
Proof.
  rewrite sort_by_created_perm, <- list_fmap_compose.
  by rewrite (list_fmap_ext (filename ∘ Spec.backup_of app) fst (map_to_list d)).
Qed.

Lemma listed_present (app : string) (d : gmap string FileStat) (b : Backup) :
  b ∈ sort_by_created (Spec.backup_of app <$> map_to_list d) ↔
  ∃ k v, b = Spec.backup_of app (k, v) ∧ d !! k = Some v.
Proof.
  rewrite sort_by_created_perm, list_elem_of_fmap. split.
  - intros ([k v] & -> & Hkv). exists k, v. split; [done|].
    by apply elem_of_map_to_list.
  - intros (k & v & -> & Hkv). exists (k, v). split; [done|].
    by apply elem_of_map_to_list.
Qed.

(** Unlinking what the loop unlinks leaves the artifacts that are not older
    than the cutoff. *)
Lemma remove_expired (app : string) (cut : option Z) (d : gmap string FileStat) :
  Spec.remove_all
    (filename <$> filter (λ b, Date.before (created b) cut = true)
                    (sort_by_created (Spec.backup_of app <$> map_to_list d))) d
  = filter (λ kv, Date.before (birthtime kv.2) cut ≠ true) d.
Proof.
  apply map_eq. intros k. rewrite lookup_remove_all.
  destruct (decide (k ∈ _)) as [Hin|Hout].
  - symmetry. apply map_lookup_filter_None_2. right. intros v Hv Hkeep.
    apply list_elem_of_fmap in Hin as (b & -> & Hb).
    apply list_elem_of_filter in Hb as [Hlt Hb].
    apply listed_present in Hb as (k' & v' & -> & Hv'). cbn in *.
    rewrite Hv in Hv'. injection Hv' as <-. done.
  - destruct (d !! k) as [v|] eqn:Hv.
    + symmetry. apply map_lookup_filter_Some_2; [done|]. cbn. intros Hlt.
      apply Hout, list_elem_of_fmap. exists (Spec.backup_of app (k, v)).
      split; [done|]. apply list_elem_of_filter. split; [done|].
      apply listed_present. by exists k, v.
    + symmetry. apply map_lookup_filter_None_2. by left.
Qed.

Lemma count_expired (app : string) (cut : option Z) (d : gmap string FileStat) :
  length (filter (λ b, Date.before (created b) cut = true)
            (sort_by_created (Spec.backup_of app <$> map_to_list d)))
  = length (filter (λ kv, Date.before (birthtime kv.2) cut = true) (map_to_list d)).
Proof. by rewrite sort_by_created_perm, filter_fmap_length. Qed.

(** What [cleanupOldBackups] does, exactly, when the host refuses none of
    the unlinks it asks for. *)
Lemma cleanup_run (app : string) (days : Z) (w : World) :
  app ≠ "" →
  let now := clock (reads w) in
  let cut := Date.setDate (zone (host w)) now (Date.getDate (zone (host w)) now - days) in
  (∀ f st, lookup_file (fs w) app f = Some st →
           Date.before (birthtime st) cut = true →
           unlink_refused (host w) app f = None) →
  cleanupOldBackups cfg clock app days w =
  (Ok (length (filter (λ kv, Date.before (birthtime kv.2) cut = true)
                 (map_to_list (Spec.artifacts (fs w) app)))),
   {| fs := Spec.swept cut app (fs w);
      reads := S (reads w); started := started w; host := host w |}).
Proof.
  intros Hne now cut Hfree. unfold cleanupOldBackups.
  unfold bind at 1. rewrite listBackups_app by done.
  unfold bind at 1, new_Date. unfold bind at 1, local_zone.
  cbn [reads fs started host]. fold now. fold cut.
  unfold Spec.artifacts, Spec.swept.
  destruct (fs w !! app) as [d|] eqn:Hd; [|done].
  rewrite (delete_before_run app cut _ 0 _ d); cbn [fs reads started host].
  - by rewrite remove_expired, count_expired.
  - done.
  - rewrite listed_names. apply NoDup_fst_map_to_list.
  - intros b (k & v & -> & Hv)%listed_present. split; [done|]. by exists v.
  - intros b (k & v & -> & Hv)%listed_present Hold. cbn in *.
    apply (Hfree k v); [|done]. unfold lookup_file. by rewrite Hd.
Qed.

(** A cleanup that completes was refused nothing, so it did all of the
    above. *)
Lemma cleanup_completed (app : string) (days : Z) (w w' : World) (n : nat) :
  app ≠ "" →
  cleanupOldBackups cfg clock app days w = (Ok n, w') →
  let now := clock (reads w) in
  let cut := Date.setDate (zone (host w)) now (Date.getDate (zone (host w)) now - days) in
  w' = {| fs := Spec.swept cut app (fs w);
          reads := S (reads w); started := started w; host := host w |}.
Proof.
  intros Hne E now cut.
  assert (Hfree : ∀ f st, lookup_file (fs w) app f = Some st →
                          Date.before (birthtime st) cut = true →
                          unlink_refused (host w) app f = None).
  { intros f st Hst Hold. revert E. unfold cleanupOldBackups.
    unfold bind at 1. rewrite listBackups_app by done.
    unfold bind at 1, new_Date. unfold bind at 1, local_zone.
    cbn [reads fs started host]. fold now. fold cut. intros E.
    unfold lookup_file in Hst. destruct (fs w !! app) as [d|] eqn:Hd; [|done].
    apply (delete_before_allowed app _ _ _ _ _ _
             ltac:(by intros b (k & v & -> & Hv)%listed_present) E
             (Spec.backup_of app (f, st))); [|done].
    apply listed_present. by exists f, st. }
  rewrite cleanup_run in E by done. by simplify_eq.
Qed.

(** The only way [cleanupOldBackups] fails is a failing unlink. *)
Lemma cleanup_throws (app : string) (days : Z) (w w' : World) (e : Error) :
  app ≠ "" →
  cleanupOldBackups cfg clock app days w = (Throw e, w') →
  ∃ errno text, e = FilesystemFailure errno "unlink" text.
Proof.
  intros Hne. unfold cleanupOldBackups.
  unfold bind at 1. rewrite listBackups_app by done.
  unfold bind at 1, new_Date. unfold bind at 1, local_zone.
  apply delete_before_throws.
Qed.









End RetentionFacts.

(** ** The backup orchestrator *)

Section OrchestratorFacts.

Import BackupService.

Variable cfg : Config.t.
Variable clock : nat → Z.
Variable exec : string → gmap string (gmap string FileStat)
                → ExecResult * gmap string (gmap string FileStat).

(** C1.  Take an application of the roster whose database descriptor has a
    supported engine kind, so that a destination and a command line are
    planned, and suppose the subprocess completes with exit status zero and
    the destination artifact is there to be statted.  If its size is zero,
    createBackup fails with EmptyArtifact, after the command has run.  If
    its size is not zero, the backup itself has succeeded: createBackup goes
    on to the retention cleanup, and the only way it can still fail is an
    unlink of that cleanup failing; when the host refuses no unlink in the
    application's directory, createBackup succeeds and reports that size. *)
Theorem empty_artifact_fails
    (app : Application.t) (db : Database.t) (w : World)
    (artifact command out err : string)
    (t : gmap string (gmap string FileStat)) (st : FileStat) :
  NoDup (Application.name <$> Config.applications cfg) →
  app ∈ Config.applications cfg →
  Application.database app = Some db →
  Spec.supported db →
  backup_plan cfg (Application.name app) db
    (JS.dash_colons_and_dots (Date.toISOString (clock (reads w))))
  = Ok (Artifact (Application.name app) artifact, command) →
  exec command (ensure_dir (Application.name app) (fs w)) = (Exited out err, t) →
  lookup_file t (Application.name app) artifact = Some st →
  (size st = 0%Z →
   createBackup cfg clock exec (Application.name app) w
   = (Throw EmptyArtifact,
      {| fs := t; reads := S (reads w); started := command :: started w;
         host := host w |}))
  ∧ (size st ≠ 0%Z → Posix.plain (Application.name app) = true →
     (∀ e w', createBackup cfg clock exec (Application.name app) w = (Throw e, w') →
              ∃ errno text, e = FilesystemFailure errno "unlink" text)
     ∧ ((∀ f, unlink_refused (host w) (Application.name app) f = None) →
        ∃ r w', createBackup cfg clock exec (Application.name app) w = (Ok r, w')
                ∧ application r = Application.name app
                ∧ file r = path_string cfg (Artifact (Application.name app) artifact)
                ∧ r_size r = size st)).
Proof.
  intros Hnd Hin Hdb _ Hplan Hexec Hst.
  set (w2 := {| fs := t; reads := S (reads w); started := command :: started w;
                host := host w |}).
  assert (Hstat :
    fs_stat cfg (Artifact (Application.name app) artifact) w2
    = (Ok {| st_size := size st; st_birthtime := birthtime st; isDirectory := false |},
       w2)).
  { unfold fs_stat. cbn [fs w2]. by rewrite Hst. }
  assert (Hhead : createBackup cfg clock exec (Application.name app) w =
    (if (size st =? 0)%Z then throw EmptyArtifact
     else
       cleanupOldBackups cfg clock (Application.name app)
         (days_or (Database.retentionDays db) (Config.defaultRetentionDays cfg));;
       do done <- new_Date clock;
       ret {| application := Application.name app;
              file := path_string cfg (Artifact (Application.name app) artifact);
              r_size := size st;
              timestamp := Date.toISOString done |}) w2).
  { unfold createBackup.
    rewrite (find_application_in_roster cfg app Hnd Hin), Hdb.
    unfold bind at 1, new_Date. unfold bind at 1, fs_mkdir.
    unfold bind at 1, lift. rewrite Hplan.
    unfold bind at 1, execAsync. cbn [fs reads started host]. rewrite Hexec.
    fold w2. unfold bind at 1. by rewrite Hstat. }
  rewrite Hhead. split.
  - intros Hzero. by rewrite Hzero.
  - intros Hsize Hplain.
    assert (Hne : Application.name app ≠ "") by (by apply plain_nonempty).
    destruct (Z.eqb_spec (size st) 0) as [|_]; [done|].
    split.
    + intros e w'. unfold bind at 1.
      destruct (cleanupOldBackups cfg clock (Application.name app) _ w2)
        as [[k|e1] w3] eqn:Ec.
      * unfold bind, new_Date, ret. done.
      * intros [= <- <-]. by eapply cleanup_throws.
    + intros Hfree. unfold bind at 1. rewrite cleanup_run by done.
      unfold bind at 1, new_Date, ret. by eexists _, _.
Qed.

(** A successful backup reports the application it was asked for. *)
Lemma createBackup_application (appName : string) (w w' : World) (r : BackupResult) :
  createBackup cfg clock exec appName w = (Ok r, w') → application r = appName.
Proof.
  unfold createBackup, bind, throw, lift, ret, new_Date.
  intros H. repeat (case_match; simplify_eq); done.
Qed.

Lemma backup_each_attempts (apps : list Application.t) (w : World) :
  ∃ entries w',
    backup_each cfg clock exec apps w = (Ok entries, w')
    ∧ Spec.attempts cfg clock exec apps w entries w'
    ∧ entry_application <$> entries
      = Application.name <$> filter (λ a, is_Some (Application.database a)) apps.
Proof.
  revert w. induction apps as [|app apps IH]; intros w.
  - exists [], w. repeat split. constructor.
  - cbn [backup_each]. destruct (Application.database app) as [db|] eqn:Hdb.
    + rewrite filter_cons_True by (by rewrite Hdb).
      unfold bind at 1, catch, bind at 1.
      destruct (createBackup cfg clock exec (Application.name app) w)
        as [[r|e] w1] eqn:Hrun;
        destruct (IH w1) as (entries & w' & Heach & Hatt & Hnames);
        unfold ret at 1; unfold bind at 1; rewrite Heach; unfold ret.
      * eexists _, _. split; [done|]. split.
        -- eapply Spec.attempts_success; [by rewrite Hdb|done..].
        -- cbn. rewrite Hnames. f_equal. by eapply createBackup_application.
      * eexists _, _. split; [done|]. split.
        -- eapply Spec.attempts_failure; [by rewrite Hdb|done..].
        -- cbn. by rewrite Hnames.
    + rewrite filter_cons_False by (rewrite Hdb; by intros [? ?]).
      destruct (IH w) as (entries & w' & Heach & Hatt & Hnames).
      exists entries, w'. split; [done|]. split; [|done].
      by apply Spec.attempts_skip.
Qed.

(** C3.  createAllBackups never throws.  It attempts, in roster order,
    exactly the applications that carry a database descriptor, each from the
    world the previous attempt left; an attempt that throws becomes a failure
    entry carrying the error's message and the remaining applications are
    still attempted.  The result has one entry per attempted application, in
    roster order. *)
Theorem createAllBackups_isolates_failures (w : World) :
  ∃ entries w',
    createAllBackups cfg clock exec w = (Ok entries, w')
    ∧ Spec.attempts cfg clock exec (Config.applications cfg) w entries w'
    ∧ entry_application <$> entries
      = Application.name
          <$> filter (λ a, is_Some (Application.database a)) (Config.applications cfg).
Proof.
  unfold createAllBackups.
  destruct (backup_each_attempts (Config.applications cfg) w)
    as (entries & w' & Hrun & Hattempts & Hnames).
  by exists entries, w'.
Qed.

End OrchestratorFacts.

(** ** The sample deployment, run *)

Section SampleRuns.

Import BackupService.

Lemma sample_names_unique :
  NoDup (Application.name <$> Config.applications Sample.cfg).
Proof. apply (bool_decide_unpack _). vm_compute. exact I. Qed.

Lemma sample_members :
  Sample.shop ∈ Config.applications Sample.cfg
  ∧ Sample.blog ∈ Config.applications Sample.cfg
  ∧ Sample.wiki ∈ Config.applications Sample.cfg.
Proof. repeat split; [by left|by right; left|by do 2 right; left]. Qed.

(** [createBackup_without_database] on the monitoring-only application of
    the sample roster. *)
Lemma createBackup_without_database_witness :
  createBackup Sample.cfg Sample.clock (Sample.shell "backups" (λ _, 120%Z) Sample.start)
    "wiki" (Sample.world Sample.aged)
  = (Throw (NoDatabaseConfigured "wiki"), Sample.world Sample.aged).
Proof.
  exact (createBackup_without_database Sample.cfg Sample.clock
           (Sample.shell "backups" (λ _, 120%Z) Sample.start)
           Sample.wiki (Sample.world Sample.aged)
           sample_names_unique (proj2 (proj2 sample_members)) eq_refl).
Defined.

(** [restoreBackup_without_database] on the monitoring-only application,
    with the named artifact in place. *)
Lemma restoreBackup_without_database_witness :
  let w := Sample.world {[ "wiki" := {[ "old.sql.gz" := {| size := 9; birthtime := 0 |} ]} ]} in
  restoreBackup Sample.cfg Sample.clock (Sample.shell "backups" (λ _, 120%Z) Sample.start)
    "wiki" "old.sql.gz" w
  = (Throw (TypeError "Cannot read properties of undefined (reading 'type')"), w).
Proof.
  intros w.
  refine (proj1 (proj2 (restoreBackup_without_database Sample.cfg Sample.clock
            (Sample.shell "backups" (λ _, 120%Z) Sample.start)
            Sample.wiki "old.sql.gz" w
            sample_names_unique (proj2 (proj2 sample_members)) eq_refl)) _).
  vm_compute. by eexists.
Defined.

(** [command_builder] on the sample roster: the postgresql descriptor of
    [shop], and the unsupported one of [blog]. *)
Lemma command_builder_witness :
  (∃ file backupCommand restoreCommand,
     backup_plan Sample.cfg "shop" Sample.shop_db "T"
     = Ok (Artifact "shop" file, backupCommand)
     ∧ restore_plan Sample.shop_db "backups/shop/b.sql.gz" = Ok restoreCommand
     ∧ JS.includes backupCommand "pg_dump" = true
     ∧ JS.includes backupCommand "shop-db" = true
     ∧ JS.includes backupCommand "shop" = true
     ∧ JS.includes restoreCommand "psql" = true
     ∧ JS.includes restoreCommand "shop-db" = true
     ∧ JS.includes restoreCommand "shop" = true)
  ∧ (∃ w', createBackup Sample.cfg Sample.clock
             (Sample.shell "backups" (λ _, 120%Z) Sample.start)
             "blog" (Sample.world ∅)
           = (Throw (UnsupportedEngineKind "sqlite"), w')
           ∧ started w' = []).
Proof.
  split.
  - refine (proj1 (command_builder Sample.cfg Sample.clock
              (Sample.shell "backups" (λ _, 120%Z) Sample.start)
              Sample.shop_db "shop" "T" "backups/shop/b.sql.gz") _).
    apply (bool_decide_unpack _). vm_compute. exact I.
  - destruct (command_builder Sample.cfg Sample.clock
                (Sample.shell "backups" (λ _, 120%Z) Sample.start)
                (default Sample.shop_db (Application.database Sample.blog))
                "blog" "T" "x") as (_ & _ & Hun).
    refine (proj1 (Hun _ Sample.blog (Sample.world ∅)
                     sample_names_unique (proj1 (proj2 sample_members)) eq_refl)).
    apply (bool_decide_unpack _). vm_compute. exact I.
Defined.

(** [empty_artifact_fails] on [shop]: a dump that leaves an empty file fails
    the backup although the shell exits with status zero; a dump of 120
    bytes succeeds. *)
Lemma empty_artifact_fails_witness :
  (createBackup Sample.cfg Sample.clock (Sample.shell "backups" (λ _, 0%Z) Sample.start)
     "shop" (Sample.world ∅)).1
  = Throw EmptyArtifact
  ∧ ∃ r w',
      createBackup Sample.cfg Sample.clock
        (Sample.shell "backups" (λ _, 120%Z) Sample.start) "shop" (Sample.world ∅)
      = (Ok r, w')
      ∧ file r = "backups/shop/backup-2023-11-14T22-13-20-000Z.sql.gz"
      ∧ r_size r = 120%Z.
Proof.
  pose (artifact := "backup-2023-11-14T22-13-20-000Z.sql.gz").
  pose (command := "docker exec shop-db pg_dump -U postgres shop | gzip > backups/shop/backup-2023-11-14T22-13-20-000Z.sql.gz").
  assert (Hsup : Spec.supported Sample.shop_db)
    by (apply (bool_decide_unpack _); vm_compute; exact I).
  split.
  - exact (f_equal fst
      (proj1 (empty_artifact_fails Sample.cfg Sample.clock
               (Sample.shell "backups" (λ _, 0%Z) Sample.start)
               Sample.shop Sample.shop_db (Sample.world ∅) artifact command "" ""
               (Sample.write (ensure_dir "shop" ∅) "shop" artifact
                  {| size := 0; birthtime := Sample.start |})
               {| size := 0; birthtime := Sample.start |}
               sample_names_unique (proj1 sample_members) eq_refl Hsup
               ltac:(vm_compute; reflexivity) ltac:(vm_compute; reflexivity)
               ltac:(vm_compute; reflexivity)) eq_refl)).
  - pose proof (empty_artifact_fails Sample.cfg Sample.clock
               (Sample.shell "backups" (λ _, 120%Z) Sample.start)
               Sample.shop Sample.shop_db (Sample.world ∅) artifact command "" ""
               (Sample.write (ensure_dir "shop" ∅) "shop" artifact
                  {| size := 120; birthtime := Sample.start |})
               {| size := 120; birthtime := Sample.start |}
               sample_names_unique (proj1 sample_members) eq_refl Hsup
               ltac:(vm_compute; reflexivity) ltac:(vm_compute; reflexivity)
               ltac:(vm_compute; reflexivity)) as [_ H].
    specialize (H ltac:(discriminate) eq_refl).
    destruct H as [_ H]. specialize (H (λ _, eq_refl)).
    destruct H as (r & w' & Hrun & _ & Hfile & Hsize).
    exists r, w'. split; [exact Hrun|]. split; [exact Hfile|exact Hsize].
Defined.


(** Retention on a host on US Eastern time: the artifact created thirty
    days and half an hour before now is not older than thirty calendar days
    and stays; on UTC it goes. *)
Example cleanup_across_dst :
  let eastern := cleanupOldBackups Sample.cfg Sample.clock "shop" 30
                   (Sample.abroad Sample.edge) in
  let utc := cleanupOldBackups Sample.cfg Sample.clock "shop" 30
               (Sample.world Sample.edge) in
  eastern.1 = Ok 0
  ∧ is_Some (lookup_file (fs eastern.2) "shop" "edge.sql.gz")
  ∧ utc.1 = Ok 1
  ∧ lookup_file (fs utc.2) "shop" "edge.sql.gz" = None.
Proof. vm_compute. split; [done|]. split; [by eexists|done]. Qed.

(** A retention that puts the cutoff outside the range of [Date] deletes
    nothing, although every artifact is older than 200,000,000 days from
    now. *)
Example cleanup_out_of_range :
  let run := cleanupOldBackups Sample.cfg Sample.clock "shop" (-200000000)
               (Sample.world Sample.aged) in
  run.1 = Ok 0 ∧ fs run.2 = Sample.aged.
Proof. vm_compute. by split. Qed.

(** On a host that refuses to unlink, retention fails at the first expired
    artifact of the listing, and so does the backup that ran it, although
    its dump of 120 bytes is on disk. *)
Example cleanup_refused :
  let exec := Sample.shell "backups" (λ _, 120%Z) Sample.start in
  (cleanupOldBackups Sample.cfg Sample.clock "shop" 7 (Sample.locked Sample.aged)).1
  = Throw (FilesystemFailure EACCES "unlink" "backups/shop/d8.sql.gz")
  ∧ (createBackup Sample.cfg Sample.clock exec "shop" (Sample.locked Sample.aged)).1
    = Throw (FilesystemFailure EACCES "unlink" "backups/shop/d8.sql.gz")
  ∧ is_Some (lookup_file
               (fs (createBackup Sample.cfg Sample.clock exec "shop"
                      (Sample.locked Sample.aged)).2)
               "shop" "backup-2023-11-14T22-13-20-000Z.sql.gz").
Proof. vm_compute. split; [done|]. split; [done|by eexists]. Qed.

(** createAllBackups on the sample roster: [shop] succeeds, [blog], whose
    engine kind is unsupported, fails, [wiki] is not attempted, [docs]
    succeeds; the artifact of [shop] is on disk at the end. *)
Lemma sample_fan_out :
  let run := createAllBackups Sample.cfg Sample.clock
               (Sample.shell "backups" (λ _, 120%Z) Sample.start) (Sample.world ∅) in
  (∃ r1 r3, run.1 = Ok [Succeeded r1;
                        Failed "blog" "Unsupported database type: sqlite";
                        Succeeded r3]
            ∧ application r1 = "shop" ∧ application r3 = "docs")
  ∧ is_Some (lookup_file (fs run.2) "shop" "backup-2023-11-14T22-13-20-000Z.sql.gz").
Proof.
  intros run. split.
  - vm_compute. by eexists _, _.
  - vm_compute. by eexists.
Qed.

End SampleRuns.

(** ** Listings *)

Section ListingFacts.

Import BackupService.

Variable cfg : Config.t.

Lemma insert_by_created_sorted (b : Backup) (l : list Backup) :
  Views.newest_first l → Views.newest_first (insert_by_created b l).
Proof.
  unfold Views.newest_first. induction l as [|c l IH]; intros Hl.
  - cbn. by repeat constructor.
  - cbn [insert_by_created]. apply StronglySorted_inv in Hl as [Hl Hc].
    destruct (Z.leb_spec (created c) (created b)) as [Hle|Hgt].
    + apply SSorted_cons; [by apply SSorted_cons|].
      constructor; [done|]. eapply Forall_impl; [exact Hc|].
      cbn. intros x Hx. lia.
    + apply SSorted_cons; [by apply IH|].
      rewrite insert_by_created_perm. constructor; [lia|done].
Qed.

Lemma sort_by_created_sorted (l : list Backup) :
  Views.newest_first (sort_by_created l).
Proof.
  induction l as [|b l IH]; [constructor|].
  cbn [sort_by_created foldr]. by apply insert_by_created_sorted.
Qed.

Lemma stat_apps_entries (l : list (string * gmap string FileStat)) (w : World) :
  (∀ ad, ad ∈ l → fs w !! ad.1 = Some ad.2) →
  stat_apps cfg l.*1 w
  = (Ok (flat_map (λ ad, Spec.backup_of ad.1 <$> map_to_list ad.2) l), w).
Proof.
  induction l as [|[a d] l IH]; intros Hl; [done|].
  assert (Ha : fs w !! a = Some d) by (apply (Hl (a, d)); left).
  rewrite fmap_cons. cbn [stat_apps fst flat_map snd].
  unfold bind at 1, fs_stat. rewrite Ha. cbn [isDirectory].
  unfold bind at 1, bind at 1, fs_readdir. rewrite Ha.
  rewrite (stat_all_entries cfg a d (map_to_list d) w Ha)
    by (intros [k v] Hkv; by apply elem_of_map_to_list).
  unfold bind at 1. rewrite IH by (intros ad Had; apply Hl; by right).
  done.
Qed.

(** What [listBackups()] resolves to when no application is named, or the
    empty name is given. *)
Lemma listBackups_every (appName : option string) (w : World) :
  appName = None ∨ appName = Some "" →
  listBackups cfg appName w = (Ok (sort_by_created (Views.all_backups (fs w))), w).
Proof.
  intros Harg.
  assert (E : (do apps <- fs_readdir cfg Root; stat_apps cfg apps) w
              = (Ok (Views.all_backups (fs w)), w)).
  { unfold bind, fs_readdir. rewrite stat_apps_entries; [done|].
    intros [a d] Had. by apply elem_of_map_to_list. }
  unfold listBackups. cbv zeta. unfold catch at 1, bind at 1.
  destruct Harg as [->| ->]; cbn [JS.truthy_string String.eqb negb];
    by rewrite E.
Qed.

(** X1.  listBackups(appName) for a name that is a plain path segment (not
    empty, not [.] or [..], without a separator) never throws and leaves
    the world alone.  It reports exactly one record per file of the
    application's directory, most recent first, and the empty list when the
    directory does not exist. *)
Theorem listBackups_newest_first (app : string) (w : World) :
  Posix.plain app = true →
  ∃ bs, listBackups cfg (Some app) w = (Ok bs, w)
        ∧ bs ≡ₚ Spec.backup_of app <$> map_to_list (Spec.artifacts (fs w) app)
        ∧ Views.newest_first bs
        ∧ (fs w !! app = None → bs = []).
Proof.
  intros Hne%plain_nonempty. rewrite listBackups_app by done. eexists. split; [done|].
  unfold Spec.artifacts. destruct (fs w !! app) as [d|]; cbn.
  - split; [apply sort_by_created_perm|].
    split; [apply sort_by_created_sorted|done].
  - rewrite map_to_list_empty. split; [done|]. split; [constructor|done].
Qed.

(** X2.  listBackups() without a name, or with the empty name, never throws
    and leaves the world alone.  It reports exactly one record per file of
    every directory under the backup root, each labelled with its
    directory's name, most recent first across applications. *)
Theorem listBackups_all_applications (w : World) :
  ∃ bs, listBackups cfg None w = (Ok bs, w)
        ∧ listBackups cfg (Some "") w = (Ok bs, w)
        ∧ bs ≡ₚ Views.all_backups (fs w)
        ∧ Views.newest_first bs
        ∧ ∀ b, b ∈ bs ↔
               ∃ a f st, lookup_file (fs w) a f = Some st
                         ∧ b = Spec.backup_of a (f, st).
Proof.
  exists (sort_by_created (Views.all_backups (fs w))).
  split; [by apply listBackups_every; left|].
  split; [by apply listBackups_every; right|].
  split; [apply sort_by_created_perm|].
  split; [apply sort_by_created_sorted|].
  intros b. rewrite sort_by_created_perm. unfold Views.all_backups.
  rewrite list_elem_of_In, in_flat_map. split.
  - intros ([a d] & Had%list_elem_of_In & Hb%list_elem_of_In).
    apply elem_of_map_to_list in Had. cbn in Hb.
    apply list_elem_of_fmap in Hb as ([f st] & -> & Hf).
    apply elem_of_map_to_list in Hf. exists a, f, st. split; [|done].
    unfold lookup_file. by rewrite Had.
  - intros (a & f & st & Hst & ->). unfold lookup_file in Hst.
    destruct (fs w !! a) as [d|] eqn:Had; [|done].
    exists (a, d). split; apply list_elem_of_In.
    + by apply elem_of_map_to_list.
    + cbn. apply list_elem_of_fmap. exists (f, st). split; [done|].
      by apply elem_of_map_to_list.
Qed.

End ListingFacts.

(** ** The orchestrator, outcome by outcome *)

Section OutcomeFacts.

Import BackupService.

Variable cfg : Config.t.
Variable clock : nat → Z.
Variable exec : string → gmap string (gmap string FileStat)
                → ExecResult * gmap string (gmap string FileStat).

Lemma find_none (apps : list Application.t) (n : string) :
  (∀ a, a ∈ apps → Application.name a ≠ n) →
  List.find (λ a, String.eqb (Application.name a) n) apps = None.
Proof.
  induction apps as [|a apps IH]; intros H; [done|]. simpl.
  destruct (String.eqb_spec (Application.name a) n) as [E|_].
  - exfalso. by apply (H a); [left|].
  - apply IH. intros b Hb. apply H. by right.
Qed.

(** Listing never throws and never changes the world. *)
Lemma listBackups_pure (appName : option string) (w : World) :
  ∃ bs, listBackups cfg appName w = (Ok bs, w).
Proof.
  destruct appName as [app|].
  - destruct (decide (app = "")) as [->|Hne].
    + eexists. apply listBackups_every. by right.
    + eexists. by apply listBackups_app.
  - eexists. apply listBackups_every. by left.
Qed.

Lemma fs_unlink_frame (p : Path) (w w' : World) (r : Result unit) :
  fs_unlink cfg p w = (r, w') →
  started w' = started w ∧ reads w' = reads w.
Proof.
  unfold fs_unlink, fs_unlink_as, enoent, throw. intros E.
  repeat case_match; by simplify_eq.
Qed.

Lemma delete_before_frame (cut : option Z) (bs : list Backup) :
  ∀ (c : nat) (w w' : World) (r : Result nat),
  delete_before cfg cut bs c w = (r, w') →
  started w' = started w ∧ reads w' = reads w.
Proof.
  induction bs as [|b bs IH]; intros c w w' r E.
  - cbn in E. unfold ret in E. by simplify_eq.
  - cbn [delete_before] in E.
    destruct (Date.before (created b) cut); [|by eapply IH].
    unfold bind at 1 in E.
    destruct (fs_unlink cfg (path b) w) as [[[]|e] w1] eqn:Eu.
    + destruct (fs_unlink_frame _ _ _ _ Eu) as [<- <-]. by eapply IH.
    + simplify_eq. by eapply fs_unlink_frame.
Qed.

(** Retention touches neither the command log nor, beyond its one read, the
    clock. *)
Lemma cleanup_frame (app : string) (days : Z) (w w' : World) (r : Result nat) :
  cleanupOldBackups cfg clock app days w = (r, w') →
  started w' = started w ∧ reads w' = S (reads w).
Proof.
  unfold cleanupOldBackups. unfold bind at 1.
  destruct (listBackups_pure (Some app) w) as [bs ->].
  unfold bind at 1, new_Date. unfold bind at 1, local_zone. intros E.
  by destruct (delete_before_frame _ _ _ _ _ _ E) as [-> ->].
Qed.

(** [createBackup] for an application that resolves and has a database
    descriptor, as a decision tree over what the plan, the process and the
    file system answer. *)
Lemma createBackup_eval (n : string) (app : Application.t) (db : Database.t) (w : World) :
  find_application cfg n = Some app →
  Application.database app = Some db →
  let w1 := {| fs := ensure_dir n (fs w); reads := S (reads w); started := started w; host := host w |} in
  createBackup cfg clock exec n w =
  match backup_plan cfg n db (JS.dash_colons_and_dots (Date.toISOString (clock (reads w)))) with
  | Throw e => (Throw e, w1)
  | Ok (backupFile, command) =>
      let w2 := {| fs := (exec command (fs w1)).2; reads := S (reads w);
                   started := command :: started w; host := host w |} in
      match (exec command (fs w1)).1 with
      | Rejected m => (Throw (ProcessExecutionFailure m), w2)
      | Exited _ _ =>
          match fs_stat cfg backupFile w2 with
          | (Throw e, _) => (Throw e, w2)
          | (Ok stats, _) =>
              if (st_size stats =? 0)%Z then (Throw EmptyArtifact, w2)
              else
                let run := cleanupOldBackups cfg clock n
                             (days_or (Database.retentionDays db)
                                      (Config.defaultRetentionDays cfg)) w2 in
                match run.1 with
                | Throw e => (Throw e, run.2)
                | Ok _ =>
                    (Ok {| application := n;
                           file := path_string cfg backupFile;
                           r_size := st_size stats;
                           timestamp := Date.toISOString (clock (reads run.2)) |},
                     {| fs := fs run.2; reads := S (reads run.2);
                        started := started run.2; host := host run.2 |})
                end
          end
      end
  end.
Proof.
  intros Hfind Hdb w1. subst w1. unfold createBackup. rewrite Hfind, Hdb.
  unfold bind at 1, new_Date. unfold bind at 1, fs_mkdir.
  unfold bind at 1, lift.
  destruct (backup_plan cfg n db _) as [[backupFile command]|e]; [|done].
  unfold bind at 1, execAsync. cbn [fs reads started host].
  destruct (exec command (ensure_dir n (fs w))) as [[out err|m] t];
    cbn [fst snd]; [|done].
  unfold bind at 1.
  assert (Hpure : ∀ p v, (fs_stat cfg p v).2 = v).
  { intros p v. unfold fs_stat, enoent, throw. by repeat case_match. }
  specialize (Hpure backupFile
    {| fs := t; reads := S (reads w); started := command :: started w; host := host w |}).
  destruct (fs_stat cfg backupFile _) as [[stats|e] v]; cbn in Hpure; subst v;
    [|done].
  destruct (st_size stats =? 0)%Z; [done|].
  unfold bind at 1.
  destruct (cleanupOldBackups cfg clock n _ _) as [[k|e] w3]; [|done].
  done.
Qed.

(** X3.  deleteBackup of an artifact named by two plain path segments.
    When the artifact is there and the host does not refuse, it removes
    exactly that artifact and resolves to true: every other artifact, of
    this or any other application, stays, and so does the (possibly now
    empty) directory.  When the host refuses the unlink it throws the
    host's error, and when the artifact is not there it throws ENOENT; in
    both cases nothing changes.  The error names the path the three
    segments join to. *)
Theorem deleteBackup_outcomes (app filename : string) (w : World) :
  Posix.plain app = true →
  Posix.plain filename = true →
  let backupPath := Posix.join [Config.dir cfg; app; filename] in
  (∀ st, lookup_file (fs w) app filename = Some st →
     unlink_refused (host w) app filename = None →
     ∃ w', deleteBackup cfg app filename w = (Ok true, w')
           ∧ lookup_file (fs w') app filename = None
           ∧ is_Some (fs w' !! app)
           ∧ (∀ a f, (a, f) ≠ (app, filename) →
                lookup_file (fs w') a f = lookup_file (fs w) a f)
           ∧ started w' = started w)
  ∧ (∀ st errno, lookup_file (fs w) app filename = Some st →
     unlink_refused (host w) app filename = Some errno →
     deleteBackup cfg app filename w
     = (Throw (FilesystemFailure errno "unlink" backupPath), w))
  ∧ (lookup_file (fs w) app filename = None →
     deleteBackup cfg app filename w
     = (Throw (FilesystemFailure ENOENT "unlink" backupPath), w)).
Proof.
  intros _ _ backupPath.
  unfold deleteBackup, bind, fs_unlink_as, lookup_file. fold backupPath.
  split; [|split].
  - intros st Hst Hfree. destruct (fs w !! app) as [d|] eqn:Hd; [|done].
    rewrite Hst, Hfree. eexists. split; [done|]. cbn [fs started].
    rewrite lookup_insert_eq, lookup_delete_eq. split; [done|].
    split; [by eexists|]. split; [|done]. intros a f Hne.
    destruct (decide (a = app)) as [->|Ha].
    + rewrite lookup_insert_eq, Hd. apply lookup_delete_ne. congruence.
    + by rewrite lookup_insert_ne.
  - intros st errno Hst Hrefused. destruct (fs w !! app) as [d|] eqn:Hd; [|done].
    by rewrite Hst, Hrefused.
  - intros Hnone. destruct (fs w !! app) as [d|]; [|done]. by rewrite Hnone.
Qed.

(** X4.  For a name that no application of the roster bears, createBackup
    and restoreBackup both fail with ApplicationNotFound before touching
    anything: the world is unchanged, even when a directory and an artifact
    of that name are on disk. *)
Theorem unknown_application_rejected (n filename : string) (w : World) :
  (∀ a, a ∈ Config.applications cfg → Application.name a ≠ n) →
  createBackup cfg clock exec n w = (Throw (ApplicationNotFound n), w)
  ∧ restoreBackup cfg clock exec n filename w = (Throw (ApplicationNotFound n), w).
Proof.
  intros H. unfold createBackup, restoreBackup, find_application.
  by rewrite (find_none _ _ H).
Qed.

(** X5.  When the dump process is rejected (non-zero exit status),
    createBackup throws the process error; when it exits with status zero
    but left no file at the destination, createBackup throws the ENOENT of
    the stat.  In both cases the command was started once and the backup
    tree is the one the process left behind: retention did not run, so no
    older artifact was deleted by the service. *)
Theorem createBackup_failed_dump
    (app : Application.t) (db : Database.t) (w : World)
    (artifact command : string) :
  NoDup (Application.name <$> Config.applications cfg) →
  app ∈ Config.applications cfg →
  Application.database app = Some db →
  backup_plan cfg (Application.name app) db
    (JS.dash_colons_and_dots (Date.toISOString (clock (reads w))))
  = Ok (Artifact (Application.name app) artifact, command) →
  let left := exec command (ensure_dir (Application.name app) (fs w)) in
  let after := {| fs := left.2; reads := S (reads w); started := command :: started w; host := host w |} in
  (∀ m, left.1 = Rejected m →
     createBackup cfg clock exec (Application.name app) w
     = (Throw (ProcessExecutionFailure m), after))
  ∧ (∀ out err, left.1 = Exited out err →
     lookup_file left.2 (Application.name app) artifact = None →
     createBackup cfg clock exec (Application.name app) w
     = (Throw (FilesystemFailure ENOENT "stat"
                 (path_string cfg (Artifact (Application.name app) artifact))), after)).
Proof.
  intros Hnd Hin Hdb Hplan left after.
  pose proof (createBackup_eval (Application.name app) app db w
                (find_application_in_roster cfg app Hnd Hin) Hdb) as E.
  subst left after. cbv zeta in E. rewrite Hplan in E.
  cbn [fs reads started host] in E.
  split.
  - intros m Hm. by rewrite E, Hm.
  - intros out err Hexit Hnone. rewrite E, Hexit.
    unfold fs_stat. cbn [fs]. by rewrite Hnone.
Qed.

(** Whatever its outcome, one createBackup call hands at most one command
    to the process executor. *)
Lemma createBackup_started (n : string) (w w' : World) (r : Result BackupResult) :
  createBackup cfg clock exec n w = (r, w') →
  started w' = started w ∨ ∃ command, started w' = command :: started w.
Proof.
  destruct (find_application cfg n) as [app|] eqn:Hfind;
    [|unfold createBackup; rewrite Hfind; unfold throw; intros; simplify_eq; by left].
  destruct (Application.database app) as [db|] eqn:Hdb;
    [|unfold createBackup; rewrite Hfind, Hdb; unfold throw; intros;
      simplify_eq; by left].
  rewrite (createBackup_eval n app db w Hfind Hdb). cbv zeta.
  destruct (backup_plan cfg n db _) as [[backupFile command]|e];
    [|intros; simplify_eq; by left].
  destruct (exec command _).1; [|intros; simplify_eq; right; by eexists].
  destruct (fs_stat cfg backupFile _) as [[stats|e] v];
    [|intros; simplify_eq; right; by eexists].
  destruct (st_size stats =? 0)%Z; [intros; simplify_eq; right; by eexists|].
  destruct (cleanupOldBackups cfg clock n _ _) as [[k|e] w3] eqn:Ec;
    destruct (cleanup_frame _ _ _ _ _ Ec) as [Hs _]; cbn [fst snd];
    intros; simplify_eq; right; eexists; cbn [started]; by rewrite Hs.
Qed.

(** What a resolved createBackup call implies. *)
Lemma createBackup_ok_inv (n : string) (w w' : World) (r : BackupResult) :
  createBackup cfg clock exec n w = (Ok r, w') →
  (∃ app db, find_application cfg n = Some app
             ∧ Application.database app = Some db
             ∧ Spec.supported db)
  ∧ application r = n
  ∧ r_size r ≠ 0%Z
  ∧ (∃ command, started w' = command :: started w)
  ∧ reads w' = 3 + reads w.
Proof.
  intros H.
  destruct (find_application cfg n) as [app|] eqn:Hfind;
    [|unfold createBackup in H; rewrite Hfind in H; by unfold throw in H].
  destruct (Application.database app) as [db|] eqn:Hdb;
    [|unfold createBackup in H; rewrite Hfind, Hdb in H; by unfold throw in H].
  rewrite (createBackup_eval n app db w Hfind Hdb) in H. cbv zeta in H.
  destruct (backup_plan cfg n db _) as [[backupFile command]|e] eqn:Hplan; [|done].
  destruct (exec command _).1; [|done].
  destruct (fs_stat cfg backupFile _) as [[stats|e] v]; [|done].
  destruct (Z.eqb_spec (st_size stats) 0) as [|Hsize]; [done|].
  destruct (cleanupOldBackups cfg clock n _ _) as [[k|e] w3] eqn:Ec; [|done].
  destruct (cleanup_frame _ _ _ _ _ Ec) as [Hs Hr]. cbn [fst snd] in H.
  simplify_eq. cbn [application r_size started reads]. split.
  - exists app, db. split; [done|]. split; [done|].
    destruct (decide (Spec.supported db)) as [|Hun]; [done|].
    by rewrite (proj1 (unsupported_plans cfg exec db n _ "" Hun)) in Hplan.
  - split; [done|]. split; [done|]. split; [by eexists|]. by rewrite Hr.
Qed.

(** X6.  A createBackup call that resolves to a result did all of this: the
    name resolved to a roster application with a database descriptor of a
    supported engine kind, exactly one command was handed to the process
    executor, the clock was read three times, and the reported size is not
    zero.  The result names the application that was asked for. *)
Theorem createBackup_success_means (n : string) (w w' : World) (r : BackupResult) :
  createBackup cfg clock exec n w = (Ok r, w') →
  (∃ app db, find_application cfg n = Some app
             ∧ Application.database app = Some db
             ∧ Spec.supported db)
  ∧ application r = n
  ∧ r_size r ≠ 0%Z
  ∧ (∃ command, started w' = command :: started w)
  ∧ reads w' = 3 + reads w.
Proof. apply createBackup_ok_inv. Qed.

Lemma backup_each_budget (apps : list Application.t) (w : World) :
  ∃ entries w' commands,
    backup_each cfg clock exec apps w = (Ok entries, w')
    ∧ started w' = commands ++ started w
    ∧ length (filter (λ e, entry_success e = true) entries) ≤ length commands
    ∧ length commands
      ≤ length (filter (λ a, is_Some (Application.database a)) apps).
Proof.
  revert w. induction apps as [|app apps IH]; intros w.
  - exists [], w, []. by repeat split.
  - cbn [backup_each]. destruct (Application.database app) as [db|] eqn:Hdb.
    + rewrite filter_cons_True by (by rewrite Hdb).
      unfold bind at 1, catch, bind at 1.
      destruct (createBackup cfg clock exec (Application.name app) w)
        as [[r|e] w1] eqn:Hrun;
        destruct (IH w1) as (entries & w' & commands & Heach & Hst & Hlo & Hhi);
        unfold ret at 1; unfold bind at 1; rewrite Heach; unfold ret.
      * destruct (createBackup_ok_inv _ _ _ _ Hrun) as (_ & _ & _ & [c Hc] & _).
        exists (Succeeded r :: entries), w', (commands ++ [c]).
        split; [done|]. split; [by rewrite Hst, Hc, <- app_assoc|].
        rewrite filter_cons_True by done. rewrite length_app. cbn. lia.
      * destruct (createBackup_started _ _ _ _ Hrun) as [Hc|[c Hc]].
        -- exists (Failed (Application.name app) (message e) :: entries), w', commands.
           split; [done|]. split; [by rewrite Hst, Hc|].
           rewrite filter_cons_False by done. cbn. lia.
        -- exists (Failed (Application.name app) (message e) :: entries), w',
             (commands ++ [c]).
           split; [done|]. split; [by rewrite Hst, Hc, <- app_assoc|].
           rewrite filter_cons_False by done. rewrite length_app. cbn. lia.
    + rewrite filter_cons_False by (rewrite Hdb; by intros [? ?]).
      apply IH.
Qed.

(** X7.  createAllBackups hands at most one command per database-carrying
    application to the process executor, adds them in front of the command
    log without touching what was logged before, and every success entry is
    backed by one of these commands: the number of success entries is at
    most the number of commands started, which is at most the number of
    applications with a database descriptor. *)
Theorem createAllBackups_process_budget (w : World) :
  ∃ entries w' commands,
    createAllBackups cfg clock exec w = (Ok entries, w')
    ∧ started w' = commands ++ started w
    ∧ length (filter (λ e, entry_success e = true) entries) ≤ length commands
    ∧ length commands
      ≤ length (filter (λ a, is_Some (Application.database a))
                  (Config.applications cfg)).
Proof. apply backup_each_budget. Qed.

Lemma cleanup_survivors (app : string) (days : Z) (w w' : World) (n : nat)
    (f : string) (st : FileStat) :
  app ≠ "" →
  cleanupOldBackups cfg clock app days w = (Ok n, w') →
  lookup_file (fs w') app f = Some st →
  Date.before (birthtime st) (Spec.cutoff (zone (host w)) (clock (reads w)) days) = false.
Proof.
  intros Hne E. rewrite (cleanup_completed cfg clock app days w w' n Hne E).
  cbn [fs]. rewrite setDate_cutoff. unfold lookup_file, Spec.swept.
  destruct (fs w !! app) as [d|] eqn:Hd.
  - rewrite lookup_insert_eq. intros [_ Hkeep]%map_lookup_filter_Some.
    cbn in Hkeep. by apply not_true_is_false.
  - by rewrite Hd.
Qed.

(** X8.  After a createBackup call that resolved to a result, retention has
    been enforced for that application: no artifact of the application that
    is left on disk was created before the cutoff.  The cutoff is the local
    wall-clock time of the cleanup instant (the second clock read of the
    call), moved back by the retention window in calendar days and read
    back in the host's zone; on a host whose zone keeps one offset that is
    the cleanup instant minus the window times 24 hours.  The window is the
    descriptor's retentionDays when that is a non-zero number and the
    configured default otherwise.  The application name is a plain path
    segment. *)
Theorem createBackup_enforces_retention
    (app : Application.t) (db : Database.t) (w w' : World) (r : BackupResult) :
  NoDup (Application.name <$> Config.applications cfg) →
  app ∈ Config.applications cfg →
  Application.database app = Some db →
  Posix.plain (Application.name app) = true →
  createBackup cfg clock exec (Application.name app) w = (Ok r, w') →
  let now := clock (S (reads w)) in
  let days := days_or (Database.retentionDays db) (Config.defaultRetentionDays cfg) in
  ∀ f st, lookup_file (fs w') (Application.name app) f = Some st →
    (∀ cutoff, Spec.cutoff (zone (host w)) now days = Some cutoff →
               (cutoff <= birthtime st)%Z)
    ∧ (Date.steady (zone (host w)) →
       (Z.abs (now - days * Date.msPerDay) <= Date.maxTime)%Z →
       (now - days * Date.msPerDay <= birthtime st)%Z).
Proof.
  intros Hnd Hin Hdb Hplain H now days f st Hst.
  assert (Hne : Application.name app ≠ "") by (by apply plain_nonempty).
  assert (Hkeep : Date.before (birthtime st) (Spec.cutoff (zone (host w)) now days)
                  = false).
  { rewrite (createBackup_eval (Application.name app) app db w
               (find_application_in_roster cfg app Hnd Hin) Hdb) in H.
    cbv zeta in H.
    destruct (backup_plan cfg _ db _) as [[backupFile command]|e]; [|done].
    destruct (exec command _).1; [|done].
    destruct (fs_stat cfg backupFile _) as [[stats|e] v]; [|done].
    destruct (st_size stats =? 0)%Z; [done|].
    destruct (cleanupOldBackups cfg clock _ _ _) as [[k|e] w3] eqn:Ec; [|done].
    cbn [fst snd] in H. simplify_eq. cbn [fs] in Hst.
    by apply (cleanup_survivors _ _ _ _ _ _ _ Hne Ec) in Hst. }
  assert (Hsome : ∀ cutoff, Spec.cutoff (zone (host w)) now days = Some cutoff →
                            (cutoff <= birthtime st)%Z).
  { intros cutoff Hc. rewrite Hc in Hkeep. cbn in Hkeep.
    by apply Z.ltb_ge in Hkeep. }
  split; [done|]. intros Hzone Hrange. by apply Hsome, cutoff_steady.
Qed.

(** [restoreBackup] for an application that resolves and has a database
    descriptor, as a decision tree. *)
Lemma restoreBackup_eval (n filename : string) (app : Application.t)
    (db : Database.t) (w : World) :
  find_application cfg n = Some app →
  Application.database app = Some db →
  let backupPath := Posix.join [Config.dir cfg; n; filename] in
  restoreBackup cfg clock exec n filename w =
  match lookup_file (fs w) n filename with
  | None => (Throw (FilesystemFailure ENOENT "access" backupPath), w)
  | Some _ =>
      match restore_plan db backupPath with
      | Throw e => (Throw e, w)
      | Ok command =>
          match (exec command (fs w)).1 with
          | Rejected m =>
              (Throw (ProcessExecutionFailure m),
               {| fs := (exec command (fs w)).2; reads := reads w;
                  started := command :: started w; host := host w |})
          | Exited _ _ =>
              (Ok {| rr_application := n; backup := filename;
                     rr_timestamp := Date.toISOString (clock (reads w)) |},
               {| fs := (exec command (fs w)).2; reads := S (reads w);
                  started := command :: started w; host := host w |})
          end
      end
  end.
Proof.
  intros Hfind Hdb backupPath. unfold restoreBackup. rewrite Hfind, Hdb.
  fold backupPath. unfold bind at 1, fs_access.
  destruct (lookup_file (fs w) n filename); [|done].
  unfold bind at 1, lift.
  destruct (restore_plan db _) as [command|e]; [|done].
  unfold bind at 1, execAsync.
  by destruct (exec command (fs w)) as [[out err|m] t].
Qed.

(** X9.  restoreBackup for a roster application with a database descriptor
    of a supported engine kind, so that a restore command is planned, and an
    artifact named by plain path segments.  When the named artifact is
    missing it throws the ENOENT of the access check and changes nothing: no
    command is started.  When the artifact is there, exactly the planned
    command, which reads the path the three segments join to, is started; a
    process that exits with status zero makes the call resolve to a result
    naming the application and the artifact, a rejected process makes it
    throw the process error.  The backup tree afterwards is the one the
    process left: restoreBackup itself writes nothing. *)
Theorem restoreBackup_outcomes
    (app : Application.t) (db : Database.t) (filename command : string) (w : World) :
  NoDup (Application.name <$> Config.applications cfg) →
  app ∈ Config.applications cfg →
  Application.database app = Some db →
  Posix.plain (Application.name app) = true →
  Posix.plain filename = true →
  let backupPath := Posix.join [Config.dir cfg; Application.name app; filename] in
  restore_plan db backupPath = Ok command →
  let run := restoreBackup cfg clock exec (Application.name app) filename w in
  let left := exec command (fs w) in
  (lookup_file (fs w) (Application.name app) filename = None →
   run = (Throw (FilesystemFailure ENOENT "access" backupPath), w))
  ∧ (is_Some (lookup_file (fs w) (Application.name app) filename) →
     started run.2 = command :: started w
     ∧ fs run.2 = left.2
     ∧ (∀ out err, left.1 = Exited out err →
          ∃ r, run.1 = Ok r
               ∧ rr_application r = Application.name app
               ∧ backup r = filename)
     ∧ (∀ m, left.1 = Rejected m → run.1 = Throw (ProcessExecutionFailure m))).
Proof.
  intros Hnd Hin Hdb _ _ backupPath Hplan run left. subst run left.
  rewrite (restoreBackup_eval _ filename app db w
             (find_application_in_roster cfg app Hnd Hin) Hdb).
  cbv zeta. fold backupPath. rewrite Hplan.
  split.
  - by intros ->.
  - intros [st ->].
    destruct (exec command (fs w)) as [[out err|m] t]; cbn [fst snd fs started].
    + split; [done|]. split; [done|]. split; [|done].
      intros ? ? _. by eexists.
    + split; [done|]. split; [done|]. split; [done|].
      by intros ? [= <-].
Qed.

(** X10.  A createBackup call that fails on an unsupported engine kind has
    already made sure the application's directory exists: the directory is
    on disk afterwards, created empty if it was not there, while every
    artifact that was on disk before is untouched. *)
Theorem unsupported_kind_leaves_directory
    (app : Application.t) (db : Database.t) (w : World) :
  NoDup (Application.name <$> Config.applications cfg) →
  app ∈ Config.applications cfg →
  Application.database app = Some db →
  ¬ Spec.supported db →
  let run := createBackup cfg clock exec (Application.name app) w in
  run.1 = Throw (UnsupportedEngineKind (Database.type db))
  ∧ is_Some (fs run.2 !! Application.name app)
  ∧ (fs w !! Application.name app = None →
     fs run.2 !! Application.name app = Some ∅)
  ∧ ∀ a f, lookup_file (fs run.2) a f = lookup_file (fs w) a f.
Proof.
  intros Hnd Hin Hdb Hun run. subst run.
  rewrite (createBackup_unsupported cfg clock exec app db w Hnd Hin Hdb Hun).
  cbn [fst snd fs]. unfold ensure_dir. split; [done|].
  destruct (fs w !! Application.name app) as [d|] eqn:Hd.
  - split; [by rewrite Hd|]. by split.
  - rewrite lookup_insert_eq. split; [done|]. split; [done|].
    intros a f. unfold lookup_file.
    destruct (decide (a = Application.name app)) as [->|Ha].
    + by rewrite lookup_insert_eq, Hd.
    + by rewrite lookup_insert_ne.
Qed.

End OutcomeFacts.

(** ** Retention, seen through the listing *)

Section RetentionViews.

Import BackupService.

Variable cfg : Config.t.
Variable clock : nat → Z.

Lemma filter_fmap_comm {A B} (f : A → B) (P : B → Prop) `{!∀ x, Decision (P x)}
    (l : list A) :
  filter P (f <$> l) = f <$> filter (λ x, P (f x)) l.
Proof.
  induction l as [|x l IH]; [done|]. rewrite fmap_cons, !filter_cons.
  destruct (decide (P (f x))); by rewrite IH.
Qed.

Lemma map_to_list_filter_perm (P : string * FileStat → Prop)
    `{!∀ x, Decision (P x)} (d : gmap string FileStat) :
  map_to_list (filter P d) ≡ₚ filter P (map_to_list d).
Proof.
  rewrite map_filter_alt. apply map_to_list_to_map.
  eapply NoDup_fmap_fst.
  - intros k v1 v2 [_ H1]%list_elem_of_filter [_ H2]%list_elem_of_filter.
    apply elem_of_map_to_list in H1, H2. congruence.
  - apply NoDup_filter, NoDup_map_to_list.
Qed.

(** X11.  Listing an application, named by a plain path segment, before and
    after a cleanupOldBackups the host does not interfere with: the listing
    afterwards holds exactly the records of the listing before that were
    not created before the cutoff, and the number of records that went
    missing is the number cleanupOldBackups reports as deleted.  The cutoff
    is the local wall-clock time of now, moved back by the given number of
    calendar days and read back in the host's zone; when that leaves the
    range of [Date] nothing is before it, and on a host whose zone keeps one
    offset it is now minus that many times 24 hours. *)
Theorem cleanup_then_list (app : string) (days : Z) (w : World) :
  Posix.plain app = true →
  (∀ f, unlink_refused (host w) app f = None) →
  let now := clock (reads w) in
  let cutoff := Spec.cutoff (zone (host w)) now days in
  let run := cleanupOldBackups cfg clock app days w in
  (Date.steady (zone (host w)) →
   (Z.abs (now - days * Date.msPerDay) <= Date.maxTime)%Z →
   cutoff = Some (now - days * Date.msPerDay)%Z)
  ∧ ∃ before after n,
      listBackups cfg (Some app) w = (Ok before, w)
      ∧ run.1 = Ok n
      ∧ listBackups cfg (Some app) run.2 = (Ok after, run.2)
      ∧ after ≡ₚ filter (λ b, Date.before (created b) cutoff = false) before
      ∧ Forall (λ b, Date.before (created b) cutoff = false) after
      ∧ length before = n + length after.
Proof.
  intros Hplain Hfree now cutoff run. split; [apply cutoff_steady|].
  assert (Hne : app ≠ "") by (by apply plain_nonempty).
  subst run.
  rewrite (cleanup_run cfg clock app days w Hne) by (intros; apply Hfree).
  rewrite setDate_cutoff. fold now. fold cutoff. cbn [fst snd].
  rewrite !listBackups_app by done. cbn [fs].
  unfold Spec.artifacts, Spec.swept.
  destruct (fs w !! app) as [d|] eqn:Hd.
  - rewrite lookup_insert_eq. cbn [default].
    eexists _, _, _. split; [done|]. split; [done|]. split; [done|].
    assert (Hafter :
      sort_by_created
        (Spec.backup_of app <$>
           map_to_list (filter (λ kv, Date.before (birthtime kv.2) cutoff ≠ true) d))
      ≡ₚ filter (λ b, Date.before (created b) cutoff = false)
           (sort_by_created (Spec.backup_of app <$> map_to_list d))).
    { rewrite !sort_by_created_perm, filter_fmap_comm, map_to_list_filter_perm.
      apply eq_subrelation; [apply _|]. f_equal.
      apply list_filter_iff. intros [k v]. cbn. apply not_true_iff_false. }
    split; [done|]. split.
    + rewrite Hafter. apply Forall_forall. by intros b [? _]%list_elem_of_filter.
    + rewrite Hafter. change (id d) with d.
      rewrite <- (count_expired app cutoff d).
      rewrite <- (filter_app_complement (λ b, Date.before (created b) cutoff = true)
                    (sort_by_created (Spec.backup_of app <$> map_to_list d))) at 1.
      rewrite length_app. f_equal. f_equal.
      apply list_filter_iff. intros b. apply not_true_iff_false.
  - rewrite Hd. exists [], [], 0. cbn [default].
    rewrite map_to_list_empty. by repeat split.
Qed.

End RetentionViews.

(** ** The job table *)

Section SchedulerViews.

Import Scheduler.

Variable cfg : Config.t.
Variable validate : string → bool.

Lemma contributes_schedulable (apps : list Application.t) :
  flat_map (Spec.contributes validate) apps
  = (λ app, Spec.backup_job app (Views.declared app))
      <$> filter (λ app, Views.schedulable validate app = true) apps.
Proof.
  induction apps as [|a apps IH]; [done|]. cbn [flat_map]. rewrite IH.
  assert (Hs : Views.schedulable validate a = true
               → Spec.contributes validate a
                 = [Spec.backup_job a (Views.declared a)]).
  { unfold Views.schedulable, Spec.contributes, Views.declared.
    destruct (Spec.cadence a) as [s|]; [|done]. by intros ->. }
  assert (Hn : Views.schedulable validate a ≠ true
               → Spec.contributes validate a = []).
  { unfold Views.schedulable, Spec.contributes.
    destruct (Spec.cadence a) as [s|]; [|done]. by destruct (validate s). }
  destruct (decide (Views.schedulable validate a = true)) as [Ha|Ha].
  - by rewrite filter_cons_True, fmap_cons, Hs.
  - by rewrite filter_cons_False, Hn.
Qed.

(** X12.  init adds its jobs behind the ones already in the table and never
    looks at them: the table after init is the old table followed by the
    table a first init builds.  So a second init without stopAll schedules
    every job twice, while an init after stopAll builds the same table as
    the first one. *)
Theorem init_appends (jobs : list Job) :
  init cfg validate jobs = jobs ++ init cfg validate []
  ∧ init cfg validate (init cfg validate [])
    = init cfg validate [] ++ init cfg validate []
  ∧ init cfg validate (stopAll jobs) = init cfg validate [].
Proof.
  split; [|split].
  - by rewrite (init_contributes cfg validate jobs), (init_contributes cfg validate []).
  - by rewrite (init_contributes cfg validate (init cfg validate [])),
      (init_contributes cfg validate []).
  - done.
Qed.

(** X13.  The job table a first init builds, as getJobs reports it, lists
    the applications that declare a cadence expression accepted by
    cron.validate, in roster order, each with type "backup" and its own
    cadence expression; every schedule in the table passes cron.validate. *)
Theorem init_table_in_roster_order :
  getJobs (init cfg validate [])
  = (λ app, (Application.name app, "backup", Views.declared app))
      <$> filter (λ app, Views.schedulable validate app = true)
            (Config.applications cfg)
  ∧ Forall (λ j, validate (schedule j) = true) (init cfg validate []).
Proof.
  rewrite (init_contributes cfg validate []), app_nil_l, contributes_schedulable.
  split.
  - unfold getJobs. rewrite <- list_fmap_compose. by apply list_fmap_ext.
  - apply Forall_forall. intros j (app & -> & Happ)%list_elem_of_fmap.
    apply list_elem_of_filter in Happ as [Hs _]. cbn.
    unfold Views.schedulable, Views.declared in *.
    by destruct (Spec.cadence app).
Qed.

(** X14.  The default cadence is reachable only by calling scheduleBackup
    directly.  For an application whose database descriptor omits the
    cadence expression (or has an empty one), scheduleBackup adds a job
    running on the configured default cadence, provided that default passes
    cron.validate; the step init takes for the same application adds
    nothing. *)
Theorem default_cadence_only_on_direct_call
    (jobs : list Job) (app : Application.t) (db : Database.t) :
  Application.database app = Some db →
  Database.backupSchedule db = None ∨ Database.backupSchedule db = Some "" →
  validate (Config.defaultSchedule cfg) = true →
  scheduleBackup cfg validate jobs app db
  = jobs ++ [ {| application := Application.name app;
                 type := "backup";
                 schedule := Config.defaultSchedule cfg |} ]
  ∧ init_step cfg validate jobs app = jobs.
Proof.
  intros Hdb Homit Hvalid. unfold init_step, scheduleBackup. rewrite Hdb.
  destruct Homit as [-> | ->]; cbn; by rewrite Hvalid.
Qed.

End SchedulerViews.

(** ** The container poll and its views *)

Section ContainerFacts.

Import Containers.

Variable cfg : Config.t.
Variable clock : nat → float.
Variable probe : Summary → Probe.

Lemma substring_length (n : nat) (s : string) :
  String.length (String.substring 0 n s) ≤ n.
Proof.
  revert s. induction n as [|n IH]; intros [|c s]; cbn; try lia.
  specialize (IH s). lia.
Qed.

Lemma describe_name (c : Summary) :
  name (describe cfg probe c) = DockerMonitor.cleanName (Name c)
  ∧ String.length (id (describe cfg probe c)) ≤ 12.
Proof.
  unfold describe. destruct (probe c); cbn; split; try done;
    apply substring_length.
Qed.

Lemma describe_application (c : Summary) :
  application_of (describe cfg probe c) =
  match probe c with
  | Probed _ _ _ => Some (DockerMonitor.application cfg (Name c))
  | Failed _ => None
  end.
Proof. unfold describe, application_of. by destruct (probe c). Qed.

(** X15.  A poll whose container listing succeeds never fails, whatever the
    per-container calls do: it returns one record per listed container, in
    listing order, named by the raw name without its first slash and
    identified by at most twelve characters.  A container whose stats or
    inspect call threw gets an error record; every other record carries the
    application its raw name is attributed to.  The records become the
    cache.  A poll whose listing fails rethrows and leaves the cache as it
    was. *)
Theorem poll_survives_failed_probes (l : list Summary) (s : Cache) :
  (∃ rs s',
     getContainers cfg clock probe (Listed l) s = (inl rs, s')
     ∧ Forall2
         (λ c r,
            name r = DockerMonitor.cleanName (Name c)
            ∧ String.length (id r) ≤ 12
            ∧ (∀ m, probe c = Failed m →
                 outcome r = Errored "Could not fetch detailed stats")
            ∧ (∀ st rx tx, probe c = Probed st rx tx →
                 application_of r = Some (DockerMonitor.application cfg (Name c))))
         l rs
     ∧ cachedContainers s' = Some rs
     ∧ lastUpdate s' = Some (clock (reads s)))
  ∧ ∀ m, getContainers cfg clock probe (Unreachable m) s = (inr m, s).
Proof.
  split; [|done]. eexists _, _. split; [done|]. split; [|done].
  apply Forall2_fmap_r, Forall_Forall2_diag, Forall_forall. intros c _.
  destruct (describe_name c) as [Hn Hi]. split; [done|]. split; [done|].
  split.
  - intros m Hm. unfold describe. by rewrite Hm.
  - intros st rx tx Hp. by rewrite describe_application, Hp.
Qed.

Lemma List_filter_iff {A} (p : A → bool) (P : A → Prop) `{!∀ x, Decision (P x)}
    (l : list A) :
  (∀ x, p x = true ↔ P x) → List.filter p l = filter P l.
Proof.
  intros Hiff. induction l as [|x l IH]; [done|]. cbn [List.filter].
  rewrite filter_cons, IH. destruct (p x) eqn:Hp.
  - by rewrite decide_True by (by apply Hiff).
  - rewrite decide_False; [done|]. intros HP%Hiff. congruence.
Qed.

(** X16.  The view of one application is the polled records attributed to
    that application, each as often as it was polled and in polling order:
    the sequence of polled records with the others left out.  A container
    whose stats or inspect call threw is in no view at all, not even the
    view of "unknown"; every other container is in the view of the
    application its name is attributed to. *)
Theorem application_view (appName : string) (l : list Summary) (s : Cache) :
  ∃ rs,
    (getContainersByApplication cfg clock probe appName (Listed l) s).1 = inl rs
    ∧ rs = filter (λ r, application_of r = Some appName) (describe cfg probe <$> l)
    ∧ (∀ r, r ∈ rs ↔ r ∈ describe cfg probe <$> l ∧ application_of r = Some appName)
    ∧ (∀ c m, probe c = Failed m → describe cfg probe c ∉ rs)
    ∧ (∀ c st rx tx, c ∈ l → probe c = Probed st rx tx →
         DockerMonitor.application cfg (Name c) = appName →
         describe cfg probe c ∈ rs).
Proof.
  unfold getContainersByApplication, getContainers. cbn [fst].
  eexists. split; [done|].
  split.
  { apply List_filter_iff. intros r. destruct (application_of r) as [a|]; [|done].
    rewrite String.eqb_eq. split; congruence. }
  assert (Hview : ∀ r,
    r ∈ List.filter
          (λ c, match application_of c with
                | Some a => String.eqb a appName
                | None => false
                end) (describe cfg probe <$> l)
    ↔ r ∈ describe cfg probe <$> l ∧ application_of r = Some appName).
  { intros r. rewrite !list_elem_of_In, filter_In. split.
    - intros [Hin Hm]. split; [done|].
      destruct (application_of r) as [a|]; [|done].
      by apply String.eqb_eq in Hm as ->.
    - intros [Hin ->]. split; [done|]. apply String.eqb_refl. }
  split; [done|]. split.
  - intros c m Hm [_ Happ]%Hview. by rewrite describe_application, Hm in Happ.
  - intros c st rx tx Hc Hp Happ. apply Hview. split.
    + by apply list_elem_of_fmap_2.
    + by rewrite describe_application, Hp, Happ.
Qed.

Lemma find_ext {A} (p q : A → bool) (l : list A) :
  (∀ x, p x = q x) → List.find p l = List.find q l.
Proof. intros H. induction l as [|x l IH]; [done|]. cbn. by rewrite H, IH. Qed.

(** X17.  getContainerByName returns the first polled record, in polling
    order, whose name contains the given text: an exact match is not
    preferred over an earlier container whose name merely contains the
    text, and the empty text selects the first record of the poll. *)
Theorem container_by_name (n : string) (l : list Summary) (s : Cache) :
  (getContainerByName cfg clock probe n (Listed l) s).1
  = inl (List.find (λ c, JS.includes (name c) n) (describe cfg probe <$> l))
  ∧ (n = "" →
     (getContainerByName cfg clock probe n (Listed l) s).1
     = inl (head (describe cfg probe <$> l))).
Proof.
  unfold getContainerByName, getContainers. cbn [fst].
  assert (E : ∀ c : Container,
    String.eqb (name c) n || JS.includes (name c) n = JS.includes (name c) n).
  { intros c. destruct (String.eqb_spec (name c) n) as [->|]; [|done].
    by rewrite includes_self. }
  rewrite (find_ext _ _ _ E). split; [done|]. intros ->. f_equal.
  destruct (describe cfg probe <$> l) as [|c rs]; [done|].
  cbn [List.find head]. by rewrite includes_empty.
Qed.

(** X18.  The container cache.  A fresh monitor has nothing cached and does
    not read the clock to say so.  After a successful poll at a truthy
    instant (any instant but the epoch itself), getCachedContainers returns
    exactly the records of that poll while the time elapsed since the poll
    is below maxAge, and null once it is not. *)
Theorem cached_containers (maxAge : float) (l : list Summary) (s : Cache) :
  getCachedContainers clock maxAge init = (None, init)
  ∧ (Num.truthy (clock (reads s)) = true →
     let polled := (getContainers cfg clock probe (Listed l) s).2 in
     let age := (clock (S (reads s)) - clock (reads s))%float in
     ((age <? maxAge)%float = true →
        (getCachedContainers clock maxAge polled).1 = Some (describe cfg probe <$> l))
     ∧ ((age <? maxAge)%float = false →
        (getCachedContainers clock maxAge polled).1 = None)).
Proof.
  split; [done|]. intros Ht polled age. subst polled age.
  unfold getCachedContainers, getContainers.
  cbn [snd lastUpdate reads cachedContainers]. rewrite Ht.
  split; by intros ->.
Qed.

End ContainerFacts.

(** ** Network totals *)

Section TotalsFacts.

Import NetworkMonitor.

Variable clock : nat → float.

Lemma observe_unseen (s : State) (i : Iface) :
  lookup s (iface i) = Missing →
  NetworkMonitor.rxSpeed (observe clock s i).1 = 0%float
  ∧ NetworkMonitor.txSpeed (observe clock s i).1 = 0%float.
Proof. intros H. unfold observe, rates. by rewrite H. Qed.

(** Storing the sample of an interface that was new does not make another
    new interface look known. *)
Lemma observe_keeps_unseen (s : State) (i : Iface) (n : string) :
  lookup s (iface i) = Missing →
  lookup s n = Missing → n ≠ iface i →
  lookup (observe clock s i).2 n = Missing.
Proof.
  intros Hi Hn Hne. unfold observe. destruct (rates clock s i) as [[rx tx] k].
  cbn [snd]. unfold lookup, store in *.
  destruct (String.eqb_spec (iface i) "__proto__") as [E|E];
    [by destruct (prototype s)|].
  cbn [previousStats prototype].
  destruct (String.eqb_spec n "__proto__") as [|En]; [done|].
  by rewrite lookup_insert_ne.
Qed.

Lemma first_poll_rates (l : list Iface) :
  ∀ s, NoDup (iface <$> l) →
  (∀ i, i ∈ l → lookup s (iface i) = Missing) →
  Forall (λ r, NetworkMonitor.rxSpeed r = 0%float ∧ NetworkMonitor.txSpeed r = 0%float)
         (getNetworkStats clock s l).1.
Proof.
  induction l as [|i l IH]; intros s Hnd Hnew; [constructor|].
  rewrite fmap_cons in Hnd. apply NoDup_cons in Hnd as [Hfresh Hnd].
  cbn [getNetworkStats].
  destruct (observe_unseen s i) as (Hrx & Htx); [apply Hnew; by left|].
  pose proof (λ n, observe_keeps_unseen s i n (Hnew i ltac:(by left))) as Hkeep.
  destruct (observe clock s i) as [r s1]. cbn [fst snd] in *.
  specialize (IH s1 Hnd).
  destruct (getNetworkStats clock s1 l) as [rs s2]. cbn [fst] in *.
  constructor; [done|]. apply IH. intros j Hj. apply Hkeep.
  - apply Hnew. by right.
  - intros E. apply Hfresh. rewrite <- E. by apply list_elem_of_fmap_2.
Qed.

Lemma totals_of_idle (rs : list Report) (acc : NetworkTotals.Totals) :
  Forall (λ r, NetworkMonitor.rxSpeed r = 0%float ∧ NetworkMonitor.txSpeed r = 0%float) rs →
  NetworkTotals.rxSpeed acc = 0%float → NetworkTotals.txSpeed acc = 0%float →
  NetworkTotals.rxSpeed (fold_left NetworkTotals.add rs acc) = 0%float
  ∧ NetworkTotals.txSpeed (fold_left NetworkTotals.add rs acc) = 0%float.
Proof.
  revert acc. induction rs as [|r rs IH]; intros acc Hrs Hrx Htx; [done|].
  apply Forall_cons in Hrs as [[Hr Ht] Hrs]. cbn [fold_left].
  apply IH; [done|..]; cbn; rewrite ?Hrx, ?Htx, ?Hr, ?Ht; reflexivity.
Qed.

(** X19.  The first poll of a monitor whose cache object holds nothing, own
    or inherited, under the names of the polled interfaces, each interface
    occurring once: every interface is reported with rx and tx rates of 0,
    the total rates getTotalTraffic reports are 0, and afterwards every
    polled interface has a cache entry holding its byte counters.  A fresh
    monitor is in that state for every interface whose name is not the name
    of a member of [Object.prototype]. *)
Theorem first_poll_is_idle (s : State) (l : list Iface) :
  NoDup (iface <$> l) →
  (∀ i, i ∈ l → lookup s (iface i) = Missing) →
  Forall (λ r, NetworkMonitor.rxSpeed r = 0%float ∧ NetworkMonitor.txSpeed r = 0%float)
         (getNetworkStats clock s l).1
  ∧ NetworkTotals.rxSpeed (NetworkTotals.getTotalTraffic clock s l).1 = 0%float
  ∧ NetworkTotals.txSpeed (NetworkTotals.getTotalTraffic clock s l).1 = 0%float
  ∧ (NetworkTotals.getTotalTraffic clock s l).2 = (getNetworkStats clock s l).2
  ∧ (∀ i, i ∈ l →
      Spec.counters <$> Spec.cached (getNetworkStats clock s l).2 (iface i)
      = Some (rx_bytes i, tx_bytes i))
  ∧ (∀ n, n ∉ inherited_names → lookup init n = Missing).
Proof.
  intros Hnd Hnew. pose proof (first_poll_rates l s Hnd Hnew) as Hidle.
  split; [done|]. unfold NetworkTotals.getTotalTraffic.
  destruct (getNetworkStats clock s l) as [rs s'] eqn:Hpoll. cbn [fst snd] in *.
  destruct (totals_of_idle rs NetworkTotals.zero Hidle eq_refl eq_refl) as [Hrx Htx].
  split; [done|]. split; [done|]. split; [done|].
  split; [|by intros n Hn; rewrite fresh_lookup, bool_decide_eq_false_2].
  intros i Hi.
  replace s' with (getNetworkStats clock s l).2 by by rewrite Hpoll.
  rewrite getNetworkStats_cache.
  assert (Hlatest : ∀ j, Spec.latest l (iface i) = Some j → j = i).
  { clear -Hnd Hi. induction l as [|k l IH]; [by apply elem_of_nil in Hi|].
    rewrite fmap_cons in Hnd. apply NoDup_cons in Hnd as [Hfresh Hnd].
    intros j. cbn [Spec.latest].
    destruct (Spec.latest l (iface i)) as [j'|] eqn:Hl.
    - intros [= <-]. apply elem_of_cons in Hi as [->|Hi]; [|by apply IH].
      exfalso. apply Hfresh. clear -Hl.
      induction l as [|k' l IH]; [done|]. cbn [Spec.latest] in Hl.
      destruct (Spec.latest l (iface k)) as [j''|].
      + rewrite fmap_cons. right. by apply IH.
      + destruct (String.eqb_spec (iface k') (iface k)) as [E|]; [|done].
        rewrite fmap_cons, E. by left.
    - destruct (String.eqb_spec (iface k) (iface i)) as [E|]; [|done].
      intros [= <-]. apply elem_of_cons in Hi as [->|Hi]; [done|].
      exfalso. apply Hfresh. rewrite E. by apply list_elem_of_fmap_2. }
  assert (Hsome : is_Some (Spec.latest l (iface i))).
  { clear -Hi. induction l as [|k l IH]; [by apply elem_of_nil in Hi|].
    cbn [Spec.latest]. destruct (Spec.latest l (iface i)); [by eexists|].
    apply elem_of_cons in Hi as [->|Hi].
    - rewrite String.eqb_refl. by eexists.
    - by destruct (IH Hi). }
  destruct Hsome as [j Hj]. rewrite Hj. by rewrite (Hlatest j Hj).
Qed.

End TotalsFacts.

(** ** Authentication *)

Section AuthFacts.

Import Auth.

(** X20.  The configured key is never empty: an unset or empty API_KEY
    means "default-insecure-key".  A request passes the middleware exactly
    when its X-API-Key header is present and equal to the configured key;
    every other request, in particular one without the header or with an
    empty one, is answered 401. *)
Theorem authentication (API_KEY header : option string) :
  apiKey API_KEY ≠ ""
  ∧ (API_KEY = None ∨ API_KEY = Some "" → apiKey API_KEY = "default-insecure-key")
  ∧ (authenticate (apiKey API_KEY) header = Next ↔ header = Some (apiKey API_KEY))
  ∧ (header ≠ Some (apiKey API_KEY) →
     ∃ error, authenticate (apiKey API_KEY) header = Rejected 401 error).
Proof.
  assert (Hne : apiKey API_KEY ≠ "").
  { unfold apiKey, JS.string_or, JS.truthy_string.
    destruct API_KEY as [k|]; [|done]. by destruct (String.eqb_spec k ""). }
  assert (Hiff : authenticate (apiKey API_KEY) header = Next
                 ↔ header = Some (apiKey API_KEY)).
  { unfold authenticate, JS.truthy_string. destruct header as [h|]; [|done].
    destruct (String.eqb_spec h "") as [->|Hh]; cbn [negb orb].
    - split; [done|]. intros [= E]. by destruct Hne.
    - destruct (String.eqb_spec h (apiKey API_KEY)) as [->|Hk]; cbn [negb];
        split; try done. by intros [= ?]. }
  split; [done|]. split; [by intros [-> | ->]|]. split; [done|].
  intros Hh.
  destruct (authenticate (apiKey API_KEY) header) as [|st e] eqn:E.
  - destruct Hh. by apply Hiff.
  - exists e. unfold authenticate in E. by repeat case_match; simplify_eq.
Qed.

End AuthFacts.

(** ** The backup routes *)

Section RouteFacts.

Import BackupService.

Variable cfg : Config.t.
Variable clock : nat → Z.
Variable exec : string → gmap string (gmap string FileStat)
                → ExecResult * gmap string (gmap string FileStat).

Lemma respond_reports {A} (action : M A) (w : World) :
  Answers.reports (Routes.respond action w).1 (action w).1
  ∧ (Routes.respond action w).2 = (action w).2.
Proof.
  unfold Routes.respond, Answers.reports.
  destruct (action w) as [[a|e] w']; cbn [fst snd]; [done|].
  split; [|done]. unfold Routes.errorHandler, JS.string_or, JS.truthy_string.
  destruct (String.eqb_spec (message e) "") as [E|E]; cbn [negb];
    by case_decide.
Qed.

(** X21.  The create, restore and delete routes answer with the service's
    result when there is one, and answer every failure of the backup service
    with status 500 and the error's message (a stock text when the message
    is empty); the world after the route is the world the service left.  In
    particular a name that no application of the roster bears gets a 500
    from the create route, although the per-application status route answers
    the same name with a 404. *)
Theorem service_failures_answer_500 (n filename : string) (w : World) :
  (Answers.reports (Routes.create cfg clock exec n w).1
                   (createBackup cfg clock exec n w).1
   ∧ (Routes.create cfg clock exec n w).2 = (createBackup cfg clock exec n w).2)
  ∧ (Answers.reports (Routes.restore cfg clock exec n filename w).1
                     (restoreBackup cfg clock exec n filename w).1
     ∧ (Routes.restore cfg clock exec n filename w).2
       = (restoreBackup cfg clock exec n filename w).2)
  ∧ (Answers.reports (Routes.delete_backup cfg n filename w).1
                     (deleteBackup cfg n filename w).1
     ∧ (Routes.delete_backup cfg n filename w).2 = (deleteBackup cfg n filename w).2)
  ∧ ((∀ a, a ∈ Config.applications cfg → Application.name a ≠ n) →
     Routes.create cfg clock exec n w
     = (Routes.Refused 500 ("Application " +:+ n +:+ " not found in configuration"), w)
     ∧ Routes.status_app cfg n w
       = (Routes.Refused 404 ("Application " +:+ n +:+ " not found"), w)).
Proof.
  split; [apply respond_reports|]. split; [apply respond_reports|].
  split; [apply respond_reports|].
  intros Hnone. split.
  - unfold Routes.create, Routes.respond, createBackup, find_application.
    by rewrite (find_none _ _ Hnone).
  - unfold Routes.status_app, find_application.
    destruct (listBackups_pure cfg (Some n) w) as [bs ->].
    by rewrite (find_none _ _ Hnone).
Qed.

Lemma filter_split_length {A} (p : A → bool) (l : list A) :
  length (List.filter p l) + length (List.filter (λ x, negb (p x)) l) = length l.
Proof.
  induction l as [|x l IH]; [done|]. cbn. destruct (p x); cbn; lia.
Qed.

(** X22.  The create-all route never answers with a failure.  Its result
    list has one entry per application that carries a database descriptor,
    and the two counts in its message add up to that number. *)
Theorem create_all_counts (w : World) :
  ∃ message results w',
    Routes.create_all cfg clock exec w = (Routes.Replied (message, results), w')
    ∧ (createAllBackups cfg clock exec w) = (Ok results, w')
    ∧ message
      = "Backup completed: "
        +:+ pretty (length (List.filter entry_success results)) +:+ " succeeded, "
        +:+ pretty (length (List.filter (λ r, negb (entry_success r)) results))
        +:+ " failed"
    ∧ length (List.filter entry_success results)
      + length (List.filter (λ r, negb (entry_success r)) results)
      = length (filter (λ a, is_Some (Application.database a))
                  (Config.applications cfg)).
Proof.
  destruct (backup_each_attempts cfg clock exec (Config.applications cfg) w)
    as (entries & w' & Hrun & _ & Hnames).
  eexists _, entries, w'. unfold Routes.create_all, Routes.respond, bind.
  unfold createAllBackups. rewrite Hrun. unfold ret.
  split; [done|]. split; [done|]. split; [done|].
  rewrite filter_split_length.
  by rewrite <- (length_fmap entry_application), Hnames, length_fmap.
Qed.

Lemma List_filter_stdpp {A} (p : A → bool) (l : list A) :
  List.filter p l = filter (λ x, p x = true) l.
Proof.
  induction l as [|x l IH]; [done|]. cbn [List.filter]. rewrite filter_cons, IH.
  destruct (p x); by case_decide.
Qed.

Lemma newest_first_filter (P : Backup → Prop) `{!∀ b, Decision (P b)}
    (l : list Backup) :
  Views.newest_first l → Views.newest_first (filter P l).
Proof.
  unfold Views.newest_first. induction 1 as [|b l Hl IH Hb]; [constructor|].
  rewrite filter_cons. destruct (decide (P b)); [|done].
  constructor; [done|]. apply Forall_forall. intros c [_ Hc]%list_elem_of_filter.
  by eapply Forall_forall in Hb.
Qed.

(** The records of one directory among the records of the whole tree. *)
Lemma all_backups_of (t : gmap string (gmap string FileStat)) (n : string) (b : Backup) :
  b ∈ filter (λ b, String.eqb (b_application b) n = true)
        (sort_by_created (Views.all_backups t))
  ↔ ∃ f st, Spec.artifacts t n !! f = Some st ∧ b = Spec.backup_of n (f, st).
Proof.
  rewrite list_elem_of_filter, sort_by_created_perm. unfold Views.all_backups.
  rewrite list_elem_of_In, in_flat_map, String.eqb_eq. unfold Spec.artifacts. split.
  - intros [Hn ([a d] & Had%list_elem_of_In & Hb%list_elem_of_In)].
    apply elem_of_map_to_list in Had. cbn in Hb.
    apply list_elem_of_fmap in Hb as ([f st] & -> & Hf).
    apply elem_of_map_to_list in Hf. cbn in Hn. subst a.
    exists f, st. by rewrite Had.
  - intros (f & st & Hst & ->). split; [done|].
    destruct (t !! n) as [d|] eqn:Hd; [|done]. cbn in Hst.
    exists (n, d). split; apply list_elem_of_In.
    + by apply elem_of_map_to_list.
    + cbn. apply list_elem_of_fmap. exists (f, st). split; [done|].
      by apply elem_of_map_to_list.
Qed.

Lemma all_backups_NoDup (t : gmap string (gmap string FileStat)) :
  NoDup (Views.all_backups t).
Proof.
  unfold Views.all_backups.
  assert (H : ∀ l : list (string * gmap string FileStat), NoDup l.*1 →
    NoDup (flat_map (λ ad, Spec.backup_of ad.1 <$> map_to_list ad.2) l)).
  { induction l as [|[a d] l IH]; intros Hnd; [constructor|].
    rewrite fmap_cons in Hnd. apply NoDup_cons in Hnd as [Hfresh Hnd].
    cbn [flat_map fst snd]. apply NoDup_app. split; [|split; [|by apply IH]].
    - apply NoDup_fmap_2_strong; [|apply NoDup_map_to_list].
      intros [k v] [k' v'] _ _ [= -> Hs Hb]. f_equal.
      destruct v, v'. cbn in *. by subst.
    - intros b ([k v] & -> & _)%list_elem_of_fmap
        ([a' d'] & Hin%list_elem_of_In & Hb%list_elem_of_In)%list_elem_of_In%in_flat_map.
      cbn in Hb. apply list_elem_of_fmap in Hb as ([k' v'] & [= -> _ _ _] & _).
      apply Hfresh. by apply (list_elem_of_fmap_2 fst) in Hin. }
  apply H, NoDup_fst_map_to_list.
Qed.

Lemma backup_of_NoDup (n : string) (d : gmap string FileStat) :
  NoDup (Spec.backup_of n <$> map_to_list d).
Proof.
  apply NoDup_fmap_2_strong; [|apply NoDup_map_to_list].
  intros [k v] [k' v'] _ _ [= -> Hs Hb]. f_equal.
  destruct v, v'. cbn in *. by subst.
Qed.

(** The records the status route selects for one application. *)
Lemma status_selection (t : gmap string (gmap string FileStat)) (n : string) :
  let appBackups :=
    List.filter (λ b, String.eqb (b_application b) n)
                (sort_by_created (Views.all_backups t)) in
  appBackups ≡ₚ Spec.backup_of n <$> map_to_list (Spec.artifacts t n)
  ∧ Views.newest_first appBackups.
Proof.
  intros appBackups. subst appBackups. rewrite List_filter_stdpp. split.
  - apply NoDup_Permutation.
    + apply NoDup_filter. rewrite sort_by_created_perm. apply all_backups_NoDup.
    + apply backup_of_NoDup.
    + intros b. rewrite all_backups_of, list_elem_of_fmap. split.
      * intros (f & st & Hst & ->). exists (f, st). split; [done|].
        by apply elem_of_map_to_list.
      * intros ([f st] & -> & Hst%elem_of_map_to_list). by exists f, st.
  - apply newest_first_filter, sort_by_created_sorted.
Qed.

(** X23.  The status route never answers with a failure and leaves the
    world alone.  It reports one entry per roster application, in roster
    order; the entry's totalBackups is the number of files in the directory
    that bears the application's name, its latestBackup is null exactly when
    that directory is missing or empty, and otherwise describes a file of
    that directory whose creation instant no other file of the directory
    exceeds. *)
Theorem status_reports_newest (jobs : list Scheduler.Job) (w : World) :
  ∃ statuses,
    Routes.status cfg jobs w = (Routes.Replied (statuses, Scheduler.getJobs jobs), w)
    ∧ Forall2
        (λ app st,
           let d := Spec.artifacts (fs w) (Application.name app) in
           Routes.application st = Application.name app
           ∧ Routes.totalBackups st = length (map_to_list d)
           ∧ (Routes.latestBackup st = None ↔ d = ∅)
           ∧ ∀ f sz c, Routes.latestBackup st = Some (f, sz, c) →
               d !! f = Some {| size := sz; birthtime := c |}
               ∧ map_Forall (λ _ st', (birthtime st' <= c)%Z) d)
        (Config.applications cfg) statuses.
Proof.
  eexists. unfold Routes.status, Routes.respond, bind.
  rewrite (listBackups_every cfg None w) by (by left). unfold ret.
  split; [done|].
  apply Forall2_fmap_r, Forall_Forall2_diag, Forall_forall. intros app _.
  unfold compose. cbv beta.
  set (d := Spec.artifacts (fs w) (Application.name app)).
  unfold Routes.status_of. cbn [Routes.application Routes.totalBackups Routes.latestBackup].
  destruct (status_selection (fs w) (Application.name app)) as [Hperm Hsorted].
  cbv zeta in Hperm, Hsorted. fold d in Hperm.
  set (appBackups := List.filter _ _) in *.
  split; [done|]. split; [|split].
  - by rewrite Hperm, length_fmap.
  - split.
    + intros Hnone. destruct appBackups as [|b bs] eqn:E; [|done].
      symmetry in Hperm. apply Permutation_nil_r in Hperm.
      apply fmap_nil_inv in Hperm. by apply map_to_list_empty_iff.
    + intros Hd. rewrite Hd, map_to_list_empty in Hperm.
      by apply Permutation_nil_r in Hperm as ->.
  - intros f sz c Hlatest. destruct appBackups as [|b bs] eqn:E; [done|].
    cbn in Hlatest. injection Hlatest as <- <- <-.
    assert (Hin : ∀ b', b' ∈ b :: bs ↔
              ∃ kv, b' = Spec.backup_of (Application.name app) kv ∧ kv ∈ map_to_list d).
    { intros b'. by rewrite Hperm, list_elem_of_fmap. }
    split.
    + destruct (proj1 (Hin b)) as ([k [sz c]] & -> & Hk); [by left|].
      by apply elem_of_map_to_list in Hk.
    + intros k st' Hk. apply StronglySorted_inv in Hsorted as [_ Hb].
      assert (Hmem : Spec.backup_of (Application.name app) (k, st') ∈ b :: bs).
      { apply Hin. exists (k, st'). split; [done|]. by apply elem_of_map_to_list. }
      apply elem_of_cons in Hmem as [<-|Hmem]; [cbn; lia|].
      by apply (proj1 (Forall_forall _ _) Hb) in Hmem.
Qed.

End RouteFacts.

(** ** Runs on the sample roster *)

Section FurtherRuns.

Import BackupService.

Lemma sample_has_no_ghost :
  ∀ a, a ∈ Config.applications Sample.cfg → Application.name a ≠ "ghost".
Proof.
  intros a Ha. repeat (apply elem_of_cons in Ha as [->|Ha]; [discriminate|]).
  by apply elem_of_nil in Ha.
Qed.

(** [listBackups_newest_first] on the three artifacts of [shop]. *)
Lemma listBackups_newest_first_witness :
  ∃ bs, listBackups Sample.cfg (Some "shop") (Sample.world Sample.aged)
        = (Ok bs, Sample.world Sample.aged)
        ∧ length bs = 3
        ∧ Views.newest_first bs.
Proof.
  destruct (listBackups_newest_first Sample.cfg "shop" (Sample.world Sample.aged)
              eq_refl) as (bs & Hrun & Hperm & Hsorted & _).
  exists bs. split; [exact Hrun|]. split; [|exact Hsorted].
  rewrite Hperm. vm_compute. reflexivity.
Defined.

(** [deleteBackup_outcomes] on the eight-day-old artifact of [shop], on a
    file that is not there, and on a host that keeps the directory
    read-only. *)
Lemma deleteBackup_outcomes_witness :
  (∃ w', deleteBackup Sample.cfg "shop" "d8.sql.gz" (Sample.world Sample.aged) = (Ok true, w')
         ∧ lookup_file (fs w') "shop" "d8.sql.gz" = None
         ∧ lookup_file (fs w') "shop" "d1.sql.gz"
           = lookup_file Sample.aged "shop" "d1.sql.gz")
  ∧ deleteBackup Sample.cfg "shop" "d9.sql.gz" (Sample.world Sample.aged)
    = (Throw (FilesystemFailure ENOENT "unlink" "backups/shop/d9.sql.gz"),
       Sample.world Sample.aged)
  ∧ (deleteBackup Sample.cfg "shop" "d8.sql.gz" (Sample.locked Sample.aged)).1
    = Throw (FilesystemFailure EACCES "unlink" "backups/shop/d8.sql.gz").
Proof.
  split; [|split].
  - destruct (proj1 (deleteBackup_outcomes Sample.cfg "shop" "d8.sql.gz"
                       (Sample.world Sample.aged) eq_refl eq_refl)
                {| size := 10; birthtime := Sample.start - 8 * Sample.day |}
                ltac:(vm_compute; reflexivity) eq_refl)
      as (w' & Hrun & Hgone & _ & Hrest & _).
    exists w'. split; [exact Hrun|]. split; [exact Hgone|].
    apply Hrest. discriminate.
  - exact (proj2 (proj2 (deleteBackup_outcomes Sample.cfg "shop" "d9.sql.gz"
                    (Sample.world Sample.aged) eq_refl eq_refl))
             ltac:(vm_compute; reflexivity)).
  - exact (f_equal fst
             (proj1 (proj2 (deleteBackup_outcomes Sample.cfg "shop" "d8.sql.gz"
                       (Sample.locked Sample.aged) eq_refl eq_refl))
                {| size := 10; birthtime := Sample.start - 8 * Sample.day |} EACCES
                ltac:(vm_compute; reflexivity) eq_refl)).
Defined.

(** [unknown_application_rejected] on a name the sample roster lacks. *)
Lemma unknown_application_rejected_witness :
  createBackup Sample.cfg Sample.clock (Sample.shell "backups" (λ _, 120%Z) Sample.start)
    "ghost" (Sample.world Sample.aged)
  = (Throw (ApplicationNotFound "ghost"), Sample.world Sample.aged)
  ∧ restoreBackup Sample.cfg Sample.clock (Sample.shell "backups" (λ _, 120%Z) Sample.start)
      "ghost" "d1.sql.gz" (Sample.world Sample.aged)
    = (Throw (ApplicationNotFound "ghost"), Sample.world Sample.aged).
Proof.
  exact (unknown_application_rejected Sample.cfg Sample.clock
           (Sample.shell "backups" (λ _, 120%Z) Sample.start)
           "ghost" "d1.sql.gz" (Sample.world Sample.aged) sample_has_no_ghost).
Defined.

(** [createBackup_failed_dump] on [shop]: a shell that rejects the dump, and
    a shell that exits cleanly without leaving the file. *)
Lemma createBackup_failed_dump_witness :
  (createBackup Sample.cfg Sample.clock (λ _ t, (Rejected "no such container", t))
     "shop" (Sample.world ∅)).1
  = Throw (ProcessExecutionFailure "no such container")
  ∧ (createBackup Sample.cfg Sample.clock (λ _ t, (Exited "" "", t))
       "shop" (Sample.world ∅)).1
    = Throw (FilesystemFailure ENOENT "stat"
               "backups/shop/backup-2023-11-14T22-13-20-000Z.sql.gz").
Proof.
  pose (artifact := "backup-2023-11-14T22-13-20-000Z.sql.gz").
  pose (command := "docker exec shop-db pg_dump -U postgres shop | gzip > backups/shop/backup-2023-11-14T22-13-20-000Z.sql.gz").
  split.
  - pose proof (createBackup_failed_dump Sample.cfg Sample.clock
                  (λ _ t, (Rejected "no such container", t))
                  Sample.shop Sample.shop_db (Sample.world ∅) artifact command
                  sample_names_unique (proj1 sample_members) eq_refl
                  ltac:(vm_compute; reflexivity)) as H.
    cbv zeta in H. destruct H as [H _].
    exact (f_equal fst (H "no such container" eq_refl)).
  - pose proof (createBackup_failed_dump Sample.cfg Sample.clock
                  (λ _ t, (Exited "" "", t))
                  Sample.shop Sample.shop_db (Sample.world ∅) artifact command
                  sample_names_unique (proj1 sample_members) eq_refl
                  ltac:(vm_compute; reflexivity)) as H.
    cbv zeta in H. destruct H as [_ H].
    exact (f_equal fst (H "" "" eq_refl ltac:(vm_compute; reflexivity))).
Defined.

(** [createBackup_success_means] on a dump of 120 bytes for [shop]. *)
Lemma createBackup_success_means_witness :
  let run := createBackup Sample.cfg Sample.clock
               (Sample.shell "backups" (λ _, 120%Z) Sample.start)
               "shop" (Sample.world Sample.aged) in
  (∃ r, run.1 = Ok r ∧ application r = "shop" ∧ r_size r ≠ 0%Z)
  ∧ (∃ command, started run.2 = [command])
  ∧ reads run.2 = 3.
Proof.
  intros run.
  assert (E : run = (run.1, run.2)) by (by destruct run).
  destruct (run.1) as [r|e] eqn:E1; [|vm_compute in E1; discriminate E1].
  destruct (createBackup_success_means Sample.cfg Sample.clock
              (Sample.shell "backups" (λ _, 120%Z) Sample.start)
              "shop" (Sample.world Sample.aged) run.2 r E)
    as (_ & Happ & Hsize & Hcmd & Hreads).
  split; [exists r; split; [reflexivity|split; [exact Happ|exact Hsize]]|].
  split; [exact Hcmd|exact Hreads].
Defined.

(** [createBackup_enforces_retention] on [shop], whose retention is seven
    days: of the three older artifacts only the one-day-old survives the
    backup. *)
Lemma createBackup_enforces_retention_witness :
  let run := createBackup Sample.cfg Sample.clock
               (Sample.shell "backups" (λ _, 120%Z) Sample.start)
               "shop" (Sample.world Sample.aged) in
  (∀ f st, lookup_file (fs run.2) "shop" f = Some st →
     (Sample.start + 1000 - 7 * Date.msPerDay <= birthtime st)%Z)
  ∧ is_Some (lookup_file (fs run.2) "shop" "d1.sql.gz")
  ∧ lookup_file (fs run.2) "shop" "d8.sql.gz" = None.
Proof.
  intros run.
  assert (E : run = (run.1, run.2)) by (by destruct run).
  destruct (run.1) as [r|e] eqn:E1; [|vm_compute in E1; discriminate E1].
  split; [|split; [vm_compute; by eexists|vm_compute; reflexivity]].
  intros f st Hst.
  pose proof (createBackup_enforces_retention Sample.cfg Sample.clock
                (Sample.shell "backups" (λ _, 120%Z) Sample.start)
                Sample.shop Sample.shop_db (Sample.world Sample.aged) run.2 r
                sample_names_unique (proj1 sample_members) eq_refl eq_refl E
                f st Hst) as [_ H].
  exact (H (steady_fixed 0) ltac:(vm_compute; discriminate)).
Defined.

(** [restoreBackup_outcomes] on [shop]: the one-day-old artifact is fed to
    psql; a missing artifact is refused before anything is started. *)
Lemma restoreBackup_outcomes_witness :
  let exec := Sample.shell "backups" (λ _, 120%Z) Sample.start in
  restoreBackup Sample.cfg Sample.clock exec "shop" "d9.sql.gz" (Sample.world Sample.aged)
  = (Throw (FilesystemFailure ENOENT "access" "backups/shop/d9.sql.gz"),
     Sample.world Sample.aged)
  ∧ started (restoreBackup Sample.cfg Sample.clock exec "shop" "d1.sql.gz"
               (Sample.world Sample.aged)).2
    = ["gunzip < backups/shop/d1.sql.gz | docker exec -i shop-db psql -U postgres shop"]
  ∧ ∃ r, (restoreBackup Sample.cfg Sample.clock exec "shop" "d1.sql.gz"
            (Sample.world Sample.aged)).1 = Ok r
         ∧ backup r = "d1.sql.gz".
Proof.
  intros exec. split.
  - pose proof (restoreBackup_outcomes Sample.cfg Sample.clock exec
                  Sample.shop Sample.shop_db "d9.sql.gz"
                  "gunzip < backups/shop/d9.sql.gz | docker exec -i shop-db psql -U postgres shop"
                  (Sample.world Sample.aged)
                  sample_names_unique (proj1 sample_members) eq_refl
                  eq_refl eq_refl ltac:(vm_compute; reflexivity)) as H.
    cbv zeta in H. destruct H as [H _].
    exact (H ltac:(vm_compute; reflexivity)).
  - pose proof (restoreBackup_outcomes Sample.cfg Sample.clock exec
                  Sample.shop Sample.shop_db "d1.sql.gz"
                  "gunzip < backups/shop/d1.sql.gz | docker exec -i shop-db psql -U postgres shop"
                  (Sample.world Sample.aged)
                  sample_names_unique (proj1 sample_members) eq_refl
                  eq_refl eq_refl ltac:(vm_compute; reflexivity)) as H.
    cbv zeta in H. destruct H as [_ H].
    specialize (H ltac:(vm_compute; by eexists)).
    destruct H as (Hstarted & _ & Hok & _).
    split; [exact Hstarted|].
    destruct (Hok "" "" ltac:(vm_compute; reflexivity)) as (r & Hr & _ & Hb).
    exists r. split; [exact Hr|exact Hb].
Defined.

(** [unsupported_kind_leaves_directory] on [blog], whose engine kind is
    sqlite, with no backup tree yet. *)
Lemma unsupported_kind_leaves_directory_witness :
  let run := createBackup Sample.cfg Sample.clock
               (Sample.shell "backups" (λ _, 120%Z) Sample.start)
               "blog" (Sample.world ∅) in
  run.1 = Throw (UnsupportedEngineKind "sqlite")
  ∧ fs run.2 !! "blog" = Some ∅.
Proof.
  intros run.
  pose proof (unsupported_kind_leaves_directory Sample.cfg Sample.clock
                (Sample.shell "backups" (λ _, 120%Z) Sample.start)
                Sample.blog (default Sample.shop_db (Application.database Sample.blog))
                (Sample.world ∅)
                sample_names_unique (proj1 (proj2 sample_members)) eq_refl
                ltac:(apply (bool_decide_unpack _); vm_compute; exact I)) as H.
  cbv zeta in H. destruct H as (Hrun & _ & Hdir & _).
  split; [exact Hrun|]. exact (Hdir eq_refl).
Defined.

(** [cleanup_then_list] on the three artifacts of [shop] with a retention
    of seven days: three listed before, two deleted, one listed after. *)
Lemma cleanup_then_list_witness :
  let run := cleanupOldBackups Sample.cfg Sample.clock "shop" 7 (Sample.world Sample.aged) in
  ∃ before after,
    listBackups Sample.cfg (Some "shop") (Sample.world Sample.aged)
    = (Ok before, Sample.world Sample.aged)
    ∧ listBackups Sample.cfg (Some "shop") run.2 = (Ok after, run.2)
    ∧ run.1 = Ok 2
    ∧ length before = 2 + length after.
Proof.
  intros run.
  pose proof (cleanup_then_list Sample.cfg Sample.clock "shop" 7
                (Sample.world Sample.aged) eq_refl (λ _, eq_refl)) as H.
  cbv zeta in H.
  destruct H as (_ & before & after & n & Hb & Hn & Ha & _ & _ & Hlen).
  fold run in Hn, Ha.
  assert (Hn2 : n = 2).
  { assert (Hrun : run.1 = Ok 2) by (vm_compute; reflexivity).
    rewrite Hrun in Hn. by injection Hn. }
  subst n. exists before, after.
  split; [exact Hb|]. split; [exact Ha|]. split; [exact Hn|exact Hlen].
Defined.

(** [default_cadence_only_on_direct_call] on [blog], which declares no
    cadence. *)
Lemma default_cadence_only_on_direct_call_witness :
  Scheduler.getJobs
    (Scheduler.scheduleBackup Sample.cfg Sample.validate [] Sample.blog
       (default Sample.shop_db (Application.database Sample.blog)))
  = [("blog", "backup", "0 2 * * *")]
  ∧ Scheduler.init_step Sample.cfg Sample.validate [] Sample.blog = [].
Proof.
  destruct (default_cadence_only_on_direct_call Sample.cfg Sample.validate []
              Sample.blog (default Sample.shop_db (Application.database Sample.blog))
              eq_refl (or_introl eq_refl) ltac:(vm_compute; reflexivity))
    as [Hdirect Hinit].
  split; [rewrite Hdirect; reflexivity|exact Hinit].
Defined.

(** [first_poll_is_idle] on a monitor that has seen nothing yet and two
    interfaces. *)
Lemma first_poll_is_idle_witness :
  let l := [Sample.eth0 5000 700;
            {| NetworkMonitor.iface := "lo";
               NetworkMonitor.rx_bytes := 40; NetworkMonitor.tx_bytes := 40 |}] in
  let run := NetworkTotals.getTotalTraffic Sample.two_polls NetworkMonitor.init l in
  NetworkTotals.rxSpeed run.1 = 0%float
  ∧ NetworkTotals.txSpeed run.1 = 0%float
  ∧ Spec.counters <$> Spec.cached run.2 "eth0"
    = Some (5000%float, 700%float).
Proof.
  intros l run.
  assert (Hnew : ∀ i, i ∈ l → NetworkMonitor.lookup NetworkMonitor.init (NetworkMonitor.iface i)
                              = NetworkMonitor.Missing).
  { intros i Hi. repeat (apply elem_of_cons in Hi as [->|Hi]; [reflexivity|]).
    by apply elem_of_nil in Hi. }
  destruct (first_poll_is_idle Sample.two_polls NetworkMonitor.init l
              ltac:(apply (bool_decide_unpack _); vm_compute; exact I) Hnew)
    as (_ & Hrx & Htx & Hstate & Hseed & _).
  fold run in Hrx, Htx, Hstate.
  split; [exact Hrx|]. split; [exact Htx|].
  rewrite Hstate. exact (Hseed (Sample.eth0 5000 700) ltac:(left)).
Defined.

(** [cached_containers] on one container whose probe fails: polled at 10 s
    and asked at 12 s, the cache answers with a maximal age of ten seconds
    and does not with a maximal age of one second. *)
Lemma cached_containers_witness :
  let l := [ {| Containers.Id := "0123456789abcdef"; Containers.Name := "/shop-web";
                Containers.Image := "shop:1"; Containers.State := "running";
                Containers.Status := "Up 2 hours"; Containers.Created := 1700000000 |} ] in
  let probe := λ _ : Containers.Summary, Containers.Failed "no such container" in
  let polled := (Containers.getContainers Sample.cfg Sample.two_polls probe
                   (Containers.Listed l) Containers.init).2 in
  (Containers.getCachedContainers Sample.two_polls 10000 polled).1
  = Some (Containers.describe Sample.cfg probe <$> l)
  ∧ (Containers.getCachedContainers Sample.two_polls 1000 polled).1 = None.
Proof.
  intros l probe polled. split.
  - pose proof (cached_containers Sample.cfg Sample.two_polls probe 10000 l
                  Containers.init) as [_ H].
    specialize (H ltac:(vm_compute; reflexivity)). cbv zeta in H.
    exact (proj1 H ltac:(vm_compute; reflexivity)).
  - pose proof (cached_containers Sample.cfg Sample.two_polls probe 1000 l
                  Containers.init) as [_ H].
    specialize (H ltac:(vm_compute; reflexivity)). cbv zeta in H.
    exact (proj2 H ltac:(vm_compute; reflexivity)).
Defined.

(** [authentication] with API_KEY unset: the fallback key opens the door, a
    missing header does not. *)
Lemma authentication_witness :
  Auth.authenticate (Auth.apiKey None) (Some "default-insecure-key") = Auth.Next
  ∧ ∃ error, Auth.authenticate (Auth.apiKey None) None = Auth.Rejected 401 error.
Proof.
  split.
  - destruct (authentication None (Some "default-insecure-key")) as (_ & _ & Hnext & _).
    apply Hnext. reflexivity.
  - destruct (authentication None None) as (_ & _ & _ & Hrej).
    apply Hrej. discriminate.
Defined.

(** [service_failures_answer_500] on a name the sample roster lacks: the
    create route answers 500, the status route 404. *)
Lemma service_failures_answer_500_witness :
  let exec := Sample.shell "backups" (λ _, 120%Z) Sample.start in
  Routes.create Sample.cfg Sample.clock exec "ghost" (Sample.world Sample.aged)
  = (Routes.Refused 500 "Application ghost not found in configuration",
     Sample.world Sample.aged)
  ∧ Routes.status_app Sample.cfg "ghost" (Sample.world Sample.aged)
    = (Routes.Refused 404 "Application ghost not found", Sample.world Sample.aged).
Proof.
  intros exec.
  destruct (service_failures_answer_500 Sample.cfg Sample.clock exec
              "ghost" "d1.sql.gz" (Sample.world Sample.aged)) as (_ & _ & _ & H).
  exact (H sample_has_no_ghost).
Defined.

End FurtherRuns.
